(** * telethon-sql: a multi-session store for Telethon on a relational database

    Shallow embedding of [telethon_sql/session.py] (the [SQLAlchemySession]
    backend) and of [migrate.py] (replay of a legacy SQLite [.session] file).

    A table is the list of its rows in storage order.  [Session.merge] on a
    transient object whose attributes are all set is an upsert by primary
    key; every public operation commits before it returns, so an operation
    is a function from store to store.  Python exceptions are results of a
    small state-and-error monad in which the store survives a raise, because
    whatever was committed before the raise stays committed. *)

From Stdlib Require Import ZArith String Ascii Strings.Byte Bool Lia List.
From Stdlib Require Import Permutation Sorted OrdersEx RelationClasses.
Import ListNotations.

Local Open Scope string_scope.
Local Open Scope list_scope.

(** ** Rows of the five tables *)

Definition bytes := list byte.

Module Version.
Record t := mk { version : Z }.
End Version.

Module SessionRow.
Record t := mk {
  session_name : string;
  dc_id : option Z;
  server_address : option string;
  port : option Z;
  auth_key : option bytes;
  takeout_id : option Z }.
End SessionRow.

Module Entity.
Record t := mk {
  session_name : string;
  id : Z;
  hash : Z;
  username : option string;
  phone : option string;
  name : option string;
  date : option Z }.

Definition with_username (u : option string) (r : t) : t :=
  mk (session_name r) (id r) (hash r) u (phone r) (name r) (date r).
End Entity.

Module SentFile.
Record t := mk {
  session_name : string;
  md5_digest : bytes;
  file_size : Z;
  type : Z;
  id : Z;
  hash : Z }.
End SentFile.

Module UpdateState.
Record t := mk {
  session_name : string;
  id : Z;
  pts : Z;
  qts : Z;
  date : option Z;
  seq : Z }.
End UpdateState.

(** The destination database.  [version], [sessions], ... are the tables that
    [Base.metadata.create_all] creates. *)
Record Store := mkStore {
  version : list Version.t;
  sessions : list SessionRow.t;
  entities : list Entity.t;
  sent_files : list SentFile.t;
  update_state : list UpdateState.t }.

Definition empty_store : Store := mkStore [] [] [] [] [].

Definition DATABASE_VERSION : Z := 1.

(** ** Primitive table operations *)

(** [s.merge(obj)]: the row with the primary key of [obj] is overwritten in
    place, and [obj] is inserted when no row has that key. *)
Fixpoint merge {A : Type} (same_key : A -> bool) (obj : A) (tbl : list A)
  : list A :=
  match tbl with
  | [] => [obj]
  | r :: rest =>
      if same_key r then obj :: rest else r :: merge same_key obj rest
  end.

(** [.first()] of a select: the first matching row, if any. *)
Definition first {A : Type} (p : A -> bool) (tbl : list A) : option A :=
  find p tbl.

(** [delete(T).where(p)] *)
Definition delete_where {A : Type} (p : A -> bool) (tbl : list A) : list A :=
  filter (fun r => negb (p r)) tbl.

Definition bytes_eqb (a b : bytes) : bool :=
  if list_eq_dec Byte.byte_eq_dec a b then true else false.

Definition opt_string_eqb (a : option string) (b : string) : bool :=
  match a with
  | Some s => String.eqb s b
  | None => false
  end.

(** Python truthiness of an optional string: [None] and [''] are false. *)
Definition truthy (u : option string) : bool :=
  match u with
  | Some s => negb (String.eqb s "")
  | None => false
  end.

(** ** The session object

    The fields of [MemorySession] that this backend reads and writes, with
    [session_name] and [save_entities] of [SQLAlchemySession]. *)
Record SQLAlchemySession := mkSession {
  session_name : string;
  save_entities : bool;
  _dc_id : Z;
  _server_address : option string;
  _port : option Z;
  _auth_key : option bytes;
  _takeout_id : option Z }.

(** ** Entities *)

Definition entity_key_eqb (sn : string) (i : Z) (r : Entity.t) : bool :=
  String.eqb (Entity.session_name r) sn && Z.eqb (Entity.id r) i.

Definition merge_entity (e : Entity.t) (tbl : list Entity.t) : list Entity.t :=
  merge (entity_key_eqb (Entity.session_name e) (Entity.id e)) e tbl.

(** [order_by(Entity.date.asc().nullsfirst())] on rows [(id, date)].  Rows
    with equal dates keep their storage order (the database leaves the order
    of ties open; a stable sort is one admissible choice). *)
Definition date_le (a b : option Z) : bool :=
  match a, b with
  | None, _ => true
  | Some _, None => false
  | Some x, Some y => Z.leb x y
  end.

Fixpoint insert_by_date (x : Z * option Z) (l : list (Z * option Z))
  : list (Z * option Z) :=
  match l with
  | [] => [x]
  | y :: l' =>
      if date_le (snd x) (snd y) then x :: y :: l'
      else y :: insert_by_date x l'
  end.

Fixpoint order_by_date (l : list (Z * option Z)) : list (Z * option Z) :=
  match l with
  | [] => []
  | x :: l' => insert_by_date x (order_by_date l')
  end.

(** [select(Entity.id, Entity.date).where(session_name == sn)
      .where(username == u).order_by(date asc nulls first)] *)
Definition holds_username (sn u : string) (r : Entity.t) : bool :=
  String.eqb (Entity.session_name r) sn && opt_string_eqb (Entity.username r) u.

Definition select_dups (sn u : string) (tbl : list Entity.t)
  : list (Z * option Z) :=
  order_by_date
    (map (fun r => (Entity.id r, Entity.date r)) (filter (holds_username sn u) tbl)).

(** [update(Entity).where(session_name == sn).where(id.in_(ids))
      .values(username=None)] *)
Definition null_usernames (sn : string) (ids : list Z) (tbl : list Entity.t)
  : list Entity.t :=
  map (fun r =>
         if String.eqb (Entity.session_name r) sn
            && existsb (Z.eqb (Entity.id r)) ids
         then Entity.with_username None r
         else r) tbl.

(** The duplicate resolution pass for one username (lines 341-356). *)
Definition evict_older_duplicates (sn u : string) (tbl : list Entity.t)
  : list Entity.t :=
  let dups := select_dups sn u tbl in
  if Nat.ltb 1 (length dups) then
    let ids_to_null := map fst (removelast dups) in
    match ids_to_null with
    | [] => tbl
    | _ :: _ => null_usernames sn ids_to_null tbl
    end
  else tbl.

(** A row as [_entities_to_rows] yields it:
    [(id, hash, username, phone, name)]. *)
Definition row : Type :=
  Z * Z * option string * option string * option string.

(** [str.lower] on ASCII text, the alphabet of usernames. *)
Definition lower_ascii (c : ascii) : ascii :=
  let n := nat_of_ascii c in
  if Nat.leb 65 n && Nat.leb n 90 then ascii_of_nat (n + 32) else c.

Fixpoint lower (s : string) : string :=
  match s with
  | EmptyString => EmptyString
  | String c s' => String (lower_ascii c) (lower s')
  end.

(** An entity of a batch, by what [MemorySession._entity_to_row] reads from
    it: the marked id and the access hash of its input peer ([None] when
    the entity has no usable input peer and is skipped), its [username] and
    [phone] attributes, and its display name (empty when it has none). *)
Record tl_entity := mkTL {
  input_peer : option (Z * Z);
  tl_username : option string;
  tl_phone : option string;
  display_name : string }.

(** [_entity_to_row], inherited from Telethon's [MemorySession]:
    [username = getattr(e, 'username', None) or None], lowercased when it is
    not [None]; [name = utils.get_display_name(e) or None]. *)
Definition _entity_to_row (e : tl_entity) : option row :=
  match input_peer e with
  | None => None
  | Some (marked_id, p_hash) =>
      let username :=
        match tl_username e with
        | Some u => if truthy (Some u) then Some (lower u) else None
        | None => None
        end in
      let name :=
        if String.eqb (display_name e) "" then None
        else Some (display_name e) in
      Some (marked_id, p_hash, username, tl_phone e, name)
  end.

(** [_entities_to_rows(tlo)], line 321; [tlo] is given by the entities the
    method collects from it, in order.  An entity without a row is left
    out. *)
Fixpoint _entities_to_rows (tlo : list tl_entity) : list row :=
  match tlo with
  | [] => []
  | e :: rest =>
      match _entity_to_row e with
      | Some r => r :: _entities_to_rows rest
      | None => _entities_to_rows rest
      end
  end.

(** One iteration of the loop of [process_entities]. *)
Definition process_row (sn : string) (now_ts : Z) (tbl : list Entity.t)
  (r : row) : list Entity.t :=
  let '(ent_id, ent_hash, username, phone, name) := r in
  let tbl1 :=
    merge_entity (Entity.mk sn ent_id ent_hash username phone name (Some now_ts))
      tbl in
  match username with
  | Some u => if truthy username then evict_older_duplicates sn u tbl1 else tbl1
  | None => tbl1
  end.

Definition set_entities (st : Store) (tbl : list Entity.t) : Store :=
  mkStore (version st) (sessions st) tbl (sent_files st) (update_state st).

(** The body of [process_entities] from line 322 on.  [rows] is the value
    of [self._entities_to_rows(tlo)] (line 321), which [_entities_to_rows]
    above computes; [now_ts] is the reading of [int(time.time())]. *)
Definition process_entities (self : SQLAlchemySession) (now_ts : Z)
  (rows : list row) (st : Store) : Store :=
  if negb (save_entities self) then st
  else
    match rows with
    | [] => st
    | _ :: _ =>
        set_entities st
          (fold_left (process_row (session_name self) now_ts) rows (entities st))
    end.

Definition get_entity_rows_by_phone (self : SQLAlchemySession)
  (phone : string) (st : Store) : option (Z * Z) :=
  option_map (fun r => (Entity.id r, Entity.hash r))
    (first (fun r => String.eqb (Entity.session_name r) (session_name self)
                     && opt_string_eqb (Entity.phone r) phone)
       (entities st)).

Definition get_entity_rows_by_name (self : SQLAlchemySession)
  (name : string) (st : Store) : option (Z * Z) :=
  option_map (fun r => (Entity.id r, Entity.hash r))
    (first (fun r => String.eqb (Entity.session_name r) (session_name self)
                     && opt_string_eqb (Entity.name r) name)
       (entities st)).

(** [get_entity_rows_by_id(id, exact=True)] *)
Definition get_entity_rows_by_id (self : SQLAlchemySession) (id : Z)
  (st : Store) : option (Z * Z) :=
  option_map (fun r => (Entity.id r, Entity.hash r))
    (first (entity_key_eqb (session_name self) id) (entities st)).

(** ** Errors and the store monad *)

Inductive exn : Type :=
| FileNotFoundError
| OperationalError
| DatabaseError
| TypeError
| ValueError
| OverflowError
| OSError
| ModuleNotFoundError.

Inductive result (A : Type) : Type :=
| Ok (a : A)
| Raise (e : exn).
Arguments Ok {A} a.
Arguments Raise {A} e.

(** A computation over a state [S] that may raise; the state reached at the
    raise is kept. *)
Definition M (S A : Type) : Type := S -> result A * S.

Definition ret {S A : Type} (a : A) : M S A := fun s => (Ok a, s).

Definition raise {S A : Type} (e : exn) : M S A := fun s => (Raise e, s).

Definition bind {S A B : Type} (m : M S A) (k : A -> M S B) : M S B :=
  fun s =>
    match m s with
    | (Ok a, s') => k a s'
    | (Raise e, s') => (Raise e, s')
    end.

Definition modify {S : Type} (f : S -> S) : M S unit := fun s => (Ok tt, f s).

Notation "x <- m ;; k" := (bind m (fun x => k))
  (at level 61, m at next level, right associativity).
Notation "m ;;; k" := (bind m (fun _ => k))
  (at level 61, right associativity).

(** [for x in xs: body(x)] *)
Fixpoint for_each {S A : Type} (xs : list A) (body : A -> M S unit) : M S unit :=
  match xs with
  | [] => ret tt
  | x :: xs' => body x ;;; for_each xs' body
  end.

(** ** Update state *)

(** A [datetime] is represented by the POSIX second it denotes; the
    sub-second part, which [timestamp()] carries through a float, is not
    represented. *)
Record datetime := fromtimestamp { timestamp : Z }.

(** [telethon.tl.types.updates.State] *)
Module State.
Record t := mk {
  pts : Z;
  qts : Z;
  date : option datetime;
  seq : Z;
  unread_count : Z }.
End State.

Definition update_state_key_eqb (sn : string) (i : Z) (r : UpdateState.t)
  : bool :=
  String.eqb (UpdateState.session_name r) sn && Z.eqb (UpdateState.id r) i.

Definition set_update_states (st : Store) (tbl : list UpdateState.t) : Store :=
  mkStore (version st) (sessions st) (entities st) (sent_files st) tbl.

(** [row.date] is truthy unless it is [None] or [0]. *)
Definition date_of_column (d : option Z) : option datetime :=
  match d with
  | Some z => if Z.eqb z 0 then None else Some (fromtimestamp z)
  | None => None
  end.

Definition get_update_state (self : SQLAlchemySession) (entity_id : Z)
  (st : Store) : option State.t :=
  match first (update_state_key_eqb (session_name self) entity_id)
          (update_state st) with
  | Some r =>
      Some (State.mk (UpdateState.pts r) (UpdateState.qts r)
              (date_of_column (UpdateState.date r)) (UpdateState.seq r) 0%Z)
  | None => None
  end.

Definition set_update_state (self : SQLAlchemySession) (entity_id : Z)
  (state : State.t) (st : Store) : Store :=
  set_update_states st
    (merge (update_state_key_eqb (session_name self) entity_id)
       (UpdateState.mk (session_name self) entity_id
          (State.pts state) (State.qts state)
          (match State.date state with
           | Some d => Some (timestamp d)
           | None => None
           end)
          (State.seq state))
       (update_state st)).

(** ** Persistence lifecycle *)

Definition delete (self : SQLAlchemySession) (st : Store) : Store :=
  let sn := session_name self in
  mkStore (version st)
    (delete_where (fun r => String.eqb (SessionRow.session_name r) sn) (sessions st))
    (delete_where (fun r => String.eqb (Entity.session_name r) sn) (entities st))
    (delete_where (fun r => String.eqb (SentFile.session_name r) sn) (sent_files st))
    (delete_where (fun r => String.eqb (UpdateState.session_name r) sn)
       (update_state st)).

(** Python compares [str] values by code point, the shorter of two strings
    first when one is a prefix of the other. *)
Definition str_le (a b : string) : bool :=
  match String_as_OT.compare a b with
  | Gt => false
  | _ => true
  end.

Fixpoint insert_sorted (x : string) (l : list string) : list string :=
  match l with
  | [] => [x]
  | y :: l' => if str_le x y then x :: y :: l' else y :: insert_sorted x l'
  end.

(** [sorted(xs)] for strings. *)
Fixpoint sorted (l : list string) : list string :=
  match l with
  | [] => []
  | x :: l' => insert_sorted x (sorted l')
  end.

(** [set(xs)]: the distinct elements; the order in which a Python set yields
    them does not reach the caller, [sorted] consumes it. *)
Definition set (l : list string) : list string := nodup string_dec l.

(** [list_sessions].  The database is [None] while the [sessions] table does
    not exist ([has_table] is false). *)
Definition list_sessions (db : option Store) : list string :=
  match db with
  | None => []
  | Some st =>
      let names := map SessionRow.session_name (sessions st) in
      sorted (set names)
  end.

(** ** File cache *)

(** The values [cache_file] may be handed: the two remote references it
    accepts, with their three fields, and anything else. *)
Inductive instance : Type :=
| InputDocument (id access_hash : Z) (file_reference : bytes)
| InputPhoto (id access_hash : Z) (file_reference : bytes)
| OtherObject.

(** [telethon.sessions.memory._SentFileType] *)
Inductive _SentFileType : Type := DOCUMENT | PHOTO.

Definition value (t : _SentFileType) : Z :=
  match t with
  | DOCUMENT => 0%Z
  | PHOTO => 1%Z
  end.

Definition sent_file_key_eqb (sn : string) (md5 : bytes) (size ty : Z)
  (r : SentFile.t) : bool :=
  String.eqb (SentFile.session_name r) sn
  && bytes_eqb (SentFile.md5_digest r) md5
  && Z.eqb (SentFile.file_size r) size
  && Z.eqb (SentFile.type r) ty.

Definition set_sent_files (st : Store) (tbl : list SentFile.t) : Store :=
  mkStore (version st) (sessions st) (entities st) tbl (update_state st).

(** A call of the constructor of [InputDocument] or [InputPhoto].  Both
    have three required parameters, [id], [access_hash] and
    [file_reference]; a call that leaves the third out raises [TypeError]. *)
Definition construct (cls : _SentFileType) (id access_hash : Z)
  (file_reference : option bytes) : result instance :=
  match file_reference with
  | Some ref =>
      Ok (match cls with
          | DOCUMENT => InputDocument id access_hash ref
          | PHOTO => InputPhoto id access_hash ref
          end)
  | None => Raise TypeError
  end.

(** [get_file]; on a hit it returns [cls(row[0], row[1])] (line 443), a
    call with two arguments. *)
Definition get_file (self : SQLAlchemySession) (md5_digest : bytes)
  (file_size : Z) (cls : _SentFileType) (st : Store)
  : result (option instance) :=
  match first (sent_file_key_eqb (session_name self) md5_digest file_size
                 (value cls)) (sent_files st) with
  | Some r =>
      match construct cls (SentFile.id r) (SentFile.hash r) None with
      | Ok inst => Ok (Some inst)
      | Raise e => Raise e
      end
  | None => Ok None
  end.

Definition cache_file (self : SQLAlchemySession) (md5_digest : bytes)
  (file_size : Z) (inst : instance) : M Store unit :=
  let put ty id access_hash :=
    modify (fun st =>
      set_sent_files st
        (merge (sent_file_key_eqb (session_name self) md5_digest file_size
                  (value ty))
           (SentFile.mk (session_name self) md5_digest file_size (value ty)
              id access_hash)
           (sent_files st))) in
  match inst with
  | InputDocument id access_hash _ => put DOCUMENT id access_hash
  | InputPhoto id access_hash _ => put PHOTO id access_hash
  | OtherObject => raise TypeError
  end.

(** ** Schema, session record *)

Definition set_version (st : Store) (tbl : list Version.t) : Store :=
  mkStore tbl (sessions st) (entities st) (sent_files st) (update_state st).

Definition set_sessions (st : Store) (tbl : list SessionRow.t) : Store :=
  mkStore (version st) tbl (entities st) (sent_files st) (update_state st).

Definition version_key_eqb (v : Z) (r : Version.t) : bool :=
  Z.eqb (Version.version r) v.

Definition session_key_eqb (sn : string) (r : SessionRow.t) : bool :=
  String.eqb (SessionRow.session_name r) sn.

(** [create_all] makes the five tables when they are missing. *)
Definition _ensure_schema (db : option Store) : Store :=
  let st := match db with Some st => st | None => empty_store end in
  match first (version_key_eqb DATABASE_VERSION) (version st) with
  | Some _ => st
  | None =>
      set_version st
        (merge (version_key_eqb DATABASE_VERSION) (Version.mk DATABASE_VERSION)
           (version st))
  end.

Definition nonempty_bytes (b : option bytes) : option bytes :=
  match b with
  | Some [] => None
  | Some k => Some k
  | None => None
  end.

Definition _load_existing_session (self : SQLAlchemySession) (st : Store)
  : SQLAlchemySession * Store :=
  match first (session_key_eqb (session_name self)) (sessions st) with
  | Some r =>
      (mkSession (session_name self) (save_entities self)
         (match SessionRow.dc_id r with Some d => d | None => 0%Z end)
         (SessionRow.server_address r)
         (SessionRow.port r)
         (nonempty_bytes (SessionRow.auth_key r))
         (SessionRow.takeout_id r),
       st)
  | None =>
      (self,
       set_sessions st
         (merge (session_key_eqb (session_name self))
            (SessionRow.mk (session_name self) (Some (_dc_id self))
               (_server_address self) (_port self) (Some [])
               (_takeout_id self))
            (sessions st)))
  end.

(** [SQLAlchemySession(db_url, session_name)]; the initial field values are
    those of [MemorySession.__init__]. *)
Definition __init__ (db : option Store) (sn : string)
  : SQLAlchemySession * Store :=
  _load_existing_session (mkSession sn true 0%Z None None None None)
    (_ensure_schema db).

Definition _update_session_row (self : SQLAlchemySession) (st : Store) : Store :=
  set_sessions st
    (merge (session_key_eqb (session_name self))
       (SessionRow.mk (session_name self) (Some (_dc_id self))
          (_server_address self) (_port self)
          (Some (match _auth_key self with Some k => k | None => [] end))
          (_takeout_id self))
       (sessions st)).

Definition set_dc (dc_id : option Z) (server_address : option string)
  (port : option Z) (self : SQLAlchemySession) (st : Store)
  : SQLAlchemySession * Store :=
  let self1 :=
    mkSession (session_name self) (save_entities self)
      (match dc_id with Some d => d | None => 0%Z end)
      server_address port (_auth_key self) (_takeout_id self) in
  let st1 := _update_session_row self1 st in
  let key :=
    match first (session_key_eqb (session_name self1)) (sessions st1) with
    | Some r => nonempty_bytes (SessionRow.auth_key r)
    | None => None
    end in
  (mkSession (session_name self1) (save_entities self1) (_dc_id self1)
     (_server_address self1) (_port self1) key (_takeout_id self1),
   st1).

Definition set_auth_key (value : option bytes) (self : SQLAlchemySession)
  (st : Store) : SQLAlchemySession * Store :=
  let self1 :=
    mkSession (session_name self) (save_entities self) (_dc_id self)
      (_server_address self) (_port self) value (_takeout_id self) in
  (self1, _update_session_row self1 st).

Definition set_takeout_id (value : option Z) (self : SQLAlchemySession)
  (st : Store) : SQLAlchemySession * Store :=
  let self1 :=
    mkSession (session_name self) (save_entities self) (_dc_id self)
      (_server_address self) (_port self) (_auth_key self) value in
  (self1, _update_session_row self1 st).

(** ** Migration of a legacy SQLite session *)

Fixpoint has_slash (s : string) : bool :=
  match s with
  | EmptyString => false
  | String c s' => Ascii.eqb c "/" || has_slash s'
  end.

(** [os.path.basename] *)
Fixpoint basename (p : string) : string :=
  match p with
  | EmptyString => EmptyString
  | String c rest =>
      if has_slash rest then basename rest
      else if Ascii.eqb c "/" then rest else p
  end.

Definition endswith (s suffix : string) : bool :=
  let n := String.length s in
  let m := String.length suffix in
  Nat.leb m n && String.eqb (substring (n - m) m s) suffix.

(** The session name under which a legacy file is replayed (lines 16-20). *)
Definition inferred_session_name (sqlite_path : string) : string :=
  let base := basename sqlite_path in
  let base :=
    if endswith base ".session"
    then substring 0 (String.length base - 8) base else base in
  if String.eqb base "" then "default" else base.

Definition derive_session_name (sqlite_path : string)
  (session_name : option string) : string :=
  match session_name with
  | Some sn =>
      if truthy session_name then sn else inferred_session_name sqlite_path
  | None => inferred_session_name sqlite_path
  end.

(** The legacy database: each table is [None] when the file does not have
    it, and the list of its rows otherwise. *)
Record LegacyDb := mkLegacy {
  legacy_sessions :
    option (list (option Z * option string * option Z * option bytes * option Z));
  legacy_entities :
    option (list (Z * Z * option string * option string * option string * option Z));
  legacy_update_state : option (list (Z * Z * Z * option Z * Z));
  legacy_sent_files : option (list (bytes * Z * Z * Z * Z)) }.

(** What a path names, as lines 12-33 find out. *)
Inductive path_state : Type :=
| NoSuchPath      (* [os.path.exists] is false *)
| CannotOpen      (* [sqlite3.connect] raises: a directory, no permission *)
| NotADatabase    (* the connection opens; the first statement finds that
                     the file is not a database *)
| Database (legacy : LegacyDb).

(** What [migrate_sqlite_to_sqlalchemy] reads from its surroundings: the
    file system, the reading of [int(_time.time())], whether
    [telethon_sqlalchemy_session.session] can be imported, and the local
    time of the platform: [fromtimestamp_error d] is the exception that
    [datetime.datetime.fromtimestamp(d)] raises for an instant outside the
    years 1 to 9999 of the local time zone ([ValueError]) or outside what
    the platform's [localtime] takes ([OSError], [OverflowError]), and
    [None] where the call returns. *)
Record Env := mkEnv {
  open_path : string -> path_state;
  time_now : Z;
  entity_module_importable : bool;
  fromtimestamp_error : Z -> option exn }.

Definition dst_state : Type := SQLAlchemySession * Store.

(** The legacy database in which [entities], [update_state] and
    [sent_files] exist, empty when [legacy] lacks them. *)
Definition with_empty_tables (legacy : LegacyDb) : LegacyDb :=
  mkLegacy (legacy_sessions legacy)
    (Some (match legacy_entities legacy with Some rs => rs | None => [] end))
    (Some (match legacy_update_state legacy with Some rs => rs | None => [] end))
    (Some (match legacy_sent_files legacy with Some rs => rs | None => [] end)).

Definition on_session (f : SQLAlchemySession -> Store -> SQLAlchemySession * Store)
  : M dst_state unit :=
  modify (fun d => f (fst d) (snd d)).

Definition on_store (f : SQLAlchemySession -> Store -> Store)
  : M dst_state unit :=
  modify (fun d => (fst d, f (fst d) (snd d))).

(** Lines 29-42: the [sessions] table is read without an [except] clause. *)
Definition replay_session_record (legacy : LegacyDb) : M dst_state unit :=
  match legacy_sessions legacy with
  | None => raise OperationalError
  | Some [] => ret tt
  | Some ((dc_id, server_address, port, auth_key, takeout_id) :: _) =>
      on_session (set_dc dc_id server_address port) ;;;
      (match nonempty_bytes auth_key with
       | Some k => on_session (set_auth_key (Some k))
       | None => ret tt
       end) ;;;
      on_session (set_takeout_id takeout_id)
  end.

Definition migrate_entity_row (sn : string) (now_ts : Z) (tbl : list Entity.t)
  (r : Z * Z * option string * option string * option string * option Z)
  : list Entity.t :=
  let '(ent_id, ent_hash, username, phone, name, date) := r in
  let tbl1 :=
    merge_entity
      (Entity.mk sn ent_id ent_hash
         (match username with
          | Some u => if truthy username then Some (lower u) else None
          | None => None
          end)
         phone name
         (match date with
          | Some d => if Z.eqb d 0 then Some now_ts else Some d
          | None => Some now_ts
          end))
      tbl in
  match username with
  | Some u =>
      if truthy username then evict_older_duplicates sn (lower u) tbl1 else tbl1
  | None => tbl1
  end.

(** Lines 44-90. *)
Definition replay_entities (env : Env) (legacy : LegacyDb) : M dst_state unit :=
  let rows :=
    match legacy_entities legacy with Some rs => rs | None => [] end in
  match rows with
  | [] => ret tt
  | _ :: _ =>
      if entity_module_importable env then
        on_store (fun dst st =>
          set_entities st
            (fold_left (migrate_entity_row (session_name dst) (time_now env))
               rows (entities st)))
      else raise ModuleNotFoundError
  end.

(** Lines 92-110; [datetime.fromtimestamp(None)] raises [TypeError], and
    an instant that the local time cannot represent raises as the platform
    says. *)
Definition replay_update_state (env : Env) (legacy : LegacyDb)
  : M dst_state unit :=
  let rows :=
    match legacy_update_state legacy with Some rs => rs | None => [] end in
  for_each rows (fun '(eid, pts, qts, date, seq) =>
    match date with
    | None => raise TypeError
    | Some d =>
        match fromtimestamp_error env d with
        | Some e => raise e
        | None =>
            on_store (fun dst =>
              set_update_state dst eid
                (State.mk pts qts (Some (fromtimestamp d)) seq 0%Z))
        end
    end).

(** The value of an expression that may raise, inside a computation. *)
Definition of_result {S A : Type} (r : result A) : M S A := fun s => (r, s).

(** [dst.cache_file(md5_digest, file_size, inst)] *)
Definition dst_cache_file (md5_digest : bytes) (file_size : Z)
  (inst : instance) : M dst_state unit :=
  fun d =>
    match cache_file (fst d) md5_digest file_size inst (snd d) with
    | (r, st) => (r, (fst d, st))
    end.

(** Lines 112-126.  The argument [InputDocument(fid, fh)] or
    [InputPhoto(fid, fh)] is evaluated before [cache_file] is entered. *)
Definition replay_sent_files (legacy : LegacyDb) : M dst_state unit :=
  let rows :=
    match legacy_sent_files legacy with Some rs => rs | None => [] end in
  for_each rows (fun '(md5_digest, file_size, type_value, fid, fh) =>
    if Z.eqb type_value (value DOCUMENT) then
      inst <- of_result (construct DOCUMENT fid fh None) ;;
      dst_cache_file md5_digest file_size inst
    else if Z.eqb type_value (value PHOTO) then
      inst <- of_result (construct PHOTO fid fh None) ;;
      dst_cache_file md5_digest file_size inst
    else ret tt).

Definition replay (env : Env) (legacy : LegacyDb) : M dst_state unit :=
  replay_session_record legacy ;;;
  replay_entities env legacy ;;;
  replay_update_state env legacy ;;;
  replay_sent_files legacy.

(** [migrate_sqlite_to_sqlalchemy]: the path is checked (lines 12-13), the
    session name derived (lines 15-20), the connection opened (line 22),
    the destination session made (line 27) and the legacy tables replayed,
    the first of which finds out whether the file is a database.  Nothing
    is rolled back when a step raises.  The result is the outcome and the
    destination database after the call. *)
Definition migrate_sqlite_to_sqlalchemy (env : Env) (sqlite_path : string)
  (session_name : option string) (db : option Store)
  : result unit * option Store :=
  let sn := derive_session_name sqlite_path session_name in
  match open_path env sqlite_path with
  | NoSuchPath => (Raise FileNotFoundError, db)
  | CannotOpen => (Raise OperationalError, db)
  | NotADatabase => (Raise DatabaseError, Some (snd (__init__ db sn)))
  | Database legacy =>
      match replay env legacy (__init__ db sn) with
      | (r, (_, st)) => (r, Some st)
      end
  end.

(** ** Further operations of the session *)

(** [get_update_states]: the cursors of the session, in storage order. *)
Definition get_update_states (self : SQLAlchemySession) (st : Store)
  : list (Z * State.t) :=
  map (fun r =>
         (UpdateState.id r,
          State.mk (UpdateState.pts r) (UpdateState.qts r)
            (date_of_column (UpdateState.date r)) (UpdateState.seq r) 0%Z))
    (filter (fun r =>
               String.eqb (UpdateState.session_name r) (session_name self))
       (update_state st)).

(** [list.sort(key=...)]: a stable sort, ascending in the key. *)
Fixpoint insert_by {A : Type} (le : A -> A -> bool) (x : A) (l : list A)
  : list A :=
  match l with
  | [] => [x]
  | y :: l' => if le x y then x :: y :: l' else y :: insert_by le x l'
  end.

Fixpoint sort_by {A : Type} (le : A -> A -> bool) (l : list A) : list A :=
  match l with
  | [] => []
  | x :: l' => insert_by le x (sort_by le l')
  end.

(** [t[2] or 0] *)
Definition date_or_0 (d : option Z) : Z :=
  match d with
  | Some z => z
  | None => 0%Z
  end.

Definition by_date_or_0 (a b : Z * Z * option Z) : bool :=
  Z.leb (date_or_0 (snd a)) (date_or_0 (snd b)).

(** [get_entity_rows_by_username]: the answer and the store after the call,
    which repairs a duplicated username on the way (lines 369-389). *)
Definition get_entity_rows_by_username (self : SQLAlchemySession)
  (username : string) (st : Store) : option (Z * Z) * Store :=
  let sn := session_name self in
  let results :=
    map (fun r => (Entity.id r, Entity.hash r, Entity.date r))
      (filter (holds_username sn username) (entities st)) in
  match results with
  | [] => (None, st)
  | t0 :: _ =>
      if Nat.ltb 1 (List.length results) then
        let results := sort_by by_date_or_0 results in
        let ids_to_null := map (fun t => fst (fst t)) (removelast results) in
        let st' :=
          match ids_to_null with
          | [] => st
          | _ :: _ => set_entities st (null_usernames sn ids_to_null (entities st))
          end in
        let t := last results t0 in
        (Some (fst (fst t), snd (fst t)), st')
      else (Some (fst (fst t0), snd (fst t0)), st)
  end.

(** ** Migration of a directory *)

(** [os.path.join] of two components. *)
Definition os_path_join (a b : string) : string :=
  match b with
  | String "/" _ => b
  | _ =>
      if String.eqb a "" || endswith a "/" then a ++ b
      else a ++ "/" ++ b
  end.

(** What [migrate_directory] does when it returns: the lines it printed, one
    per migrated file, with the outcome of that file. *)
Inductive batch_outcome : Type :=
| NotADirectoryError
| Printed (lines : list (string * result unit)).

(** One iteration of the loop of [migrate_directory] (lines 135-142).
    [clock src] is the reading of the clock while [src] is migrated. *)
Definition migrate_entry (fs : Env) (clock : string -> Z) (dir_path : string)
  (acc : list (string * result unit) * option Store) (entry : string)
  : list (string * result unit) * option Store :=
  if endswith entry ".session" then
    let src := os_path_join dir_path entry in
    let env :=
      mkEnv (open_path fs) (clock src) (entity_module_importable fs)
        (fromtimestamp_error fs) in
    match migrate_sqlite_to_sqlalchemy env src None (snd acc) with
    | (r, db') => (fst acc ++ [(src, r)], db')
    end
  else acc.

(** [migrate_directory].  [listdir dir_path] is [None] when
    [os.path.isdir] is false and the value of [os.listdir] otherwise. *)
Definition migrate_directory (fs : Env) (clock : string -> Z)
  (listdir : string -> option (list string)) (dir_path : string)
  (db : option Store) : batch_outcome * option Store :=
  match listdir dir_path with
  | None => (NotADirectoryError, db)
  | Some entries =>
      match fold_left (migrate_entry fs clock dir_path) entries ([], db) with
      | (lines, db') => (Printed lines, db')
      end
  end.

(** ** Specification vocabulary *)

Definition entity_key (r : Entity.t) : string * Z :=
  (Entity.session_name r, Entity.id r).

(** The primary key [(session_name, id)] of [entities], which the database
    enforces. *)
Definition pk_entities (tbl : list Entity.t) : Prop :=
  NoDup (map entity_key tbl).

(** The rows of session [sn] that carry username [u]. *)
Definition holders (sn u : string) (tbl : list Entity.t) : list Entity.t :=
  filter (holds_username sn u) tbl.

(** No two rows of one session share a username that Python treats as
    present (non-null and non-empty). *)
Definition username_unique (tbl : list Entity.t) : Prop :=
  forall r1 r2 u,
    In r1 tbl -> In r2 tbl ->
    Entity.session_name r1 = Entity.session_name r2 ->
    Entity.username r1 = Some u -> Entity.username r2 = Some u ->
    u <> "" ->
    Entity.id r1 = Entity.id r2.

(** What the pass does to a single row. *)
Inductive evicted (sn u : string) (r : Entity.t) : Entity.t -> Prop :=
| kept : evicted sn u r r
| cleared :
    Entity.session_name r = sn ->
    evicted sn u r (Entity.with_username None r).

(** Two rows agree on everything the duplicate pass must leave alone. *)
Definition same_but_username (r r' : Entity.t) : Prop :=
  Entity.session_name r' = Entity.session_name r /\
  Entity.id r' = Entity.id r /\
  Entity.hash r' = Entity.hash r /\
  Entity.phone r' = Entity.phone r /\
  Entity.name r' = Entity.name r /\
  Entity.date r' = Entity.date r.

(** The destination holds a session record for [sn]. *)
Definition has_session_record (sn : string) (st : Store) : Prop :=
  exists r, In r (sessions st) /\ SessionRow.session_name r = sn.

(** The destination session object is the one for [sn] and its record is in
    the store. *)
Definition dst_ok (sn : string) (d : dst_state) : Prop :=
  session_name (fst d) = sn /\ has_session_record sn (snd d).

(** [m] keeps [P] on the state, whether it returns or raises. *)
Definition preserves {S A : Type} (P : S -> Prop) (m : M S A) : Prop :=
  forall s, P s -> P (snd (m s)).

(** No two rows of one session share a username, whatever it is. *)
Definition username_exclusive (tbl : list Entity.t) : Prop :=
  forall r1 r2 u,
    In r1 tbl -> In r2 tbl ->
    Entity.session_name r1 = Entity.session_name r2 ->
    Entity.username r1 = Some u -> Entity.username r2 = Some u ->
    Entity.id r1 = Entity.id r2.

(** The username of a batch row. *)
Definition row_username (x : row) : option string :=
  let '(_, _, u, _, _) := x in u.

(** A call [process_entities(tlo)]: the session object, the clock reading
    and the entities of [tlo]. *)
Definition call : Type := SQLAlchemySession * Z * list tl_entity.

Definition run_call (st : Store) (c : call) : Store :=
  let '(self, now_ts, tlo) := c in
  process_entities self now_ts (_entities_to_rows tlo) st.

(** The stores reached after each call of a sequence, in order. *)
Fixpoint trace (st : Store) (calls : list call) : list Store :=
  match calls with
  | [] => []
  | c :: cs => let st' := run_call st c in st' :: trace st' cs
  end.

(** The part of a table that belongs to session [sn]. *)
Definition of_session {A : Type} (name_of : A -> string) (sn : string)
  (tbl : list A) : list A :=
  filter (fun r => String.eqb (name_of r) sn) tbl.

(** A username is lowercase when [lower] leaves it alone. *)
Definition is_lower (u : string) : Prop := lower u = u.

(** Strictly ascending lists of strings. *)
Definition ascending (l : list string) : Prop :=
  StronglySorted String_as_OT.lt l.

(** Primary keys of the other tables. *)
Definition update_state_key (r : UpdateState.t) : string * Z :=
  (UpdateState.session_name r, UpdateState.id r).

Definition sent_file_key (r : SentFile.t) : string * bytes * Z * Z :=
  (SentFile.session_name r, SentFile.md5_digest r, SentFile.file_size r,
   SentFile.type r).

(** Every table satisfies its primary key. *)
Definition wf_store (st : Store) : Prop :=
  NoDup (map Version.version (version st)) /\
  NoDup (map SessionRow.session_name (sessions st)) /\
  pk_entities (entities st) /\
  NoDup (map sent_file_key (sent_files st)) /\
  NoDup (map update_state_key (update_state st)).

Definition wf_db (db : option Store) : Prop :=
  match db with
  | Some st => wf_store st
  | None => True
  end.

(** The peer id of a batch row. *)
Definition row_id (x : row) : Z :=
  let '(i, _, _, _, _) := x in i.

(** The rows of every table that belong to session [sn]. *)
Definition session_view (sn : string) (st : Store)
  : list SessionRow.t * list Entity.t * list UpdateState.t * list SentFile.t :=
  (of_session SessionRow.session_name sn (sessions st),
   of_session Entity.session_name sn (entities st),
   of_session UpdateState.session_name sn (update_state st),
   of_session SentFile.session_name sn (sent_files st)).

(** The session object a new [SQLAlchemySession] for [sn] starts with. *)
Definition reopen (st : Store) (sn : string) : SQLAlchemySession :=
  fst (__init__ (Some st) sn).

(** The exception that stops the replay of a cursor row, if any. *)
Definition cursor_error (env : Env) (x : Z * Z * Z * option Z * Z)
  : option exn :=
  let '(_, _, _, date, _) := x in
  match date with
  | None => Some TypeError
  | Some d => fromtimestamp_error env d
  end.

(** The first exception that [f] finds along [l]. *)
Fixpoint first_error {A : Type} (f : A -> option exn) (l : list A)
  : option exn :=
  match l with
  | [] => None
  | x :: l' =>
      match f x with
      | Some e => Some e
      | None => first_error f l'
      end
  end.

(** A legacy [sent_files] row of kind document or photo. *)
Definition document_or_photo (x : bytes * Z * Z * Z * Z) : bool :=
  let '(_, _, type_value, _, _) := x in
  Z.eqb type_value (value DOCUMENT) || Z.eqb type_value (value PHOTO).

(** The outcome of replaying [legacy], read off its tables. *)
Definition migration_outcome (env : Env) (legacy : LegacyDb) : result unit :=
  let rows_of {A : Type} (t : option (list A)) :=
    match t with Some rs => rs | None => [] end in
  match legacy_sessions legacy with
  | None => Raise OperationalError
  | Some _ =>
      match rows_of (legacy_entities legacy), entity_module_importable env with
      | _ :: _, false => Raise ModuleNotFoundError
      | _, _ =>
          match first_error (cursor_error env)
                  (rows_of (legacy_update_state legacy)) with
          | Some e => Raise e
          | None =>
              if existsb document_or_photo
                   (rows_of (legacy_sent_files legacy))
              then Raise TypeError else Ok tt
          end
      end
  end.

(** [sqlite3.connect] returned for the path. *)
Definition connects (p : path_state) : Prop :=
  match p with
  | NotADatabase | Database _ => True
  | NoSuchPath | CannotOpen => False
  end.

(** The store behind a database handle: the schema with empty tables when
    it has not been created yet. *)
Definition store_of (db : option Store) : Store :=
  match db with
  | Some st => st
  | None => empty_store
  end.

(** The row and the session object of a session that was never configured. *)
Definition default_session_row (sn : string) : SessionRow.t :=
  SessionRow.mk sn (Some 0%Z) None None (Some []) None.

Definition default_session (sn : string) : SQLAlchemySession :=
  mkSession sn true 0%Z None None None None.

(** The columns that the lookup by username selects. *)
Definition proj3 (r : Entity.t) : Z * Z * option Z :=
  (Entity.id r, Entity.hash r, Entity.date r).

(** The primary key of the legacy table [update_state]. *)
Definition legacy_cursor_id (x : Z * Z * Z * option Z * Z) : Z :=
  let '(eid, _, _, _, _) := x in eid.

(** The reference of kind [cls] with the given fields. *)
Definition reference (cls : _SentFileType) (id access_hash : Z)
  (file_reference : bytes) : instance :=
  match cls with
  | DOCUMENT => InputDocument id access_hash file_reference
  | PHOTO => InputPhoto id access_hash file_reference
  end.

(** ** Sample data

    Concrete sessions, batches and stores on which the statements below are
    evaluated. *)

Definition sess_a : SQLAlchemySession :=
  mkSession "a" true 0%Z None None None None.

Definition sess_b : SQLAlchemySession :=
  mkSession "b" true 0%Z None None None None.

Definition bob_row : Entity.t :=
  Entity.mk "a" 2%Z 7%Z (Some "bob") (Some "4201") (Some "Bob") (Some 2000%Z).

Definition store_bob : Store := mkStore [] [] [bob_row] [] [].

Definition bob_older_row : Entity.t :=
  Entity.mk "a" 5%Z 8%Z (Some "bob") (Some "4202") (Some "Bobby") (Some 1500%Z).

Definition store_collision : Store :=
  mkStore [] [] [bob_row; bob_older_row] [] [].

(** The cursor of the specification's example, with a date after the
    epoch, and the same cursor dated at the epoch. *)
Definition cursor_sample : State.t :=
  State.mk 100%Z 50%Z (Some (fromtimestamp 1700000000%Z)) 7%Z 0%Z.

Definition cursor_epoch : State.t :=
  State.mk 100%Z 50%Z (Some (fromtimestamp 0%Z)) 7%Z 0%Z.

(** A legacy file with the [entities], [update_state] and [sent_files]
    tables but without [sessions], a complete one, and one whose
    [sent_files] has no document and no photo. *)
Definition legacy_no_sessions : LegacyDb :=
  mkLegacy None
    (Some [(1%Z, 5%Z, Some "Bob", None, None, Some 900%Z)])
    (Some [(0%Z, 100%Z, 50%Z, Some 1700000000%Z, 7%Z)])
    (Some []).

Definition legacy_complete : LegacyDb :=
  mkLegacy
    (Some [(Some 2%Z, Some "149.154.167.51", Some 443%Z, Some [x01; x02], None)])
    (Some [(1%Z, 5%Z, Some "Bob", None, None, Some 900%Z);
           (2%Z, 6%Z, Some "bob", None, None, None)])
    (Some [(0%Z, 100%Z, 50%Z, Some 1700000000%Z, 7%Z)])
    (Some [([x0a], 3%Z, 0%Z, 11%Z, 12%Z); ([x0b], 4%Z, 9%Z, 13%Z, 14%Z)]).

Definition legacy_no_files : LegacyDb :=
  mkLegacy
    (Some [(Some 2%Z, Some "149.154.167.51", Some 443%Z, Some [x01; x02], None)])
    (Some [(1%Z, 5%Z, Some "Bob", None, None, Some 900%Z);
           (2%Z, 6%Z, Some "bob", None, None, None)])
    (Some [(0%Z, 100%Z, 50%Z, Some 1700000000%Z, 7%Z)])
    (Some [([x0b], 4%Z, 9%Z, 13%Z, 14%Z)]).

(** A file system with three legacy files, a directory and a text file, on
    a platform in UTC whose [localtime] takes years of 32 bits. *)
Definition env_sample : Env :=
  mkEnv (fun p =>
           if String.eqb p "/data/x.session" then Database legacy_no_sessions
           else if String.eqb p "/data/y.session" then Database legacy_complete
           else if String.eqb p "/data/z.session" then Database legacy_no_files
           else if String.eqb p "/data/dir.session" then CannotOpen
           else if String.eqb p "/data/notes.session" then NotADatabase
           else NoSuchPath)
    1000%Z true
    (fun d =>
       if Z.ltb d (-67768040609740800) || Z.ltb 67768036191676799 d
       then Some OSError
       else if Z.ltb d (-62135510400) || Z.ltb 253402300799 d
       then Some ValueError
       else None).

(** Entities of a batch: two users, one of them with a username in mixed
    case, one without a username, and one without an input peer. *)
Definition user_bob : tl_entity :=
  mkTL (Some (1%Z, 5%Z)) (Some "Bob") (Some "4201") "Bob".

Definition user_carol : tl_entity :=
  mkTL (Some (3%Z, 9%Z)) (Some "carol") None "Carol".

Definition user_nameless : tl_entity :=
  mkTL (Some (4%Z, 6%Z)) (Some "") None "".

Definition user_min : tl_entity :=
  mkTL None (Some "dave") None "Dave".

Definition sample_calls : list call :=
  [(sess_a, 1000%Z, [user_bob; user_carol; user_nameless; user_min]);
   (sess_b, 1001%Z, [user_bob]);
   (sess_a, 1002%Z, [mkTL (Some (3%Z, 9%Z)) (Some "BOB") None "Carol"])].

(** A store shared by the sessions [a] and [b]. *)
Definition store_shared : Store :=
  mkStore [Version.mk 1%Z]
    [SessionRow.mk "a" (Some 2%Z) (Some "10.0.0.1") (Some 443%Z)
       (Some [x01]) None;
     SessionRow.mk "b" (Some 4%Z) None None (Some []) (Some 9%Z)]
    [bob_row; bob_older_row;
     Entity.mk "b" 2%Z 70%Z (Some "bob") None (Some "Bob B") (Some 10%Z)]
    [SentFile.mk "a" [x0a] 3%Z 0%Z 11%Z 12%Z;
     SentFile.mk "b" [x0a] 3%Z 0%Z 21%Z 22%Z]
    [UpdateState.mk "a" 0%Z 1%Z 2%Z (Some 3%Z) 4%Z;
     UpdateState.mk "b" 0%Z 5%Z 6%Z None 8%Z].

(** The destination after the legacy file [z.session] was migrated into an
    empty database. *)
Definition store_after_z : Store :=
  Eval vm_compute in
    store_of
      (snd (migrate_sqlite_to_sqlalchemy env_sample "/data/z.session" None None)).

(** ** Tables: merge, first, delete *)

Section Tables.
Context {A : Type}.
Variable same_key : A -> bool.

Lemma In_merge (obj r : A) (tbl : list A) :
  In r (merge same_key obj tbl) -> r = obj \/ In r tbl.
Proof.
  induction tbl as [|x tbl IH]; simpl.
  - intros [H|[]]; auto.
  - destruct (same_key x); simpl; intros [H|H]; auto.
    destruct (IH H); auto.
Qed.

Lemma merge_In_obj (obj : A) (tbl : list A) :
  In obj (merge same_key obj tbl).
Proof.
  induction tbl as [|x tbl IH]; simpl; auto.
  destruct (same_key x); simpl; auto.
Qed.

Lemma first_merge (obj : A) (tbl : list A) :
  same_key obj = true -> first same_key (merge same_key obj tbl) = Some obj.
Proof.
  intros Hk. unfold first.
  induction tbl as [|x tbl IH]; simpl.
  - now rewrite Hk.
  - destruct (same_key x) eqn:Hx; simpl.
    + now rewrite Hk.
    + now rewrite Hx.
Qed.

Lemma first_merge_other (p : A -> bool) (obj : A) (tbl : list A) :
  p obj = false ->
  (forall x, same_key x = true -> p x = false) ->
  first p (merge same_key obj tbl) = first p tbl.
Proof.
  intros Hobj Hdisj. unfold first.
  induction tbl as [|x tbl IH]; simpl.
  - now rewrite Hobj.
  - destruct (same_key x) eqn:Hx; simpl.
    + rewrite Hobj, (Hdisj x Hx). reflexivity.
    + destruct (p x); auto.
Qed.

Lemma filter_merge_other (p : A -> bool) (obj : A) (tbl : list A) :
  p obj = false ->
  (forall x, same_key x = true -> p x = false) ->
  filter p (merge same_key obj tbl) = filter p tbl.
Proof.
  intros Hobj Hdisj.
  induction tbl as [|x tbl IH]; simpl.
  - now rewrite Hobj.
  - destruct (same_key x) eqn:Hx; simpl.
    + rewrite Hobj, (Hdisj x Hx). reflexivity.
    + destruct (p x); congruence.
Qed.
End Tables.

Lemma NoDup_snoc {K : Type} (l : list K) (k : K) :
  NoDup l -> ~ In k l -> NoDup (l ++ [k]).
Proof.
  induction l as [|a l IH]; simpl; intros Hnd Hk.
  - constructor; [intros []|constructor].
  - inversion Hnd as [|? ? Ha Hl]; subst. constructor.
    + intros Hin. apply in_app_or in Hin. destruct Hin as [Hin|[->|[]]]; tauto.
    + apply IH; tauto.
Qed.

Lemma NoDup_map_filter {A K : Type} (key : A -> K) (p : A -> bool)
  (l : list A) :
  NoDup (map key l) -> NoDup (map key (filter p l)).
Proof.
  induction l as [|a l IH]; simpl; intros Hnd; [constructor|].
  inversion Hnd as [|? ? Ha Hl]; subst.
  destruct (p a); simpl; auto. constructor; auto.
  intros Hin. apply Ha. apply in_map_iff in Hin.
  destruct Hin as [x [Hx Hin]]. apply filter_In in Hin.
  rewrite <- Hx. apply in_map. tauto.
Qed.

Section MergeKeys.
Context {A K : Type}.
Variable key : A -> K.
Variable same_key : A -> bool.
Variable obj : A.
Hypothesis same_key_spec : forall x, same_key x = true <-> key x = key obj.

(** A merge keeps the keys of the table, in their order, and appends the key
    of the merged object when it is new. *)
Lemma merge_keys (tbl : list A) :
  map key (merge same_key obj tbl)
  = if existsb same_key tbl then map key tbl else map key tbl ++ [key obj].
Proof.
  induction tbl as [|x tbl IH]; simpl; auto.
  destruct (same_key x) eqn:Hx; simpl.
  - apply same_key_spec in Hx. now rewrite Hx.
  - rewrite IH. now destruct (existsb same_key tbl).
Qed.

Lemma merge_NoDup (tbl : list A) :
  NoDup (map key tbl) -> NoDup (map key (merge same_key obj tbl)).
Proof.
  intros Hnd. rewrite merge_keys.
  destruct (existsb same_key tbl) eqn:He; auto.
  apply NoDup_snoc; auto.
  intros Hin. apply in_map_iff in Hin. destruct Hin as [x [Hx Hin]].
  assert (existsb same_key tbl = true).
  { apply existsb_exists. exists x. split; auto. now apply same_key_spec. }
  congruence.
Qed.

Lemma In_merge_other (r : A) (tbl : list A) :
  In r tbl -> same_key r = false -> In r (merge same_key obj tbl).
Proof.
  induction tbl as [|x tbl IH]; simpl; [tauto|].
  intros [->|Hin] Hr.
  - rewrite Hr. now left.
  - destruct (same_key x); simpl; auto.
Qed.
End MergeKeys.

Lemma delete_where_none {A : Type} (p : A -> bool) (tbl : list A) (r : A) :
  In r (delete_where p tbl) -> p r = false.
Proof.
  unfold delete_where. rewrite filter_In. intros [_ H].
  now apply negb_true_iff in H.
Qed.

Lemma filter_delete_where {A : Type} (p q : A -> bool) (tbl : list A) :
  (forall r, q r = true -> p r = false) ->
  filter q (delete_where p tbl) = filter q tbl.
Proof.
  intros Hpq. unfold delete_where.
  induction tbl as [|x tbl IH]; simpl; auto.
  destruct (p x) eqn:Hp; simpl.
  - destruct (q x) eqn:Hq; auto.
    rewrite (Hpq x Hq) in Hp. discriminate.
  - destruct (q x); simpl; congruence.
Qed.

(** ** Entities: keys *)

Lemma entity_key_eqb_true (sn : string) (i : Z) (r : Entity.t) :
  entity_key_eqb sn i r = true <-> entity_key r = (sn, i).
Proof.
  unfold entity_key_eqb, entity_key.
  rewrite andb_true_iff, String.eqb_eq, Z.eqb_eq.
  split; [intros [-> ->]; reflexivity | intros H; inversion H; auto].
Qed.

Lemma pk_inj (tbl : list Entity.t) (r1 r2 : Entity.t) :
  pk_entities tbl -> In r1 tbl -> In r2 tbl ->
  entity_key r1 = entity_key r2 -> r1 = r2.
Proof.
  unfold pk_entities.
  induction tbl as [|x tbl IH]; simpl; [intros _ []|].
  intros Hnd H1 H2 Hk. inversion Hnd as [|? ? Hnotin Hnd']; subst.
  destruct H1 as [<-|H1], H2 as [<-|H2]; auto.
  - exfalso. apply Hnotin. rewrite Hk. now apply in_map.
  - exfalso. apply Hnotin. rewrite <- Hk. now apply in_map.
Qed.

Lemma pk_merge_entity (e : Entity.t) (tbl : list Entity.t) :
  pk_entities tbl -> pk_entities (merge_entity e tbl).
Proof.
  unfold pk_entities, merge_entity.
  induction tbl as [|x tbl IH]; simpl; intros Hnd.
  - constructor; [intros []|constructor].
  - inversion Hnd as [|? ? Hnotin Hnd']; subst.
    destruct (entity_key_eqb _ _ x) eqn:Hx; simpl.
    + apply entity_key_eqb_true in Hx.
      change (Entity.session_name e, Entity.id e) with (entity_key e) in Hx.
      rewrite <- Hx. now constructor.
    + constructor; [|now apply IH].
      intros Hin. apply in_map_iff in Hin. destruct Hin as [y [Hy Hin]].
      apply In_merge in Hin. destruct Hin as [->|Hin].
      * assert (entity_key_eqb (Entity.session_name e) (Entity.id e) x = true)
          by (apply entity_key_eqb_true; now rewrite <- Hy).
        congruence.
      * apply Hnotin. rewrite <- Hy. now apply in_map.
Qed.

Lemma key_null_usernames (sn : string) (ids : list Z) (tbl : list Entity.t) :
  map entity_key (null_usernames sn ids tbl) = map entity_key tbl.
Proof.
  unfold null_usernames. rewrite map_map. apply map_ext.
  intros r. now destruct (_ && _).
Qed.

Lemma pk_count_one (sn : string) (i : Z) (tbl : list Entity.t) (r : Entity.t) :
  pk_entities tbl -> In r tbl -> entity_key r = (sn, i) ->
  filter (entity_key_eqb sn i) tbl = [r].
Proof.
  unfold pk_entities.
  induction tbl as [|x tbl IH]; simpl; [intros _ []|].
  intros Hnd Hin Hk. inversion Hnd as [|? ? Hnotin Hnd']; subst.
  assert (Hnone : forall l, ~ In (sn, i) (map entity_key l) ->
                            filter (entity_key_eqb sn i) l = []).
  { clear. induction l as [|y l IHl]; simpl; auto.
    intros Hn. destruct (entity_key_eqb sn i y) eqn:Hy.
    - apply entity_key_eqb_true in Hy. tauto.
    - apply IHl. tauto. }
  destruct Hin as [->|Hin].
  - rewrite (proj2 (entity_key_eqb_true sn i r) Hk).
    rewrite Hnone; [reflexivity | now rewrite <- Hk].
  - destruct (entity_key_eqb sn i x) eqn:Hx.
    + apply entity_key_eqb_true in Hx. exfalso. apply Hnotin.
      rewrite Hx, <- Hk. now apply in_map.
    + now apply IH.
Qed.

(** ** The duplicate resolution pass *)

Lemma insert_by_date_perm (x : Z * option Z) (l : list (Z * option Z)) :
  Permutation (insert_by_date x l) (x :: l).
Proof.
  induction l as [|y l IH]; simpl; auto.
  destruct (date_le (snd x) (snd y)); auto.
  rewrite IH. apply perm_swap.
Qed.

Lemma order_by_date_perm (l : list (Z * option Z)) :
  Permutation (order_by_date l) l.
Proof.
  induction l as [|x l IH]; simpl; auto.
  rewrite insert_by_date_perm. now constructor.
Qed.

Lemma date_le_total (a b : option Z) : date_le a b = false -> date_le b a = true.
Proof.
  destruct a as [x|], b as [y|]; simpl; try discriminate; auto.
  rewrite Z.leb_gt, Z.leb_le. lia.
Qed.

Lemma insert_by_date_sorted (x : Z * option Z) (l : list (Z * option Z)) :
  LocallySorted (fun a b => date_le (snd a) (snd b) = true) l ->
  LocallySorted (fun a b => date_le (snd a) (snd b) = true)
    (insert_by_date x l).
Proof.
  induction 1 as [|y|y z l Hs IH Hyz]; simpl.
  - constructor.
  - destruct (date_le (snd x) (snd y)) eqn:Hxy; repeat constructor; auto.
    now apply date_le_total.
  - destruct (date_le (snd x) (snd y)) eqn:Hxy.
    + repeat constructor; auto.
    + simpl in IH. destruct (date_le (snd x) (snd z)) eqn:Hxz.
      * constructor; auto. now apply date_le_total.
      * constructor; auto.
Qed.

(** The rows come out by ascending date, rows without a date first. *)
Lemma order_by_date_sorted (l : list (Z * option Z)) :
  LocallySorted (fun a b => date_le (snd a) (snd b) = true) (order_by_date l).
Proof.
  induction l as [|x l IH]; simpl; [constructor|].
  now apply insert_by_date_sorted.
Qed.

Lemma holds_username_true (sn u : string) (r : Entity.t) :
  holds_username sn u r = true <->
  Entity.session_name r = sn /\ Entity.username r = Some u.
Proof.
  unfold holds_username, opt_string_eqb.
  rewrite andb_true_iff, String.eqb_eq.
  destruct (Entity.username r) as [v|].
  - rewrite String.eqb_eq. split; intros [H1 H2]; split; congruence.
  - split; intros [H1 H2]; discriminate.
Qed.

Lemma In_select_dups (sn u : string) (tbl : list Entity.t) (r : Entity.t) :
  In r tbl -> holds_username sn u r = true ->
  In (Entity.id r, Entity.date r) (select_dups sn u tbl).
Proof.
  intros Hin Hh. unfold select_dups.
  apply (Permutation_in _ (Permutation_sym (order_by_date_perm _))).
  apply (in_map (fun r => (Entity.id r, Entity.date r))).
  apply filter_In. auto.
Qed.

Lemma select_dups_In (sn u : string) (tbl : list Entity.t) (x : Z * option Z) :
  In x (select_dups sn u tbl) ->
  exists r, In r tbl /\ holds_username sn u r = true /\ Entity.id r = fst x.
Proof.
  unfold select_dups. intros Hin.
  apply (Permutation_in _ (order_by_date_perm _)) in Hin.
  apply in_map_iff in Hin. destruct Hin as [r [<- Hr]].
  apply filter_In in Hr. exists r. tauto.
Qed.

Lemma existsb_Zeqb (i : Z) (ids : list Z) :
  existsb (Z.eqb i) ids = true <-> In i ids.
Proof.
  rewrite existsb_exists. split.
  - intros [y [Hy He]]. apply Z.eqb_eq in He. now subst.
  - intros H. exists i. split; auto. apply Z.eqb_refl.
Qed.

Lemma null_usernames_rows (sn u : string) (ids : list Z) (tbl : list Entity.t) :
  Forall2 (evicted sn u) tbl (null_usernames sn ids tbl).
Proof.
  unfold null_usernames.
  induction tbl as [|r tbl IH]; simpl; constructor; auto.
  destruct (String.eqb (Entity.session_name r) sn) eqn:Hs; simpl;
    [|constructor].
  destruct (existsb _ ids); constructor. now apply String.eqb_eq.
Qed.

Lemma Forall2_kept (sn u : string) (tbl : list Entity.t) :
  Forall2 (evicted sn u) tbl tbl.
Proof. induction tbl; constructor; auto using kept. Qed.

Lemma evict_rows (sn u : string) (tbl : list Entity.t) :
  Forall2 (evicted sn u) tbl (evict_older_duplicates sn u tbl).
Proof.
  unfold evict_older_duplicates.
  destruct (Nat.ltb 1 _); [|apply Forall2_kept].
  destruct (map fst _); [apply Forall2_kept|apply null_usernames_rows].
Qed.

Lemma key_evict (sn u : string) (tbl : list Entity.t) :
  map entity_key (evict_older_duplicates sn u tbl) = map entity_key tbl.
Proof.
  unfold evict_older_duplicates.
  destruct (Nat.ltb 1 _); auto.
  destruct (map fst _); auto using key_null_usernames.
Qed.

Lemma Forall2_In_r {A B : Type} (R : A -> B -> Prop) (l : list A) (l' : list B)
  (y : B) :
  Forall2 R l l' -> In y l' -> exists x, In x l /\ R x y.
Proof.
  induction 1 as [|a b l l' Hab _ IH]; simpl; [intros []|].
  intros [<-|Hin]; [exists a; auto|].
  destruct (IH Hin) as [x [Hx Hr]]. exists x. auto.
Qed.

Lemma Forall2_In_l {A B : Type} (R : A -> B -> Prop) (l : list A) (l' : list B)
  (x : A) :
  Forall2 R l l' -> In x l -> exists y, In y l' /\ R x y.
Proof.
  induction 1 as [|a b l l' Hab _ IH]; simpl; [intros []|].
  intros [<-|Hin]; [exists b; auto|].
  destruct (IH Hin) as [y [Hy Hr]]. exists y. auto.
Qed.

(** A row that still has a username after the pass was left alone. *)
Lemma evict_In_username (sn u v : string) (tbl : list Entity.t) (r : Entity.t) :
  In r (evict_older_duplicates sn u tbl) -> Entity.username r = Some v ->
  In r tbl.
Proof.
  intros Hin Hu.
  destruct (Forall2_In_r _ _ _ _ (evict_rows sn u tbl) Hin) as [x [Hx He]].
  destruct He; auto. discriminate.
Qed.

(** After the pass at most one row of the session holds the username. *)
Lemma evict_unique (sn u : string) (tbl : list Entity.t) (r1 r2 : Entity.t) :
  In r1 (evict_older_duplicates sn u tbl) ->
  In r2 (evict_older_duplicates sn u tbl) ->
  holds_username sn u r1 = true -> holds_username sn u r2 = true ->
  Entity.id r1 = Entity.id r2.
Proof.
  intros H1 H2 Hh1 Hh2.
  assert (Hu1 := proj2 (proj1 (holds_username_true _ _ _) Hh1)).
  assert (Hu2 := proj2 (proj1 (holds_username_true _ _ _) Hh2)).
  assert (Ht1 := evict_In_username _ _ _ _ _ H1 Hu1).
  assert (Ht2 := evict_In_username _ _ _ _ _ H2 Hu2).
  assert (Hd1 := In_select_dups _ _ _ _ Ht1 Hh1).
  assert (Hd2 := In_select_dups _ _ _ _ Ht2 Hh2).
  revert H1 H2. unfold evict_older_duplicates.
  destruct (select_dups sn u tbl) as [|d0 dups] eqn:Hd; [destruct Hd1|].
  destruct (Nat.ltb 1 (List.length (d0 :: dups))) eqn:Hlen.
  - assert (Hne : d0 :: dups <> []) by discriminate.
    destruct (exists_last Hne) as [front [lst Hsplit]].
    rewrite Hsplit in *. rewrite removelast_last.
    destruct (map fst front) as [|i0 ids] eqn:Hids.
    + destruct front; [|discriminate]. simpl in Hlen. discriminate.
    + rewrite <- Hids. clear Hids i0 ids. intros H1 H2.
      assert (Hkeep : forall r, In r (null_usernames sn (map fst front) tbl) ->
                holds_username sn u r = true ->
                In (Entity.id r, Entity.date r) (front ++ [lst]) ->
                Entity.id r = fst lst).
      { intros r Hin Hh Hd'. unfold null_usernames in Hin.
        apply in_map_iff in Hin. destruct Hin as [x [Hx Hin]].
        apply in_app_or in Hd'. destruct Hd' as [Hf|[Hl|[]]]; [|now rewrite Hl].
        exfalso.
        destruct (String.eqb (Entity.session_name x) sn
                  && existsb (Z.eqb (Entity.id x)) (map fst front)) eqn:Hc.
        - subst r. apply holds_username_true in Hh. destruct Hh; discriminate.
        - subst x. apply holds_username_true in Hh. destruct Hh as [Hs _].
          rewrite (proj2 (String.eqb_eq _ _) Hs) in Hc. simpl in Hc.
          assert (existsb (Z.eqb (Entity.id r)) (map fst front) = true).
          { apply existsb_Zeqb.
            change (Entity.id r) with (fst (Entity.id r, Entity.date r)).
            now apply in_map. }
          congruence. }
      rewrite (Hkeep r1 H1 Hh1 Hd1), (Hkeep r2 H2 Hh2 Hd2). reflexivity.
  - intros _ _. destruct dups; [|simpl in Hlen; discriminate].
    destruct Hd1 as [Hd1|[]], Hd2 as [Hd2|[]].
    congruence.
Qed.

(** ** One iteration of [process_entities] *)

Lemma pk_evict (sn u : string) (tbl : list Entity.t) :
  pk_entities tbl -> pk_entities (evict_older_duplicates sn u tbl).
Proof. unfold pk_entities. now rewrite key_evict. Qed.

Lemma pk_process_row (sn : string) (now_ts : Z) (tbl : list Entity.t) (x : row) :
  pk_entities tbl -> pk_entities (process_row sn now_ts tbl x).
Proof.
  destruct x as [[[[i h] u] p] n]. unfold process_row. intros Hpk.
  destruct u as [u|]; [destruct (truthy (Some u))|];
    auto using pk_evict, pk_merge_entity.
Qed.

(** A username found after an iteration was there before, or is the one the
    iteration wrote, letter for letter. *)
Lemma process_row_username (sn : string) (now_ts : Z) (tbl : list Entity.t)
  (x : row) (r : Entity.t) (v : string) :
  In r (process_row sn now_ts tbl x) -> Entity.username r = Some v ->
  In r tbl \/
  (exists h p n, x = (Entity.id r, h, Some v, p, n) /\ Entity.session_name r = sn).
Proof.
  destruct x as [[[[i h] u] p] n]. unfold process_row. intros Hin Hv.
  assert (Hm : In r (merge_entity (Entity.mk sn i h u p n (Some now_ts)) tbl)).
  { destruct u as [u|]; auto. destruct (truthy (Some u)); auto.
    eapply evict_In_username; eauto. }
  apply In_merge in Hm. destruct Hm as [->|Hm]; auto.
  right. simpl in *. subst u. eauto.
Qed.


Lemma truthy_Some (u : string) : truthy (Some u) = true <-> u <> "".
Proof.
  unfold truthy. rewrite negb_true_iff. apply String.eqb_neq.
Qed.

Lemma uniq_process_row (sn : string) (now_ts : Z) (tbl : list Entity.t)
  (x : row) :
  username_unique tbl -> username_unique (process_row sn now_ts tbl x).
Proof.
  intros Huniq r1 r2 v H1 H2 Hs Hv1 Hv2 Hne.
  destruct (process_row_username _ _ _ _ _ _ H1 Hv1) as [Ho1|Hn1];
    destruct (process_row_username _ _ _ _ _ _ H2 Hv2) as [Ho2|Hn2].
  - eapply Huniq; eauto.
  - destruct Hn2 as [h [p [n [-> Hsn]]]].
    unfold process_row in H1, H2.
    rewrite (proj2 (truthy_Some v) Hne) in H1, H2.
    apply (evict_unique sn v _ r1 r2 H1 H2);
      apply holds_username_true; split; congruence.
  - destruct Hn1 as [h [p [n [-> Hsn]]]].
    unfold process_row in H1, H2.
    rewrite (proj2 (truthy_Some v) Hne) in H1, H2.
    apply (evict_unique sn v _ r1 r2 H1 H2);
      apply holds_username_true; split; congruence.
  - destruct Hn1 as [h [p [n [-> _]]]]. destruct Hn2 as [h' [p' [n' [He _]]]].
    congruence.
Qed.

Lemma fold_process_row_inv (P : list Entity.t -> Prop) (sn : string)
  (now_ts : Z) (rows : list row) :
  (forall tbl x, P tbl -> P (process_row sn now_ts tbl x)) ->
  forall tbl, P tbl -> P (fold_left (process_row sn now_ts) rows tbl).
Proof.
  intros Hstep. induction rows as [|x rows IH]; simpl; auto.
Qed.

Lemma process_entities_inv (P : list Entity.t -> Prop) (self : SQLAlchemySession)
  (now_ts : Z) (rows : list row) (st : Store) :
  (forall sn tbl x, P tbl -> P (process_row sn now_ts tbl x)) ->
  P (entities st) -> P (entities (process_entities self now_ts rows st)).
Proof.
  intros Hstep HP. unfold process_entities.
  destruct (negb (save_entities self)); auto.
  destruct rows as [|x rows]; auto.
  simpl entities. apply fold_process_row_inv; auto.
Qed.

Lemma uniq_exactly_one (tbl : list Entity.t) (r : Entity.t) (u : string) :
  pk_entities tbl -> username_unique tbl ->
  In r tbl -> Entity.username r = Some u -> u <> "" ->
  holders (Entity.session_name r) u tbl = [r].
Proof.
  intros Hpk Huniq Hin Hu Hne. unfold holders.
  rewrite <- (pk_count_one (Entity.session_name r) (Entity.id r) tbl r Hpk Hin
                eq_refl).
  apply filter_ext_in. intros x Hx.
  destruct (holds_username _ u x) eqn:Hh.
  - apply holds_username_true in Hh. destruct Hh as [Hs Hxu].
    symmetry. apply entity_key_eqb_true. unfold entity_key.
    rewrite Hs. f_equal. eapply Huniq; eauto.
  - destruct (entity_key_eqb _ _ x) eqn:Hk; auto.
    apply entity_key_eqb_true in Hk.
    assert (x = r) by (eapply pk_inj; eauto). subst x.
    rewrite (proj2 (holds_username_true _ _ _) (conj eq_refl Hu)) in Hh.
    discriminate.
Qed.

(** ** Rows of a batch *)

Lemma In_entities_to_rows (tlo : list tl_entity) (x : row) :
  In x (_entities_to_rows tlo) <->
  exists e, In e tlo /\ _entity_to_row e = Some x.
Proof.
  induction tlo as [|e tlo IH]; simpl.
  - split; [intros []|intros [e [[] _]]].
  - destruct (_entity_to_row e) as [y|] eqn:Hy; simpl; rewrite IH; split.
    + intros [->|[e' [Hin He']]]; [exists e; auto|exists e'; auto].
    + intros [e' [[<-|Hin] He']]; [left; congruence|right; eauto].
    + intros [e' [Hin He']]. eauto.
    + intros [e' [[<-|Hin] He']]; [congruence|eauto].
Qed.


Lemma lower_ascii_idem (c : ascii) : lower_ascii (lower_ascii c) = lower_ascii c.
Proof.
  destruct c as [[] [] [] [] [] [] [] []]; reflexivity.
Qed.

Lemma lower_idem (s : string) : lower (lower s) = lower s.
Proof.
  induction s as [|c s IH]; simpl; [reflexivity|].
  now rewrite lower_ascii_idem, IH.
Qed.

Lemma lower_nonempty (s : string) : s <> "" -> lower s <> "".
Proof. destruct s; simpl; [tauto|discriminate]. Qed.

(** What [_entity_to_row] makes of an entity: the id and hash of the input
    peer, no username for an absent or empty one and the lowercase form
    otherwise, the phone as it is, and no name for an empty display name. *)
Lemma entity_to_row_fields (e : tl_entity) (x : row) :
  _entity_to_row e = Some x ->
  exists i h,
    input_peer e = Some (i, h) /\
    x = (i, h,
         match tl_username e with
         | Some raw => if String.eqb raw "" then None else Some (lower raw)
         | None => None
         end,
         tl_phone e,
         if String.eqb (display_name e) "" then None
         else Some (display_name e)).
Proof.
  unfold _entity_to_row. destruct (input_peer e) as [[i h]|]; [|discriminate].
  intros H. inversion H; subst x. exists i, h. split; auto.
  destruct (tl_username e) as [raw|]; auto.
  unfold truthy. now destruct (String.eqb raw "").
Qed.

Lemma entity_to_row_username (e : tl_entity) (x : row) (u : string) :
  _entity_to_row e = Some x -> row_username x = Some u ->
  exists raw,
    tl_username e = Some raw /\ raw <> "" /\ u = lower raw /\ u <> "".
Proof.
  intros Hx Hu. destruct (entity_to_row_fields e x Hx) as [i [h [_ ->]]].
  simpl in Hu. destruct (tl_username e) as [raw|]; [|discriminate].
  destruct (String.eqb raw "") eqn:E; [discriminate|].
  apply String.eqb_neq in E. inversion Hu; subst u.
  exists raw. auto using lower_nonempty.
Qed.

Lemma entities_to_rows_username (tlo : list tl_entity) :
  Forall (fun x => row_username x <> Some "") (_entities_to_rows tlo).
Proof.
  apply Forall_forall. intros x Hx Hu.
  apply In_entities_to_rows in Hx. destruct Hx as [e [_ He]].
  destruct (entity_to_row_username e x "" He Hu) as [raw [_ [_ [_ Hne]]]].
  now elim Hne.
Qed.

(** ** Uniqueness of usernames *)

Lemma exclusive_unique (tbl : list Entity.t) :
  username_exclusive tbl -> username_unique tbl.
Proof. intros H r1 r2 u H1 H2 Hs Hu1 Hu2 _. eapply H; eauto. Qed.

Lemma exclusive_process_row (sn : string) (now_ts : Z) (tbl : list Entity.t)
  (x : row) :
  row_username x <> Some "" ->
  username_exclusive tbl -> username_exclusive (process_row sn now_ts tbl x).
Proof.
  intros Hx Hex r1 r2 u H1 H2 Hs Hu1 Hu2.
  destruct (string_dec u "") as [->|Hne].
  - destruct (process_row_username _ _ _ _ _ _ H1 Hu1)
      as [Ho1|[h [p [n [Hxe _]]]]]; [|subst x; now elim Hx].
    destruct (process_row_username _ _ _ _ _ _ H2 Hu2)
      as [Ho2|[h [p [n [Hxe _]]]]]; [|subst x; now elim Hx].
    eapply Hex; eauto.
  - apply (uniq_process_row sn now_ts tbl x (exclusive_unique tbl Hex)
             r1 r2 u); auto.
Qed.

Lemma exclusive_fold_process_row (sn : string) (now_ts : Z) (rows : list row) :
  Forall (fun x => row_username x <> Some "") rows ->
  forall tbl,
    username_exclusive tbl ->
    username_exclusive (fold_left (process_row sn now_ts) rows tbl).
Proof.
  induction 1 as [|x rows Hx _ IH]; intros tbl Hex; simpl; auto.
  apply IH. now apply exclusive_process_row.
Qed.

Lemma exclusive_run_call (st : Store) (c : call) :
  username_exclusive (entities st) ->
  username_exclusive (entities (run_call st c)).
Proof.
  destruct c as [[self now_ts] tlo]. unfold run_call, process_entities.
  intros Hex. destruct (negb (save_entities self)); auto.
  destruct (_entities_to_rows tlo) as [|x rows] eqn:E; auto.
  cbn [set_entities entities]. rewrite <- E.
  apply exclusive_fold_process_row; auto. apply entities_to_rows_username.
Qed.

Lemma exclusive_exactly_one (tbl : list Entity.t) (r : Entity.t) (u : string) :
  pk_entities tbl -> username_exclusive tbl ->
  In r tbl -> Entity.username r = Some u ->
  holders (Entity.session_name r) u tbl = [r].
Proof.
  intros Hpk Hex Hin Hu. unfold holders.
  rewrite <- (pk_count_one (Entity.session_name r) (Entity.id r) tbl r Hpk Hin
                eq_refl).
  apply filter_ext_in. intros x Hx.
  destruct (holds_username _ u x) eqn:Hh.
  - apply holds_username_true in Hh. destruct Hh as [Hs Hxu].
    symmetry. apply entity_key_eqb_true. unfold entity_key.
    rewrite Hs. f_equal. eapply Hex; eauto.
  - destruct (entity_key_eqb _ _ x) eqn:Hk; auto.
    apply entity_key_eqb_true in Hk.
    assert (x = r) by (eapply pk_inj; eauto). subst x.
    rewrite (proj2 (holds_username_true _ _ _) (conj eq_refl Hu)) in Hh.
    discriminate.
Qed.

(** C1: starting from a store in which the primary key holds and no
    username is shared within a session (the empty store is one), after
    each call of any sequence of [process_entities] calls, of any sessions,
    every non-null username that is stored is carried by exactly one row of
    its session. *)
Theorem process_entities_username_unique (calls : list call) (st : Store) :
  pk_entities (entities st) -> username_exclusive (entities st) ->
  Forall (fun st' =>
            forall r u,
              In r (entities st') -> Entity.username r = Some u ->
              holders (Entity.session_name r) u (entities st') = [r])
    (trace st calls).
Proof.
  revert st. induction calls as [|c calls IH];
    intros st Hpk Hex; simpl; constructor.
  - intros r u Hin Hu. apply exclusive_exactly_one; auto.
    + destruct c as [[self now_ts] tlo].
      apply (process_entities_inv pk_entities); auto.
      intros; now apply pk_process_row.
    + now apply exclusive_run_call.
  - apply IH.
    + destruct c as [[self now_ts] tlo].
      apply (process_entities_inv pk_entities); auto.
      intros; now apply pk_process_row.
    + now apply exclusive_run_call.
Qed.

Lemma process_entities_username_unique_witness :
  pk_entities (entities store_bob) /\
  username_exclusive (entities store_bob) /\
  Forall (fun st' =>
            forall r u,
              In r (entities st') -> Entity.username r = Some u ->
              holders (Entity.session_name r) u (entities st') = [r])
    (trace store_bob sample_calls).
Proof.
  assert (Hpk : pk_entities (entities store_bob)).
  { repeat constructor. simpl. tauto. }
  assert (Hu : username_exclusive (entities store_bob)).
  { intros r1 r2 u [<-|[]] [<-|[]]. reflexivity. }
  split; [exact Hpk|]. split; [exact Hu|].
  exact (process_entities_username_unique sample_calls store_bob Hpk Hu).
Defined.

(** ** Frame of the duplicate resolution pass *)

Lemma In_removelast {A : Type} (x : A) (l : list A) :
  In x (removelast l) -> In x l.
Proof.
  destruct l as [|a l]; [intros []|].
  assert (Hne : a :: l <> []) by discriminate.
  destruct (exists_last Hne) as [front [lst ->]].
  rewrite removelast_last. intros H. apply in_or_app. now left.
Qed.

Lemma Forall2_map_same {A : Type} (R : A -> A -> Prop) (f : A -> A)
  (l : list A) :
  (forall x, In x l -> R x (f x)) -> Forall2 R l (map f l).
Proof.
  induction l as [|a l IH]; simpl; constructor; auto.
Qed.

Lemma Forall2_refl_list {A : Type} (R : A -> A -> Prop) (l : list A) :
  (forall x, R x x) -> Forall2 R l l.
Proof. induction l; constructor; auto. Qed.

(** Only rows that carry the username in the session are cleared. *)
Lemma evict_only_holders (sn u : string) (tbl : list Entity.t) :
  pk_entities tbl ->
  Forall2 (fun r r' =>
             r' = r \/
             (r' = Entity.with_username None r /\ holds_username sn u r = true))
    tbl (evict_older_duplicates sn u tbl).
Proof.
  intros Hpk. unfold evict_older_duplicates.
  destruct (Nat.ltb 1 _); [|apply Forall2_refl_list; auto].
  destruct (map fst (removelast (select_dups sn u tbl))) as [|i0 ids] eqn:Hids;
    [apply Forall2_refl_list; auto|].
  rewrite <- Hids. clear Hids. unfold null_usernames.
  apply Forall2_map_same. intros x Hx.
  destruct (String.eqb (Entity.session_name x) sn) eqn:Hs; simpl; auto.
  destruct (existsb _ _) eqn:He; auto.
  right. split; auto.
  apply existsb_Zeqb, in_map_iff in He. destruct He as [d [Hd Hin]].
  apply In_removelast, select_dups_In in Hin.
  destruct Hin as [r0 [Hr0 [Hh Hid]]].
  assert (r0 = x).
  { apply (pk_inj tbl); auto. unfold entity_key.
    apply holds_username_true in Hh. destruct Hh as [Hsn _].
    apply String.eqb_eq in Hs. congruence. }
  now subst r0.
Qed.

Lemma first_Forall2 {A B : Type} (R : A -> A -> Prop) (p : A -> bool)
  (g : A -> B) (l l' : list A) :
  (forall r r', R r r' -> p r' = p r /\ g r' = g r) ->
  Forall2 R l l' ->
  option_map g (first p l') = option_map g (first p l).
Proof.
  intros HR. unfold first. induction 1 as [|r r' l l' Hr _ IH]; simpl; auto.
  destruct (HR _ _ Hr) as [Hp Hg]. rewrite Hp.
  destruct (p r); simpl; congruence.
Qed.

Lemma first_hd_filter {A : Type} (p : A -> bool) (l : list A) :
  first p l = hd_error (filter p l).
Proof.
  unfold first. induction l as [|x l IH]; simpl; auto.
  destruct (p x); auto.
Qed.

Lemma first_sole {A : Type} (p : A -> bool) (l : list A) (r : A) :
  In r l -> p r = true ->
  (forall r', In r' l -> p r' = true -> r' = r) ->
  first p l = Some r.
Proof.
  intros Hin Hp Hsole. unfold first.
  destruct (find p l) as [x|] eqn:Hf.
  - apply find_some in Hf. destruct Hf as [Hx Hpx].
    now rewrite (Hsole x Hx Hpx).
  - rewrite (find_none _ _ Hf r Hin) in Hp. discriminate.
Qed.

Lemma evicted_same (sn u : string) (r r' : Entity.t) :
  evicted sn u r r' -> same_but_username r r'.
Proof. destruct 1; repeat split. Qed.

(** C6: the duplicate resolution pass keeps every row in place with its
    session, peer id, hash, phone, name and date; a row it changes is a row
    that carried the username, and only its username becomes null.  Lookups
    by phone, by name and by exact id answer as before the pass; each row,
    evicted or not, is still found under its own id, and under its phone and
    its name when no other row of the session has the same. *)
Theorem evict_older_duplicates_frame (sn u : string) (st : Store) :
  pk_entities (entities st) ->
  let st' := set_entities st (evict_older_duplicates sn u (entities st)) in
  Forall2 (fun r r' =>
             same_but_username r r' /\
             (Entity.username r' = Entity.username r \/
              (Entity.username r' = None /\ holds_username sn u r = true)))
    (entities st) (entities st') /\
  (forall self phone,
      get_entity_rows_by_phone self phone st'
      = get_entity_rows_by_phone self phone st) /\
  (forall self name,
      get_entity_rows_by_name self name st'
      = get_entity_rows_by_name self name st) /\
  (forall self id,
      get_entity_rows_by_id self id st' = get_entity_rows_by_id self id st) /\
  (forall self r,
      In r (entities st) -> session_name self = Entity.session_name r ->
      get_entity_rows_by_id self (Entity.id r) st'
      = Some (Entity.id r, Entity.hash r)) /\
  (forall self r p,
      In r (entities st) -> session_name self = Entity.session_name r ->
      Entity.phone r = Some p ->
      (forall r',
          In r' (entities st) ->
          Entity.session_name r' = Entity.session_name r ->
          Entity.phone r' = Some p -> r' = r) ->
      get_entity_rows_by_phone self p st'
      = Some (Entity.id r, Entity.hash r)) /\
  (forall self r n,
      In r (entities st) -> session_name self = Entity.session_name r ->
      Entity.name r = Some n ->
      (forall r',
          In r' (entities st) ->
          Entity.session_name r' = Entity.session_name r ->
          Entity.name r' = Some n -> r' = r) ->
      get_entity_rows_by_name self n st'
      = Some (Entity.id r, Entity.hash r)).
Proof.
  intros Hpk st'.
  assert (Hrows := evict_rows sn u (entities st)).
  assert (Hid : forall self id,
             get_entity_rows_by_id self id st'
             = get_entity_rows_by_id self id st).
  { intros self id. unfold get_entity_rows_by_id. simpl.
    apply (first_Forall2 (evicted sn u)); auto.
    intros r r' He. apply evicted_same in He.
    unfold same_but_username, entity_key_eqb in *.
    destruct He as (-> & -> & -> & _). auto. }
  assert (Hphone : forall self phone,
             get_entity_rows_by_phone self phone st'
             = get_entity_rows_by_phone self phone st).
  { intros self phone. unfold get_entity_rows_by_phone. simpl.
    apply (first_Forall2 (evicted sn u)); auto.
    intros r r' He. apply evicted_same in He.
    unfold same_but_username in *.
    destruct He as (-> & -> & -> & -> & _). auto. }
  assert (Hname : forall self name,
             get_entity_rows_by_name self name st'
             = get_entity_rows_by_name self name st).
  { intros self name. unfold get_entity_rows_by_name. simpl.
    apply (first_Forall2 (evicted sn u)); auto.
    intros r r' He. apply evicted_same in He.
    unfold same_but_username in *.
    destruct He as (-> & -> & -> & _ & -> & _). auto. }
  split; [|split; [|split; [|split; [|split; [|split]]]]]; auto.
  - simpl. eapply Forall2_impl; [|apply (evict_only_holders sn u _ Hpk)].
    intros r r' [->|[-> Hh]]; split; auto; repeat split; auto.
  - intros self r Hin Hs. rewrite Hid. unfold get_entity_rows_by_id.
    rewrite first_hd_filter, Hs.
    rewrite (pk_count_one _ _ _ r Hpk Hin eq_refl). reflexivity.
  - intros self r p Hin Hs Hp Hsole. rewrite Hphone.
    unfold get_entity_rows_by_phone.
    rewrite (first_sole _ _ r Hin); auto.
    + rewrite Hs, Hp, String.eqb_refl. simpl. apply String.eqb_refl.
    + intros r' Hin' Hpred. apply andb_true_iff in Hpred.
      destruct Hpred as [H1 H2]. apply String.eqb_eq in H1.
      unfold opt_string_eqb in H2.
      destruct (Entity.phone r') as [q|] eqn:Hq; [|discriminate].
      apply String.eqb_eq in H2. apply Hsole; congruence.
  - intros self r n Hin Hs Hn Hsole. rewrite Hname.
    unfold get_entity_rows_by_name.
    rewrite (first_sole _ _ r Hin); auto.
    + rewrite Hs, Hn, String.eqb_refl. simpl. apply String.eqb_refl.
    + intros r' Hin' Hpred. apply andb_true_iff in Hpred.
      destruct Hpred as [H1 H2]. apply String.eqb_eq in H1.
      unfold opt_string_eqb in H2.
      destruct (Entity.name r') as [q|] eqn:Hq; [|discriminate].
      apply String.eqb_eq in H2. apply Hsole; congruence.
Qed.

Lemma evict_older_duplicates_frame_witness :
  pk_entities (entities store_collision) /\
  (let st' :=
     set_entities store_collision
       (evict_older_duplicates "a" "bob" (entities store_collision)) in
   Forall2 (fun r r' =>
              same_but_username r r' /\
              (Entity.username r' = Entity.username r \/
               (Entity.username r' = None /\ holds_username "a" "bob" r = true)))
     (entities store_collision) (entities st') /\
   (forall self phone,
       get_entity_rows_by_phone self phone st'
       = get_entity_rows_by_phone self phone store_collision) /\
   (forall self name,
       get_entity_rows_by_name self name st'
       = get_entity_rows_by_name self name store_collision) /\
   (forall self id,
       get_entity_rows_by_id self id st'
       = get_entity_rows_by_id self id store_collision) /\
   (forall self r,
       In r (entities store_collision) ->
       session_name self = Entity.session_name r ->
       get_entity_rows_by_id self (Entity.id r) st'
       = Some (Entity.id r, Entity.hash r)) /\
   (forall self r p,
       In r (entities store_collision) ->
       session_name self = Entity.session_name r ->
       Entity.phone r = Some p ->
       (forall r',
           In r' (entities store_collision) ->
           Entity.session_name r' = Entity.session_name r ->
           Entity.phone r' = Some p -> r' = r) ->
       get_entity_rows_by_phone self p st'
       = Some (Entity.id r, Entity.hash r)) /\
   (forall self r n,
       In r (entities store_collision) ->
       session_name self = Entity.session_name r ->
       Entity.name r = Some n ->
       (forall r',
           In r' (entities store_collision) ->
           Entity.session_name r' = Entity.session_name r ->
           Entity.name r' = Some n -> r' = r) ->
       get_entity_rows_by_name self n st'
       = Some (Entity.id r, Entity.hash r))).
Proof.
  assert (Hpk : pk_entities (entities store_collision)).
  { unfold pk_entities. simpl. repeat constructor; simpl.
    - intros [H|[]]. discriminate.
    - tauto. }
  split; [exact Hpk|].
  exact (evict_older_duplicates_frame "a" "bob" store_collision Hpk).
Defined.

(** ** The most recent row keeps the username *)

Lemma date_le_trans (a b c : option Z) :
  date_le a b = true -> date_le b c = true -> date_le a c = true.
Proof.
  destruct a as [x|], b as [y|], c as [z|]; simpl; try discriminate; auto.
  rewrite !Z.leb_le. lia.
Qed.

Lemma date_le_refl (a : option Z) : date_le a a = true.
Proof. destruct a; simpl; auto. apply Z.leb_refl. Qed.

Lemma order_by_date_strongly_sorted (l : list (Z * option Z)) :
  StronglySorted (fun a b => date_le (snd a) (snd b) = true) (order_by_date l).
Proof.
  apply Sorted_StronglySorted.
  - intros a b c. apply date_le_trans.
  - apply Sorted_LocallySorted_iff, order_by_date_sorted.
Qed.

Lemma StronglySorted_last {A : Type} (R : A -> A -> Prop) (front : list A)
  (lst : A) :
  StronglySorted R (front ++ [lst]) -> Forall (fun d => R d lst) front.
Proof.
  induction front as [|a front IH]; simpl; intros H; constructor.
  - apply StronglySorted_inv in H. destruct H as [_ Hall].
    rewrite Forall_forall in Hall. apply Hall, in_or_app. right. now left.
  - apply IH. now apply StronglySorted_inv in H.
Qed.

Lemma select_dups_row (sn u : string) (tbl : list Entity.t) (x : Z * option Z) :
  In x (select_dups sn u tbl) ->
  exists r,
    In r tbl /\ holds_username sn u r = true /\
    x = (Entity.id r, Entity.date r).
Proof.
  unfold select_dups. intros Hin.
  apply (Permutation_in _ (order_by_date_perm _)) in Hin.
  apply in_map_iff in Hin. destruct Hin as [r [<- Hr]].
  apply filter_In in Hr. exists r. tauto.
Qed.

Lemma pk_holder_ids (sn u : string) (tbl : list Entity.t) :
  pk_entities tbl ->
  NoDup (map Entity.id (filter (holds_username sn u) tbl)).
Proof.
  unfold pk_entities.
  induction tbl as [|x tbl IH]; simpl; intros Hnd; [constructor|].
  inversion Hnd as [|? ? Hnotin Hnd']; subst.
  destruct (holds_username sn u x) eqn:Hx; simpl; auto.
  constructor; auto.
  intros Hin. apply in_map_iff in Hin. destruct Hin as [y [Hid Hy]].
  apply filter_In in Hy. destruct Hy as [Hy Hh].
  apply holds_username_true in Hx. apply holds_username_true in Hh.
  apply Hnotin. apply in_map_iff. exists y. split; auto.
  unfold entity_key. destruct Hx as [Hxs _], Hh as [Hys _].
  now rewrite Hxs, Hys, Hid.
Qed.

Lemma select_dups_ids (sn u : string) (tbl : list Entity.t) :
  pk_entities tbl -> NoDup (map fst (select_dups sn u tbl)).
Proof.
  intros Hpk. unfold select_dups.
  eapply Permutation_NoDup.
  - apply Permutation_sym, Permutation_map, order_by_date_perm.
  - rewrite map_map. simpl. now apply pk_holder_ids.
Qed.

(** A row written with a present username keeps it when every other row of
    the session with that username has an earlier date or none. *)
Lemma process_row_keeps_newest (sn : string) (now_ts : Z) (tbl : list Entity.t)
  (i h : Z) (v : string) (p n : option string) :
  pk_entities tbl ->
  (forall r',
      In r' tbl -> Entity.session_name r' = sn ->
      Entity.username r' = Some v -> Entity.id r' <> i ->
      date_le (Some now_ts) (Entity.date r') = false) ->
  In (Entity.mk sn i h (Some v) p n (Some now_ts))
    (process_row sn now_ts tbl (i, h, Some v, p, n)).
Proof.
  intros Hpk Holder. unfold process_row.
  set (new := Entity.mk sn i h (Some v) p n (Some now_ts)).
  assert (Hnew : In new (merge_entity new tbl)) by apply merge_In_obj.
  assert (Hpk1 : pk_entities (merge_entity new tbl))
    by now apply pk_merge_entity.
  destruct (truthy (Some v)); auto.
  assert (Hhold : holds_username sn v new = true).
  { apply holds_username_true. split; reflexivity. }
  assert (Hin := In_select_dups sn v _ new Hnew Hhold).
  assert (Hids := select_dups_ids sn v _ Hpk1).
  assert (Hsorted := order_by_date_strongly_sorted
            (map (fun r => (Entity.id r, Entity.date r))
               (filter (holds_username sn v) (merge_entity new tbl)))).
  fold (select_dups sn v (merge_entity new tbl)) in Hsorted.
  assert (Hothers : forall d,
             In d (select_dups sn v (merge_entity new tbl)) ->
             d = (i, Some now_ts) \/ date_le (Some now_ts) (snd d) = false).
  { intros d Hd. apply select_dups_row in Hd.
    destruct Hd as [r [Hr [Hh ->]]].
    destruct (Z.eq_dec (Entity.id r) i) as [Hi|Hi].
    - left. assert (r = new).
      { apply (pk_inj _ _ _ Hpk1 Hr Hnew). unfold entity_key.
        apply holds_username_true in Hh. destruct Hh as [Hs _].
        now rewrite Hs, Hi. }
      now subst r.
    - right. simpl. apply In_merge in Hr. destruct Hr as [->|Hr].
      + now elim Hi.
      + apply holds_username_true in Hh. destruct Hh. now apply Holder. }
  unfold evict_older_duplicates.
  destruct (select_dups sn v (merge_entity new tbl)) as [|d0 dups] eqn:Hd;
    [destruct Hin|].
  destruct (Nat.ltb 1 _); auto.
  assert (Hne : d0 :: dups <> []) by discriminate.
  destruct (exists_last Hne) as [front [lst Hsplit]].
  rewrite Hsplit in *. rewrite removelast_last.
  destruct (map fst front) as [|i0 ids] eqn:Hfront; auto.
  rewrite <- Hfront. clear Hfront i0 ids.
  assert (Hlst : lst = (i, Some now_ts)).
  { destruct (Hothers lst) as [|Hlate]; auto.
    { apply in_or_app. right. now left. }
    exfalso. apply in_app_or in Hin. destruct Hin as [Hf|[Hl|[]]].
    - apply StronglySorted_last in Hsorted.
      rewrite Forall_forall in Hsorted. specialize (Hsorted _ Hf).
      change (date_le (Some now_ts) (snd lst) = true) in Hsorted. congruence.
    - rewrite Hl in Hlate. simpl in Hlate.
      rewrite Z.leb_refl in Hlate. discriminate. }
  assert (Hnotin : ~ In i (map fst front)).
  { rewrite map_app in Hids. simpl in Hids.
    apply NoDup_remove_2 in Hids. rewrite app_nil_r in Hids.
    now rewrite Hlst in Hids. }
  unfold null_usernames.
  apply in_map_iff. exists new. split; auto.
  assert (He : existsb (Z.eqb (Entity.id new)) (map fst front) = false).
  { destruct (existsb _ _) eqn:He; auto.
    apply existsb_Zeqb in He. now elim Hnotin. }
  rewrite He, andb_false_r. reflexivity.
Qed.

(** ** Upsert by (session name, peer id) *)

Lemma process_row_written (sn : string) (now_ts : Z) (tbl : list Entity.t)
  (i h : Z) (u p n : option string) :
  pk_entities tbl ->
  exists r,
    In r (process_row sn now_ts tbl (i, h, u, p, n)) /\
    entity_key r = (sn, i) /\
    Entity.hash r = h /\ Entity.phone r = p /\ Entity.name r = n /\
    Entity.date r = Some now_ts /\
    (Entity.username r = u \/ Entity.username r = None) /\
    ((forall r' v,
         u = Some v -> In r' tbl -> Entity.session_name r' = sn ->
         Entity.username r' = Some v -> Entity.id r' <> i ->
         date_le (Some now_ts) (Entity.date r') = false) ->
     Entity.username r = u).
Proof.
  intros Hpk. unfold process_row.
  set (new := Entity.mk sn i h u p n (Some now_ts)).
  assert (Hnew : In new (merge_entity new tbl)) by apply merge_In_obj.
  assert (Hplain : exists r,
             In r (merge_entity new tbl) /\ entity_key r = (sn, i) /\
             Entity.hash r = h /\ Entity.phone r = p /\ Entity.name r = n /\
             Entity.date r = Some now_ts /\
             (Entity.username r = u \/ Entity.username r = None) /\
             ((forall r' v,
                  u = Some v -> In r' tbl -> Entity.session_name r' = sn ->
                  Entity.username r' = Some v -> Entity.id r' <> i ->
                  date_le (Some now_ts) (Entity.date r') = false) ->
              Entity.username r = u)).
  { exists new. repeat split; auto. }
  destruct u as [v|]; auto.
  destruct (truthy (Some v)) eqn:Ht; auto.
  destruct (Forall2_In_l _ _ _ _ (evict_rows sn v (merge_entity new tbl)) Hnew)
    as [r [Hr He]].
  exists r. split; auto.
  assert (Hsame := evicted_same _ _ _ _ He).
  destruct Hsame as (Hs & Hi & Hh & Hp & Hn & Hd).
  unfold entity_key. rewrite Hs, Hi, Hh, Hp, Hn, Hd.
  repeat split; auto.
  - destruct He; simpl; auto.
  - intros Honly.
    assert (Hk := process_row_keeps_newest sn now_ts tbl i h v p n Hpk
                    (fun r' => Honly r' v eq_refl)).
    unfold process_row in Hk. fold new in Hk. rewrite Ht in Hk.
    assert (Hpk2 : pk_entities
                     (evict_older_duplicates sn v (merge_entity new tbl)))
      by (apply pk_evict, pk_merge_entity; auto).
    assert (r = new).
    { apply (pk_inj _ _ _ Hpk2 Hr Hk). unfold entity_key. now rewrite Hs, Hi. }
    now subst r.
Qed.

(** C8 (as amended): writing the same peer id twice leaves exactly one row
    for that (session, peer id), with the hash, phone, name and date of the
    later write; its username is the later write's username, or null when
    the duplicate pass cleared it in favour of another row, and it is the
    later write's username whenever every other row of the session that
    carries that username has an earlier date or none. *)
Theorem process_entities_upsert (self : SQLAlchemySession) (st : Store)
  (i now1 now2 h1 h2 : Z) (u1 p1 n1 u2 p2 n2 : option string) :
  save_entities self = true ->
  pk_entities (entities st) ->
  let sn := session_name self in
  let st1 := process_entities self now1 [(i, h1, u1, p1, n1)] st in
  let st2 := process_entities self now2 [(i, h2, u2, p2, n2)] st1 in
  List.length (filter (entity_key_eqb sn i) (entities st1)) = 1 /\
  exists r,
    filter (entity_key_eqb sn i) (entities st2) = [r] /\
    Entity.hash r = h2 /\ Entity.phone r = p2 /\ Entity.name r = n2 /\
    Entity.date r = Some now2 /\
    (Entity.username r = u2 \/ Entity.username r = None) /\
    ((forall r' v,
         u2 = Some v -> In r' (entities st1) -> Entity.session_name r' = sn ->
         Entity.username r' = Some v -> Entity.id r' <> i ->
         date_le (Some now2) (Entity.date r') = false) ->
     Entity.username r = u2).
Proof.
  intros Hsave Hpk sn st1 st2.
  assert (E1 : entities st1
               = process_row sn now1 (entities st) (i, h1, u1, p1, n1)).
  { unfold st1, process_entities. now rewrite Hsave. }
  assert (E2 : entities st2
               = process_row sn now2 (entities st1) (i, h2, u2, p2, n2)).
  { unfold st2, process_entities. now rewrite Hsave. }
  assert (Hpk1 : pk_entities (entities st1))
    by (rewrite E1; now apply pk_process_row).
  assert (Hpk2 : pk_entities (entities st2))
    by (rewrite E2; now apply pk_process_row).
  split.
  - destruct (process_row_written sn now1 (entities st) i h1 u1 p1 n1 Hpk)
      as [r [Hr [Hk _]]].
    rewrite <- E1 in Hr. now rewrite (pk_count_one _ _ _ r Hpk1 Hr Hk).
  - destruct (process_row_written sn now2 (entities st1) i h2 u2 p2 n2 Hpk1)
      as [r [Hr [Hk Hrest]]].
    rewrite <- E2 in Hr. exists r. split; auto.
    apply pk_count_one; auto.
Qed.

Lemma process_entities_upsert_witness :
  save_entities sess_a = true /\
  pk_entities (entities store_bob) /\
  (let st1 :=
     process_entities sess_a 1000%Z
       [(1%Z, 10%Z, Some "alice", Some "4203", Some "Alice")] store_bob in
   let st2 :=
     process_entities sess_a 1001%Z
       [(1%Z, 11%Z, Some "al", None, Some "Al")] st1 in
   List.length (filter (entity_key_eqb "a" 1%Z) (entities st1)) = 1 /\
   exists r,
     filter (entity_key_eqb "a" 1%Z) (entities st2) = [r] /\
     Entity.hash r = 11%Z /\ Entity.phone r = None /\
     Entity.name r = Some "Al" /\ Entity.date r = Some 1001%Z /\
     (Entity.username r = Some "al" \/ Entity.username r = None) /\
     ((forall r' v,
          Some "al" = Some v -> In r' (entities st1) ->
          Entity.session_name r' = "a" ->
          Entity.username r' = Some v -> Entity.id r' <> 1%Z ->
          date_le (Some 1001%Z) (Entity.date r') = false) ->
      Entity.username r = Some "al")).
Proof.
  assert (Hpk : pk_entities (entities store_bob)).
  { repeat constructor. simpl. tauto. }
  split; [reflexivity|]. split; [exact Hpk|].
  exact (process_entities_upsert sess_a store_bob 1%Z 1000%Z 1001%Z 10%Z 11%Z
           (Some "alice") (Some "4203") (Some "Alice")
           (Some "al") None (Some "Al") eq_refl Hpk).
Defined.

(** C8 as stated fails: when another row of the session already carries the
    username with a later date, the later write of peer 1 does not keep its
    username. *)
Lemma process_entities_later_username_lost :
  let st1 :=
    process_entities sess_a 1000%Z
      [(1%Z, 10%Z, Some "alice", None, None)] store_bob in
  let st2 :=
    process_entities sess_a 1001%Z
      [(1%Z, 11%Z, Some "bob", None, None)] st1 in
  ~ (forall r,
       first (entity_key_eqb "a" 1%Z) (entities st2) = Some r ->
       Entity.username r = Some "bob").
Proof.
  intros st1 st2 H.
  specialize (H (Entity.mk "a" 1%Z 11%Z None None None (Some 1001%Z)) eq_refl).
  discriminate.
Qed.

(** ** Lowercase usernames in the live write path *)





(** ** Update state *)

Lemma update_state_key_eqb_refl (sn : string) (i pts qts seq : Z)
  (d : option Z) :
  update_state_key_eqb sn i (UpdateState.mk sn i pts qts d seq) = true.
Proof.
  unfold update_state_key_eqb. simpl.
  now rewrite String.eqb_refl, Z.eqb_refl.
Qed.

(** C5 (as amended): a cursor whose date is absent, or is a whole-second
    instant other than the epoch, is read back with the same position,
    secondary position, date and sequence that were written. *)
Theorem update_state_round_trip (self : SQLAlchemySession) (entity_id : Z)
  (state : State.t) (st : Store) :
  State.date state <> Some (fromtimestamp 0%Z) ->
  get_update_state self entity_id (set_update_state self entity_id state st)
  = Some (State.mk (State.pts state) (State.qts state) (State.date state)
            (State.seq state) 0%Z).
Proof.
  intros Hdate. unfold get_update_state, set_update_state. simpl.
  rewrite first_merge by apply update_state_key_eqb_refl. simpl.
  do 2 f_equal.
  destruct (State.date state) as [[z]|]; simpl; auto.
  destruct (Z.eqb_spec z 0); auto. subst z. now elim Hdate.
Qed.

Lemma update_state_round_trip_witness :
  State.date cursor_sample <> Some (fromtimestamp 0%Z) /\
  get_update_state sess_a 3%Z (set_update_state sess_a 3%Z cursor_sample store_bob)
  = Some cursor_sample.
Proof.
  assert (H : State.date cursor_sample <> Some (fromtimestamp 0%Z))
    by discriminate.
  split; [exact H|].
  exact (update_state_round_trip sess_a 3%Z cursor_sample store_bob H).
Defined.

(** C5 as stated fails at the epoch: the stored date [0] is falsy on the way
    back, and the cursor is returned without a date. *)
Lemma update_state_epoch_not_returned :
  ~ (exists s,
       get_update_state sess_a 3%Z
         (set_update_state sess_a 3%Z cursor_epoch empty_store) = Some s /\
       State.pts s = State.pts cursor_epoch /\
       State.qts s = State.qts cursor_epoch /\
       State.date s = State.date cursor_epoch /\
       State.seq s = State.seq cursor_epoch).
Proof.
  intros [s [Hget [_ [_ [Hdate _]]]]].
  vm_compute in Hget. inversion Hget; subst s. discriminate.
Qed.

(** ** File cache *)

Lemma sent_file_key_eqb_true (sn : string) (md5 : bytes) (size ty : Z)
  (r : SentFile.t) :
  sent_file_key_eqb sn md5 size ty r = true <->
  (SentFile.session_name r = sn /\ SentFile.md5_digest r = md5 /\
   SentFile.file_size r = size /\ SentFile.type r = ty).
Proof.
  unfold sent_file_key_eqb, bytes_eqb.
  rewrite !andb_true_iff, String.eqb_eq, !Z.eqb_eq.
  destruct (list_eq_dec byte_eq_dec (SentFile.md5_digest r) md5); split;
    intros H; try tauto.
  destruct H as [[[_ H] _] _]. discriminate.
Qed.

Lemma filter_merge_same {A : Type} (same_key : A -> bool) (obj : A)
  (tbl : list A) :
  same_key obj = true ->
  filter same_key (merge same_key obj tbl) = obj :: tl (filter same_key tbl).
Proof.
  intros Hobj. induction tbl as [|x tbl IH]; simpl.
  - now rewrite Hobj.
  - destruct (same_key x) eqn:Hx; simpl.
    + now rewrite Hobj.
    + now rewrite Hx.
Qed.

Lemma NoDup_key_filter {A K : Type} (key : A -> K) (p : A -> bool) (k : K)
  (l : list A) :
  NoDup (map key l) -> (forall x, p x = true -> key x = k) ->
  tl (filter p l) = [].
Proof.
  intros Hnd Hp. induction l as [|a l IH]; simpl; auto.
  inversion Hnd as [|? ? Ha Hl]; subst.
  destruct (p a) eqn:Hpa; simpl; auto.
  destruct (filter p l) as [|y rest] eqn:Hf; auto.
  exfalso. apply Ha.
  assert (Hy : In y (filter p l)) by (rewrite Hf; now left).
  apply filter_In in Hy. destruct Hy as [Hin Hpy].
  rewrite (Hp a Hpa), <- (Hp y Hpy). now apply in_map.
Qed.

Lemma sent_file_key_eqb_key (sn : string) (md5 : bytes) (size ty : Z)
  (r : SentFile.t) :
  sent_file_key_eqb sn md5 size ty r = true
  <-> sent_file_key r = (sn, md5, size, ty).
Proof.
  rewrite sent_file_key_eqb_true. unfold sent_file_key.
  split; [intros (-> & -> & -> & ->); reflexivity|].
  intros H. inversion H. auto.
Qed.

(** C9: [cache_file] raises [TypeError] on a value that is neither an
    [InputDocument] nor an [InputPhoto] and leaves the store as it was.  For
    the two accepted kinds it returns after an upsert into [sent_files]: the
    row of the key (session, digest, size, kind), with the id and access
    hash of the reference, takes the place of the row that had the key, or
    is added when there was none; the rows of every other key stay as they
    were, in their order; the primary key of the table is kept; and the
    other tables are untouched. *)
Theorem cache_file_rejects_before_write (self : SQLAlchemySession)
  (md5_digest : bytes) (file_size : Z) (st : Store) :
  cache_file self md5_digest file_size OtherObject st = (Raise TypeError, st) /\
  (forall (cls : _SentFileType) (id access_hash : Z) (file_reference : bytes),
      let key :=
        sent_file_key_eqb (session_name self) md5_digest file_size (value cls) in
      let obj :=
        SentFile.mk (session_name self) md5_digest file_size (value cls)
          id access_hash in
      exists st',
        cache_file self md5_digest file_size
          (reference cls id access_hash file_reference) st = (Ok tt, st') /\
        filter key (sent_files st') = obj :: tl (filter key (sent_files st)) /\
        filter (fun r => negb (key r)) (sent_files st')
        = filter (fun r => negb (key r)) (sent_files st) /\
        (NoDup (map sent_file_key (sent_files st)) ->
         NoDup (map sent_file_key (sent_files st')) /\
         filter key (sent_files st') = [obj]) /\
        version st' = version st /\ sessions st' = sessions st /\
        entities st' = entities st /\ update_state st' = update_state st).
Proof.
  split; [reflexivity|].
  intros cls id access_hash file_reference key obj.
  exists (set_sent_files st (merge key obj (sent_files st))).
  assert (Hobj : key obj = true).
  { apply sent_file_key_eqb_true. repeat split. }
  assert (Hsame : filter key (merge key obj (sent_files st))
                  = obj :: tl (filter key (sent_files st)))
    by now apply filter_merge_same.
  split; [destruct cls; reflexivity|].
  cbn [set_sent_files sent_files version sessions entities update_state].
  split; [exact Hsame|].
  split; [|split; [|repeat split]].
  - apply filter_merge_other.
    + now rewrite Hobj.
    + intros x Hx. now rewrite Hx.
  - intros Hnd. split.
    + apply (merge_NoDup sent_file_key key obj); auto.
      intros x. unfold key. rewrite sent_file_key_eqb_key. reflexivity.
    + rewrite Hsame. f_equal.
      apply (NoDup_key_filter sent_file_key key
               (session_name self, md5_digest, file_size, value cls)); auto.
      intros x Hx. now apply sent_file_key_eqb_key.
Qed.

(** ** Listing and deleting sessions *)

Lemma str_le_cases (x y : string) :
  (str_le x y = true /\ (x = y \/ String_as_OT.lt x y)) \/
  (str_le x y = false /\ String_as_OT.lt y x).
Proof.
  unfold str_le.
  destruct (String_as_OT.compare_spec x y); auto.
Qed.

Lemma insert_sorted_In (x z : string) (l : list string) :
  In z (insert_sorted x l) <-> z = x \/ In z l.
Proof.
  induction l as [|y l IH]; simpl.
  - intuition.
  - destruct (str_le x y); simpl; [intuition|].
    rewrite IH. intuition.
Qed.

Lemma sorted_In (z : string) (l : list string) : In z (sorted l) <-> In z l.
Proof.
  induction l as [|x l IH]; simpl; [tauto|].
  rewrite insert_sorted_In, IH. intuition.
Qed.

Lemma insert_sorted_ascending (x : string) (l : list string) :
  ascending l -> ~ In x l -> ascending (insert_sorted x l).
Proof.
  unfold ascending.
  induction l as [|y l IH]; simpl; intros Hs Hnot.
  - repeat constructor.
  - apply StronglySorted_inv in Hs. destruct Hs as [Hs Hall].
    destruct (str_le_cases x y) as [[-> [Heq|Hlt]]|[-> Hlt]].
    + elim Hnot. auto.
    + constructor; [constructor; auto|].
      constructor; auto.
      eapply Forall_impl; [|exact Hall].
      intros z Hz. now transitivity y.
    + constructor; [apply IH; tauto|].
      apply Forall_forall. intros z Hz. apply insert_sorted_In in Hz.
      destruct Hz as [->|Hz]; auto.
      rewrite Forall_forall in Hall. auto.
Qed.

Lemma sorted_ascending (l : list string) : NoDup l -> ascending (sorted l).
Proof.
  induction 1 as [|x l Hnot _ IH]; simpl.
  - constructor.
  - apply insert_sorted_ascending; auto. now rewrite sorted_In.
Qed.

Lemma ascending_NoDup (l : list string) : ascending l -> NoDup l.
Proof.
  unfold ascending. induction 1 as [|x l _ IH Hall]; constructor; auto.
  intros Hin. rewrite Forall_forall in Hall.
  apply (StrictOrder_Irreflexive x). now apply Hall.
Qed.

(** A strictly ascending list is determined by the set of its elements. *)
Lemma ascending_unique (l1 l2 : list string) :
  ascending l1 -> ascending l2 ->
  (forall x, In x l1 <-> In x l2) -> l1 = l2.
Proof.
  unfold ascending. intros H1. revert l2.
  induction H1 as [|a l1 Hs1 IH Hall1]; intros l2 H2 Hsame.
  - destruct l2 as [|b l2]; auto.
    destruct (proj2 (Hsame b) (or_introl eq_refl)).
  - destruct H2 as [|b l2 Hs2 Hall2].
    + destruct (proj1 (Hsame a) (or_introl eq_refl)).
    + rewrite Forall_forall in Hall1, Hall2.
      assert (a = b).
      { destruct (proj1 (Hsame a) (or_introl eq_refl)) as [|Ha]; auto.
        destruct (proj2 (Hsame b) (or_introl eq_refl)) as [|Hb]; auto.
        exfalso. apply (StrictOrder_Irreflexive a).
        transitivity b; auto. }
      subst b. f_equal. apply IH; auto.
      intros x. split; intros Hx.
      * destruct (proj1 (Hsame x) (or_intror Hx)) as [<-|]; auto.
        exfalso. apply (StrictOrder_Irreflexive a). auto.
      * destruct (proj2 (Hsame x) (or_intror Hx)) as [<-|]; auto.
        exfalso. apply (StrictOrder_Irreflexive a). auto.
Qed.

Lemma list_sessions_In (st : Store) (sn : string) :
  In sn (list_sessions (Some st)) <->
  exists r, In r (sessions st) /\ SessionRow.session_name r = sn.
Proof.
  unfold list_sessions, set. rewrite sorted_In, nodup_In, in_map_iff.
  split; intros [r [H1 H2]]; exists r; auto.
Qed.

(** C10: for every state of the database [list_sessions] returns the session
    names in strictly ascending order, hence without repetition; the names
    are exactly those of the rows of [sessions]; the list depends on nothing
    but that set of names; and a database without the table gives the empty
    list. *)
Theorem list_sessions_sorted_distinct (db : option Store) :
  ascending (list_sessions db) /\
  NoDup (list_sessions db) /\
  (forall sn,
      In sn (list_sessions db) <->
      exists st r,
        db = Some st /\ In r (sessions st) /\ SessionRow.session_name r = sn) /\
  (forall db',
      (forall sn, In sn (list_sessions db) <-> In sn (list_sessions db')) ->
      list_sessions db' = list_sessions db) /\
  list_sessions None = [].
Proof.
  assert (Hasc : forall d, ascending (list_sessions d)).
  { intros [st|]; simpl; [|constructor].
    apply sorted_ascending, NoDup_nodup. }
  split; [apply Hasc|].
  split; [apply ascending_NoDup, Hasc|].
  split; [|split; [|reflexivity]].
  - intros sn. destruct db as [st|].
    + rewrite list_sessions_In. split.
      * intros [r Hr]. exists st, r. tauto.
      * intros [st' [r [He Hr]]]. inversion He; subst st'. exists r. tauto.
    + simpl. split; [intros []|]. intros [st [r [He _]]]. discriminate.
  - intros db' Hsame. apply ascending_unique; auto.
    intros x. symmetry. apply Hsame.
Qed.

Lemma filter_delete_where_same {A : Type} (p : A -> bool) (tbl : list A) :
  filter p (delete_where p tbl) = [].
Proof.
  unfold delete_where. induction tbl as [|x tbl IH]; simpl; auto.
  destruct (p x) eqn:Hp; simpl; auto. now rewrite Hp.
Qed.

Lemma eqb_other (sn sn' a : string) :
  sn' <> sn -> String.eqb a sn' = true -> String.eqb a sn = false.
Proof.
  intros Hne H. apply String.eqb_eq in H. subst a. now apply String.eqb_neq.
Qed.

(** C7: [delete] leaves no row of the session in [sessions], [entities],
    [update_state] and [sent_files]; [list_sessions] then does not contain
    the session name; for every other session name the rows of the four
    tables are the same rows in the same order, and that name is listed
    exactly when it was listed before. *)
Theorem delete_removes_only_own_rows (self : SQLAlchemySession) (st : Store) :
  let sn := session_name self in
  let st' := delete self st in
  (of_session SessionRow.session_name sn (sessions st') = [] /\
   of_session Entity.session_name sn (entities st') = [] /\
   of_session UpdateState.session_name sn (update_state st') = [] /\
   of_session SentFile.session_name sn (sent_files st') = []) /\
  ~ In sn (list_sessions (Some st')) /\
  (forall sn',
      sn' <> sn ->
      of_session SessionRow.session_name sn' (sessions st')
      = of_session SessionRow.session_name sn' (sessions st) /\
      of_session Entity.session_name sn' (entities st')
      = of_session Entity.session_name sn' (entities st) /\
      of_session UpdateState.session_name sn' (update_state st')
      = of_session UpdateState.session_name sn' (update_state st) /\
      of_session SentFile.session_name sn' (sent_files st')
      = of_session SentFile.session_name sn' (sent_files st) /\
      (In sn' (list_sessions (Some st')) <-> In sn' (list_sessions (Some st)))).
Proof.
  intros sn st'. unfold of_session.
  split; [|split].
  - unfold st', delete. simpl. fold sn.
    repeat split; apply filter_delete_where_same.
  - rewrite list_sessions_In. intros [r [Hin Hr]].
    unfold st', delete in Hin. simpl in Hin.
    apply delete_where_none in Hin. fold sn in Hin.
    rewrite Hr, String.eqb_refl in Hin. discriminate.
  - intros sn' Hne.
    assert (Hl : In sn' (list_sessions (Some st'))
                 <-> In sn' (list_sessions (Some st))).
    { rewrite !list_sessions_In. unfold st', delete. cbn [sessions].
      unfold delete_where.
      split; intros [r [Hin Hr]]; exists r; (split; [|exact Hr]).
      - apply filter_In in Hin. tauto.
      - apply filter_In. split; auto.
        apply negb_true_iff, String.eqb_neq. fold sn. congruence. }
    unfold st', delete. cbn [sessions entities update_state sent_files].
    repeat split;
      try (apply filter_delete_where; intros r; apply eqb_other; auto);
      apply Hl.
Qed.

(** ** Migration *)

Section Preserves.
Context {S : Type}.
Variable P : S -> Prop.

Lemma preserves_ret {A : Type} (a : A) : preserves P (@ret S A a).
Proof. intros s Hs. exact Hs. Qed.

Lemma preserves_raise {A : Type} (e : exn) : preserves P (@raise S A e).
Proof. intros s Hs. exact Hs. Qed.

Lemma preserves_modify (f : S -> S) :
  (forall s, P s -> P (f s)) -> preserves P (modify f).
Proof. intros Hf s Hs. now apply Hf. Qed.

Lemma preserves_bind {A B : Type} (m : M S A) (k : A -> M S B) :
  preserves P m -> (forall a, preserves P (k a)) -> preserves P (bind m k).
Proof.
  intros Hm Hk s Hs. unfold bind.
  specialize (Hm s Hs). destruct (m s) as [[a|e] s']; simpl in *; auto.
  now apply Hk.
Qed.

Lemma preserves_for_each {A : Type} (xs : list A) (body : A -> M S unit) :
  (forall x, preserves P (body x)) -> preserves P (for_each xs body).
Proof.
  intros Hb. induction xs as [|x xs IH]; simpl.
  - apply preserves_ret.
  - apply preserves_bind; auto.
Qed.
End Preserves.

Lemma for_each_unchanged {S A : Type} (xs : list A) (body : A -> M S unit) :
  (forall x s, snd (body x s) = s) -> forall s, snd (for_each xs body s) = s.
Proof.
  intros Hb. induction xs as [|x xs IH]; intros s; simpl; auto.
  unfold bind. specialize (Hb x s).
  destruct (body x s) as [[[]|e] s']; simpl in *; subst; auto.
Qed.

(** The replay of [sent_files] writes nothing: the reference of a document
    or photo row cannot be built, and rows of another kind are skipped. *)
Lemma replay_sent_files_unchanged (legacy : LegacyDb) (d : dst_state) :
  snd (replay_sent_files legacy d) = d.
Proof.
  unfold replay_sent_files. apply for_each_unchanged.
  intros [[[[md5 size] ty] fid] fh] s.
  destruct (Z.eqb ty (value DOCUMENT)); [reflexivity|].
  destruct (Z.eqb ty (value PHOTO)); reflexivity.
Qed.

Lemma preserves_replay_sent_files (P : dst_state -> Prop) (legacy : LegacyDb) :
  preserves P (replay_sent_files legacy).
Proof. intros s Hs. now rewrite replay_sent_files_unchanged. Qed.

Lemma merge_keeps_session (sn : string) (obj : SessionRow.t)
  (tbl : list SessionRow.t) :
  (exists r, In r tbl /\ SessionRow.session_name r = sn) ->
  exists r,
    In r (merge (session_key_eqb (SessionRow.session_name obj)) obj tbl) /\
    SessionRow.session_name r = sn.
Proof.
  intros [r [Hin Hr]].
  induction tbl as [|x tbl IH]; simpl; [destruct Hin|].
  destruct (session_key_eqb _ x) eqn:Hx.
  - destruct Hin as [->|Hin].
    + exists obj. split; [now left|].
      apply String.eqb_eq in Hx. congruence.
    + exists r. split; [now right|auto].
  - destruct Hin as [->|Hin].
    + exists r. split; [now left|auto].
    + destruct (IH Hin) as [r' [Hr' Hn]]. exists r'. split; [now right|auto].
Qed.

Lemma _update_session_row_keeps (sn : string) (self : SQLAlchemySession)
  (st : Store) :
  has_session_record sn st -> has_session_record sn (_update_session_row self st).
Proof.
  unfold has_session_record, _update_session_row. simpl.
  apply (merge_keeps_session sn
           (SessionRow.mk (session_name self) _ _ _ _ _)).
Qed.

Lemma __init___dst_ok (db : option Store) (sn : string) :
  dst_ok sn (__init__ db sn).
Proof.
  unfold __init__, _load_existing_session, dst_ok, has_session_record. simpl.
  destruct (first _ (sessions (_ensure_schema db))) as [r|] eqn:Hf; simpl.
  - split; auto. unfold first in Hf. apply find_some in Hf.
    destruct Hf as [Hin Hk]. exists r. split; auto.
    now apply String.eqb_eq in Hk.
  - split; auto. eexists. split; [apply merge_In_obj|reflexivity].
Qed.

Lemma replay_dst_ok (sn : string) (env : Env) (legacy : LegacyDb) :
  preserves (dst_ok sn) (replay env legacy).
Proof.
  assert (Hsess : forall f,
             (forall self st, session_name (fst (f self st)) = session_name self) ->
             (forall self st, has_session_record sn st ->
                              has_session_record sn (snd (f self st))) ->
             preserves (dst_ok sn) (on_session f)).
  { intros f H1 H2. apply preserves_modify. intros [self st] [Hn Hr].
    split; simpl in *; [now rewrite H1|now apply H2]. }
  assert (Hstore : forall f,
             (forall self st, sessions (f self st) = sessions st) ->
             preserves (dst_ok sn) (on_store f)).
  { intros f H1. apply preserves_modify. intros [self st] [Hn Hr].
    split; simpl in *; auto. unfold has_session_record. now rewrite H1. }
  unfold replay.
  apply preserves_bind; [|intros _; apply preserves_bind;
                           [|intros _; apply preserves_bind; [|intros _]]].
  - unfold replay_session_record.
    destruct (legacy_sessions legacy) as [rows|]; [|apply preserves_raise].
    destruct rows as [|[[[[dc addr] port] key] tk] rest];
      [apply preserves_ret|].
    apply preserves_bind; [|intros _; apply preserves_bind; [|intros _]].
    + apply Hsess; auto.
      intros; simpl; now apply _update_session_row_keeps.
    + destruct (nonempty_bytes key); [|apply preserves_ret].
      apply Hsess; auto.
      intros; simpl; now apply _update_session_row_keeps.
    + apply Hsess; auto.
      intros; simpl; now apply _update_session_row_keeps.
  - unfold replay_entities.
    destruct (match legacy_entities legacy with Some rs => rs | None => [] end);
      [apply preserves_ret|].
    destruct (entity_module_importable env); [|apply preserves_raise].
    apply Hstore. reflexivity.
  - unfold replay_update_state. apply preserves_for_each.
    intros [[[[eid pts] qts] date] seq].
    destruct date as [z|]; [|apply preserves_raise].
    destruct (fromtimestamp_error env z); [apply preserves_raise|].
    apply Hstore. reflexivity.
  - apply preserves_replay_sent_files.
Qed.

(** C3 at its failing input: for every legacy file that opens but has no
    [sessions] table the migration raises [OperationalError] right after the
    destination session was initialised; no replay step runs. *)
Theorem migrate_without_sessions_table_raises (env : Env)
  (sqlite_path : string) (session_name : option string) (db : option Store)
  (legacy : LegacyDb) :
  open_path env sqlite_path = Database legacy ->
  legacy_sessions legacy = None ->
  migrate_sqlite_to_sqlalchemy env sqlite_path session_name db
  = (Raise OperationalError,
     Some (snd (__init__ db (derive_session_name sqlite_path session_name)))).
Proof.
  intros Hopen Hnone. unfold migrate_sqlite_to_sqlalchemy. rewrite Hopen.
  destruct (__init__ db _) as [self st].
  unfold replay, replay_session_record, bind. now rewrite Hnone.
Qed.

Lemma migrate_without_sessions_table_raises_witness :
  open_path env_sample "/data/x.session" = Database legacy_no_sessions /\
  legacy_sessions legacy_no_sessions = None /\
  migrate_sqlite_to_sqlalchemy env_sample "/data/x.session" None None
  = (Raise OperationalError, Some (snd (__init__ None "x"))).
Proof.
  split; [reflexivity|]. split; [reflexivity|].
  exact (migrate_without_sessions_table_raises env_sample "/data/x.session"
           None None legacy_no_sessions eq_refl eq_refl).
Defined.

(** The three tables read under [except sqlite3.OperationalError] may be
    absent: the replay of a legacy file is the replay of the same file with
    an empty table in place of each absent one. *)
Lemma replay_tolerates_missing_tables (env : Env) (legacy : LegacyDb) :
  replay env legacy = replay env (with_empty_tables legacy).
Proof.
  destruct legacy as [s [e|] [u|] [f|]]; reflexivity.
Qed.



(** ** Primary keys under the operations *)

Lemma version_key_eqb_true (v : Z) (r : Version.t) :
  version_key_eqb v r = true <-> Version.version r = v.
Proof. unfold version_key_eqb. apply Z.eqb_eq. Qed.

Lemma session_key_eqb_true (sn : string) (r : SessionRow.t) :
  session_key_eqb sn r = true <-> SessionRow.session_name r = sn.
Proof. unfold session_key_eqb. apply String.eqb_eq. Qed.

Lemma update_state_key_eqb_true (sn : string) (i : Z) (r : UpdateState.t) :
  update_state_key_eqb sn i r = true <-> update_state_key r = (sn, i).
Proof.
  unfold update_state_key_eqb, update_state_key.
  rewrite andb_true_iff, String.eqb_eq, Z.eqb_eq.
  split; [intros [-> ->]; reflexivity | intros H; inversion H; auto].
Qed.

Lemma wf_ensure_schema (db : option Store) :
  wf_db db -> wf_store (_ensure_schema db).
Proof.
  intros Hwf. unfold _ensure_schema.
  set (st := match db with Some st => st | None => empty_store end).
  assert (Hst : wf_store st).
  { destruct db; [exact Hwf|]. unfold st, wf_store, pk_entities. simpl.
    repeat split; constructor. }
  destruct (first _ (version st)); auto.
  destruct Hst as (Hv & Hrest). split; auto. simpl.
  apply (merge_NoDup Version.version). 2: exact Hv.
  intros x. apply version_key_eqb_true.
Qed.

Lemma wf_update_session_row (self : SQLAlchemySession) (st : Store) :
  wf_store st -> wf_store (_update_session_row self st).
Proof.
  intros (Hv & Hs & Hrest). split; auto. split; auto. simpl.
  apply (merge_NoDup SessionRow.session_name). 2: exact Hs.
  intros x. apply session_key_eqb_true.
Qed.

Lemma wf_load_existing_session (self : SQLAlchemySession) (st : Store) :
  wf_store st -> wf_store (snd (_load_existing_session self st)).
Proof.
  intros Hwf. unfold _load_existing_session.
  destruct (first _ (sessions st)); simpl; auto.
  destruct Hwf as (Hv & Hs & Hrest). split; auto. split; auto. simpl.
  apply (merge_NoDup SessionRow.session_name). 2: exact Hs.
  intros x. apply session_key_eqb_true.
Qed.

Lemma wf_set_entities (st : Store) (tbl : list Entity.t) :
  wf_store st -> pk_entities tbl -> wf_store (set_entities st tbl).
Proof. intros (Hv & Hs & He & Hrest) Hpk. repeat split; tauto. Qed.

Lemma wf_process_entities (self : SQLAlchemySession) (now_ts : Z)
  (rows : list row) (st : Store) :
  wf_store st -> wf_store (process_entities self now_ts rows st).
Proof.
  intros Hwf. unfold process_entities.
  destruct (negb (save_entities self)); auto.
  destruct rows as [|x rows]; auto.
  apply wf_set_entities; auto.
  apply (fold_process_row_inv pk_entities).
  - intros; now apply pk_process_row.
  - apply Hwf.
Qed.

Lemma pk_null_usernames (sn : string) (ids : list Z) (tbl : list Entity.t) :
  pk_entities tbl -> pk_entities (null_usernames sn ids tbl).
Proof. unfold pk_entities. now rewrite key_null_usernames. Qed.

Lemma wf_get_entity_rows_by_username (self : SQLAlchemySession) (u : string)
  (st : Store) :
  wf_store st -> wf_store (snd (get_entity_rows_by_username self u st)).
Proof.
  intros Hwf. unfold get_entity_rows_by_username.
  destruct (map _ _) as [|t0 ts]; auto.
  destruct (Nat.ltb 1 _); auto. simpl.
  destruct (map _ (removelast _)); auto.
  apply wf_set_entities; auto. apply pk_null_usernames, Hwf.
Qed.

Lemma wf_set_update_state (self : SQLAlchemySession) (i : Z) (state : State.t)
  (st : Store) :
  wf_store st -> wf_store (set_update_state self i state st).
Proof.
  intros (Hv & Hs & He & Hf & Hu). repeat split; auto. simpl.
  apply (merge_NoDup update_state_key). 2: exact Hu.
  intros x. apply update_state_key_eqb_true.
Qed.

Lemma wf_cache_file (self : SQLAlchemySession) (md5 : bytes) (size : Z)
  (inst : instance) (st : Store) :
  wf_store st -> wf_store (snd (cache_file self md5 size inst st)).
Proof.
  intros Hwf. destruct Hwf as (Hv & Hs & He & Hf & Hu).
  destruct inst; simpl; repeat split; auto;
    apply (merge_NoDup sent_file_key); auto;
    intros x; apply sent_file_key_eqb_key.
Qed.

Lemma wf_delete (self : SQLAlchemySession) (st : Store) :
  wf_store st -> wf_store (delete self st).
Proof.
  intros (Hv & Hs & He & Hf & Hu). unfold delete, delete_where, wf_store.
  simpl. repeat split; auto; apply NoDup_map_filter; auto.
Qed.

Lemma pk_migrate_entity_row (sn : string) (now_ts : Z) (tbl : list Entity.t)
  (x : Z * Z * option string * option string * option string * option Z) :
  pk_entities tbl -> pk_entities (migrate_entity_row sn now_ts tbl x).
Proof.
  destruct x as [[[[[i h] u] p] n] d]. unfold migrate_entity_row. intros Hpk.
  destruct u as [u|]; [destruct (truthy (Some u))|];
    auto using pk_evict, pk_merge_entity.
Qed.

Lemma fold_migrate_entity_row_inv (P : list Entity.t -> Prop) (sn : string)
  (now_ts : Z)
  (rows : list (Z * Z * option string * option string * option string
                * option Z)) :
  (forall tbl x, P tbl -> P (migrate_entity_row sn now_ts tbl x)) ->
  forall tbl, P tbl -> P (fold_left (migrate_entity_row sn now_ts) rows tbl).
Proof.
  intros Hstep. induction rows as [|x rows IH]; simpl; auto.
Qed.

(** Every step of the replay keeps a property of the store that the writers
    of the session keep. *)
Lemma replay_store_inv (P : Store -> Prop) (env : Env) (legacy : LegacyDb) :
  (forall self st, P st -> P (_update_session_row self st)) ->
  (forall sn now_ts rows st,
      P st ->
      P (set_entities st
           (fold_left (migrate_entity_row sn now_ts) rows (entities st)))) ->
  (forall self i state st, P st -> P (set_update_state self i state st)) ->
  preserves (fun d : dst_state => P (snd d)) (replay env legacy).
Proof.
  intros Hrow Hent Hcur.
  assert (Hsess : forall f,
             (forall self st, P st -> P (snd (f self st))) ->
             preserves (fun d : dst_state => P (snd d)) (on_session f)).
  { intros f H1. apply preserves_modify. intros [self st] HP. now apply H1. }
  assert (Hstore : forall f,
             (forall self st, P st -> P (f self st)) ->
             preserves (fun d : dst_state => P (snd d)) (on_store f)).
  { intros f H1. apply preserves_modify. intros [self st] HP. now apply H1. }
  unfold replay.
  apply preserves_bind; [|intros _; apply preserves_bind;
                           [|intros _; apply preserves_bind; [|intros _]]].
  - unfold replay_session_record.
    destruct (legacy_sessions legacy) as [rows|]; [|apply preserves_raise].
    destruct rows as [|[[[[dc addr] port] key] tk] rest];
      [apply preserves_ret|].
    apply preserves_bind; [|intros _; apply preserves_bind; [|intros _]].
    + apply Hsess. intros; simpl; now apply Hrow.
    + destruct (nonempty_bytes key); [|apply preserves_ret].
      apply Hsess. intros; simpl; now apply Hrow.
    + apply Hsess. intros; simpl; now apply Hrow.
  - unfold replay_entities.
    destruct (match legacy_entities legacy with Some rs => rs | None => [] end);
      [apply preserves_ret|].
    destruct (entity_module_importable env); [|apply preserves_raise].
    apply Hstore. intros; now apply Hent.
  - unfold replay_update_state. apply preserves_for_each.
    intros [[[[eid pts] qts] date] seq].
    destruct date as [z|]; [|apply preserves_raise].
    destruct (fromtimestamp_error env z); [apply preserves_raise|].
    apply Hstore. intros; now apply Hcur.
  - apply preserves_replay_sent_files.
Qed.

Lemma wf_init (db : option Store) (sn : string) :
  wf_db db -> wf_store (snd (__init__ db sn)).
Proof.
  intros Hwf. unfold __init__.
  apply wf_load_existing_session, wf_ensure_schema, Hwf.
Qed.

Lemma wf_migrate (env : Env) (sqlite_path : string)
  (session_name : option string) (db : option Store) :
  wf_db db ->
  wf_db (snd (migrate_sqlite_to_sqlalchemy env sqlite_path session_name db)).
Proof.
  intros Hwf. unfold migrate_sqlite_to_sqlalchemy. cbv zeta.
  destruct (open_path env sqlite_path) as [| | |legacy];
    [exact Hwf|exact Hwf|simpl; now apply wf_init|].
  assert (H := replay_store_inv wf_store env legacy
                 wf_update_session_row).
  assert (Hp : preserves (fun d : dst_state => wf_store (snd d))
                 (replay env legacy)).
  { apply H.
    - intros. apply wf_set_entities; auto.
      apply (fold_migrate_entity_row_inv pk_entities).
      + intros; now apply pk_migrate_entity_row.
      + apply H0.
    - intros; now apply wf_set_update_state. }
  specialize (Hp (__init__ db (derive_session_name sqlite_path session_name))
                (wf_init db _ Hwf)).
  destruct (replay env legacy _) as [r [self st]]. exact Hp.
Qed.

(** X1: every operation that writes keeps the primary key of each of the five
    tables: no operation ever leaves two rows with one key. *)
Theorem operations_keep_primary_keys (st : Store) :
  wf_store st ->
  (forall sn, wf_store (snd (__init__ (Some st) sn))) /\
  (forall self dc addr port, wf_store (snd (set_dc dc addr port self st))) /\
  (forall self key, wf_store (snd (set_auth_key key self st))) /\
  (forall self tk, wf_store (snd (set_takeout_id tk self st))) /\
  (forall self now_ts rows, wf_store (process_entities self now_ts rows st)) /\
  (forall self u, wf_store (snd (get_entity_rows_by_username self u st))) /\
  (forall self i state, wf_store (set_update_state self i state st)) /\
  (forall self md5 size inst, wf_store (snd (cache_file self md5 size inst st))) /\
  (forall self, wf_store (delete self st)) /\
  (forall env path name,
      wf_db (snd (migrate_sqlite_to_sqlalchemy env path name (Some st)))).
Proof.
  intros Hwf.
  split. { intros sn. now apply (wf_init (Some st)). }
  split. { intros. simpl. now apply wf_update_session_row. }
  split. { intros. simpl. now apply wf_update_session_row. }
  split. { intros. simpl. now apply wf_update_session_row. }
  split. { intros. now apply wf_process_entities. }
  split. { intros. now apply wf_get_entity_rows_by_username. }
  split. { intros. now apply wf_set_update_state. }
  split. { intros. now apply wf_cache_file. }
  split. { intros. now apply wf_delete. }
  intros. now apply (wf_migrate _ _ _ (Some st)).
Qed.

(** ** Schema and session record *)

Lemma merge_no_match {A : Type} (same_key : A -> bool) (obj : A) (tbl : list A) :
  first same_key tbl = None -> merge same_key obj tbl = tbl ++ [obj].
Proof.
  unfold first. induction tbl as [|x tbl IH]; simpl; auto.
  destruct (same_key x); [discriminate|]. intros H. now rewrite IH.
Qed.

Lemma ensure_schema_tables (db : option Store) :
  sessions (_ensure_schema db) = sessions (store_of db) /\
  entities (_ensure_schema db) = entities (store_of db) /\
  update_state (_ensure_schema db) = update_state (store_of db) /\
  sent_files (_ensure_schema db) = sent_files (store_of db).
Proof.
  unfold _ensure_schema. fold (store_of db).
  destruct (first _ (version (store_of db))); simpl; auto.
Qed.

Lemma ensure_schema_marker (db : option Store) :
  In (Version.mk DATABASE_VERSION) (version (_ensure_schema db)).
Proof.
  unfold _ensure_schema. fold (store_of db).
  destruct (first (version_key_eqb DATABASE_VERSION) (version (store_of db)))
    as [r|] eqn:Hf; simpl.
  - unfold first in Hf. apply find_some in Hf. destruct Hf as [Hin Hk].
    apply version_key_eqb_true in Hk. destruct r as [v]. simpl in Hk.
    now subst v.
  - apply merge_In_obj.
Qed.

Lemma ensure_schema_again (db : option Store) :
  _ensure_schema (Some (_ensure_schema db)) = _ensure_schema db.
Proof.
  assert (Hmark := ensure_schema_marker db).
  unfold _ensure_schema at 1. simpl.
  destruct (first (version_key_eqb DATABASE_VERSION)
              (version (_ensure_schema db))) eqn:Hv; auto.
  exfalso. unfold first in Hv. apply (find_none _ _ Hv) in Hmark.
  discriminate.
Qed.

Lemma sessions_ensure_schema (db : option Store) :
  sessions (_ensure_schema db) = sessions (store_of db).
Proof. apply (ensure_schema_tables db). Qed.

(** X2: [_ensure_schema] leaves a version marker in the store, keeps the
    markers and every other table as they were, and changes nothing when it
    runs again. *)
Theorem ensure_schema_idempotent (db : option Store) :
  let st := _ensure_schema db in
  In (Version.mk DATABASE_VERSION) (version st) /\
  _ensure_schema (Some st) = st /\
  (forall v, In v (version (store_of db)) -> In v (version st)) /\
  sessions st = sessions (store_of db) /\
  entities st = entities (store_of db) /\
  update_state st = update_state (store_of db) /\
  sent_files st = sent_files (store_of db).
Proof.
  intros st. split; [apply ensure_schema_marker|].
  split; [apply ensure_schema_again|].
  split; [|apply ensure_schema_tables].
  intros v Hv. unfold st, _ensure_schema. fold (store_of db).
  destruct (first _ (version (store_of db))) eqn:Hf; simpl; auto.
  rewrite (merge_no_match _ _ _ Hf). apply in_or_app. now left.
Qed.

Lemma nonempty_bytes_idem (b : option bytes) :
  nonempty_bytes (nonempty_bytes b) = nonempty_bytes b.
Proof. destruct b as [[|x k]|]; reflexivity. Qed.

Lemma nonempty_bytes_or_empty (b : option bytes) :
  nonempty_bytes (Some (match b with Some k => k | None => [] end))
  = nonempty_bytes b.
Proof. destruct b as [[|x k]|]; reflexivity. Qed.

(** X3: opening a session is get-or-create.  When the store has a record for
    the name nothing is written; when it has none, the default record is
    appended and the object starts from the defaults.  Either way the object
    carries the name, saves entities, the other tables are untouched, and
    opening the same name again gives the same object and the same store. *)
Theorem init_get_or_create (db : option Store) (sn : string) :
  let self := fst (__init__ db sn) in
  let st := snd (__init__ db sn) in
  session_name self = sn /\ save_entities self = true /\
  __init__ (Some st) sn = (self, st) /\
  (has_session_record sn (store_of db) -> st = _ensure_schema db) /\
  (~ has_session_record sn (store_of db) ->
   sessions st = sessions (store_of db) ++ [default_session_row sn] /\
   self = default_session sn) /\
  entities st = entities (store_of db) /\
  update_state st = update_state (store_of db) /\
  sent_files st = sent_files (store_of db).
Proof.
  assert (Hmark := ensure_schema_marker db).
  assert (Hidem := ensure_schema_again db).
  destruct (ensure_schema_tables db) as (Hs & He & Hu & Hf).
  unfold __init__, _load_existing_session. simpl session_name.
  destruct (first (session_key_eqb sn) (sessions (_ensure_schema db)))
    as [r|] eqn:Hfirst; simpl.
  - rewrite Hidem, Hfirst. simpl.
    assert (Hrec : has_session_record sn (store_of db)).
    { unfold first in Hfirst. apply find_some in Hfirst.
      destruct Hfirst as [Hin Hk]. apply session_key_eqb_true in Hk.
      exists r. rewrite <- Hs. auto. }
    split; [reflexivity|]. split; [reflexivity|]. split; [reflexivity|].
    split; [reflexivity|]. split; [intros Hn; now elim Hn|]. auto.
  - assert (Hver : _ensure_schema
                     (Some (set_sessions (_ensure_schema db)
                              (merge (session_key_eqb sn)
                                 (default_session_row sn)
                                 (sessions (_ensure_schema db)))))
                   = set_sessions (_ensure_schema db)
                       (merge (session_key_eqb sn) (default_session_row sn)
                          (sessions (_ensure_schema db)))).
    { unfold _ensure_schema at 1. simpl.
      fold (_ensure_schema db).
      destruct (first (version_key_eqb DATABASE_VERSION)
                  (version (_ensure_schema db))) eqn:Hv; auto.
      exfalso. unfold first in Hv.
      apply (find_none _ _ Hv) in Hmark. discriminate. }
    unfold default_session_row in Hver. rewrite Hver. simpl.
    rewrite first_merge by apply String.eqb_refl. simpl.
    split; [reflexivity|]. split; [reflexivity|]. split; [reflexivity|].
    split; [|split; [|auto]].
    + intros [r [Hin Hr]]. exfalso. rewrite <- Hs in Hin.
      unfold first in Hfirst. apply (find_none _ _ Hfirst) in Hin.
      apply session_key_eqb_true in Hr. congruence.
    + intros _. split; [|reflexivity].
      rewrite (merge_no_match _ _ _ Hfirst). now rewrite Hs.
Qed.

Lemma reopen_after_update (self : SQLAlchemySession) (st : Store) :
  reopen (_update_session_row self st) (session_name self)
  = mkSession (session_name self) true (_dc_id self) (_server_address self)
      (_port self) (nonempty_bytes (_auth_key self)) (_takeout_id self).
Proof.
  unfold reopen, __init__, _load_existing_session.
  rewrite sessions_ensure_schema. simpl store_of.
  unfold _update_session_row at 1. simpl sessions. simpl session_name.
  rewrite first_merge by apply String.eqb_refl. simpl.
  destruct (_auth_key self) as [[|b k]|]; reflexivity.
Qed.

(** X4: what [set_dc], the [auth_key] setter and the [takeout_id] setter
    write is what a new session object for the same name loads: data centre,
    address, port, key and takeout id come back, an empty key as no key. *)
Theorem reopen_loads_what_was_saved (self : SQLAlchemySession) (st : Store) :
  let sn := session_name self in
  (forall dc addr port,
      fst (set_dc dc addr port self st)
      = mkSession sn (save_entities self)
          (match dc with Some d => d | None => 0%Z end) addr port
          (nonempty_bytes (_auth_key self)) (_takeout_id self) /\
      reopen (snd (set_dc dc addr port self st)) sn
      = mkSession sn true
          (match dc with Some d => d | None => 0%Z end) addr port
          (nonempty_bytes (_auth_key self)) (_takeout_id self)) /\
  (forall key,
      reopen (snd (set_auth_key key self st)) sn
      = mkSession sn true (_dc_id self) (_server_address self) (_port self)
          (nonempty_bytes key) (_takeout_id self)) /\
  (forall tk,
      reopen (snd (set_takeout_id tk self st)) sn
      = mkSession sn true (_dc_id self) (_server_address self) (_port self)
          (nonempty_bytes (_auth_key self)) tk).
Proof.
  intros sn. split; [|split].
  - intros dc addr port. split.
    + unfold set_dc. simpl. unfold _update_session_row. simpl.
      rewrite first_merge by apply String.eqb_refl. simpl.
      destruct (_auth_key self) as [[|b k]|]; reflexivity.
    + unfold set_dc. simpl snd.
      apply (reopen_after_update
               (mkSession sn (save_entities self)
                  (match dc with Some d => d | None => 0%Z end) addr port
                  (_auth_key self) (_takeout_id self))).
  - intros key. unfold set_auth_key. simpl snd.
    apply (reopen_after_update
             (mkSession sn (save_entities self) (_dc_id self)
                (_server_address self) (_port self) key (_takeout_id self))).
  - intros tk. unfold set_takeout_id. simpl snd.
    apply (reopen_after_update
             (mkSession sn (save_entities self) (_dc_id self)
                (_server_address self) (_port self) (_auth_key self) tk)).
Qed.

(** ** Isolation of sessions *)

Lemma filter_map_fix {A : Type} (p : A -> bool) (f : A -> A) (l : list A) :
  (forall r, p (f r) = p r) -> (forall r, p r = true -> f r = r) ->
  filter p (map f l) = filter p l.
Proof.
  intros Hp Hf. induction l as [|x l IH]; simpl; auto.
  rewrite Hp. destruct (p x) eqn:Hx; auto. now rewrite (Hf x Hx), IH.
Qed.

Lemma of_session_null_usernames (sn sn' : string) (ids : list Z)
  (tbl : list Entity.t) :
  sn' <> sn ->
  of_session Entity.session_name sn' (null_usernames sn ids tbl)
  = of_session Entity.session_name sn' tbl.
Proof.
  intros Hne. unfold of_session, null_usernames. apply filter_map_fix.
  - intros r. now destruct (_ && _).
  - intros r Hr. apply String.eqb_eq in Hr.
    destruct (String.eqb (Entity.session_name r) sn) eqn:Hs; auto.
    apply String.eqb_eq in Hs. congruence.
Qed.

Lemma of_session_evict (sn sn' u : string) (tbl : list Entity.t) :
  sn' <> sn ->
  of_session Entity.session_name sn' (evict_older_duplicates sn u tbl)
  = of_session Entity.session_name sn' tbl.
Proof.
  intros Hne. unfold evict_older_duplicates.
  destruct (Nat.ltb 1 _); auto.
  destruct (map fst _); auto using of_session_null_usernames.
Qed.

Lemma of_session_merge_entity (sn' : string) (e : Entity.t)
  (tbl : list Entity.t) :
  sn' <> Entity.session_name e ->
  of_session Entity.session_name sn' (merge_entity e tbl)
  = of_session Entity.session_name sn' tbl.
Proof.
  intros Hne. unfold of_session, merge_entity. apply filter_merge_other.
  - now apply String.eqb_neq.
  - intros x Hx. apply entity_key_eqb_true in Hx. inversion Hx as [[Hs Hi]].
    apply String.eqb_neq. congruence.
Qed.

Lemma of_session_process_row (sn sn' : string) (now_ts : Z)
  (tbl : list Entity.t) (x : row) :
  sn' <> sn ->
  of_session Entity.session_name sn' (process_row sn now_ts tbl x)
  = of_session Entity.session_name sn' tbl.
Proof.
  intros Hne. destruct x as [[[[i h] u] p] n]. unfold process_row.
  destruct u as [u|]; [destruct (truthy (Some u))|];
    try rewrite of_session_evict by auto;
    now apply of_session_merge_entity.
Qed.

Lemma of_session_migrate_entity_row (sn sn' : string) (now_ts : Z)
  (tbl : list Entity.t)
  (x : Z * Z * option string * option string * option string * option Z) :
  sn' <> sn ->
  of_session Entity.session_name sn' (migrate_entity_row sn now_ts tbl x)
  = of_session Entity.session_name sn' tbl.
Proof.
  intros Hne. destruct x as [[[[[i h] u] p] n] d]. unfold migrate_entity_row.
  destruct u as [u|]; [destruct (truthy (Some u))|];
    try rewrite of_session_evict by auto;
    now apply of_session_merge_entity.
Qed.

Lemma of_session_update_session_row (sn' : string) (self : SQLAlchemySession)
  (st : Store) :
  sn' <> session_name self ->
  session_view sn' (_update_session_row self st) = session_view sn' st.
Proof.
  intros Hne. unfold session_view, _update_session_row. simpl.
  do 3 f_equal. unfold of_session. apply filter_merge_other.
  - now apply String.eqb_neq.
  - intros x Hx. apply session_key_eqb_true in Hx.
    apply String.eqb_neq. congruence.
Qed.

Lemma session_view_process_entities (sn' : string) (self : SQLAlchemySession)
  (now_ts : Z) (rows : list row) (st : Store) :
  sn' <> session_name self ->
  session_view sn' (process_entities self now_ts rows st) = session_view sn' st.
Proof.
  intros Hne. unfold process_entities.
  destruct (negb (save_entities self)); auto.
  destruct rows as [|x rows]; auto.
  unfold session_view, set_entities. cbn [sessions entities update_state sent_files].
  do 3 f_equal.
  apply (fold_process_row_inv
           (fun tbl => of_session Entity.session_name sn' tbl
                       = of_session Entity.session_name sn' (entities st))); auto.
  intros tbl y Hy. now rewrite of_session_process_row.
Qed.

Lemma session_view_by_username (sn' : string) (self : SQLAlchemySession)
  (u : string) (st : Store) :
  sn' <> session_name self ->
  session_view sn' (snd (get_entity_rows_by_username self u st))
  = session_view sn' st.
Proof.
  intros Hne. unfold get_entity_rows_by_username.
  destruct (map _ _) as [|t0 ts]; auto.
  destruct (Nat.ltb 1 _); auto. simpl snd.
  destruct (map _ (removelast _)); auto.
  unfold session_view, set_entities. cbn [sessions entities update_state sent_files].
  do 3 f_equal. now apply of_session_null_usernames.
Qed.

Lemma session_view_set_update_state (sn' : string) (self : SQLAlchemySession)
  (i : Z) (state : State.t) (st : Store) :
  sn' <> session_name self ->
  session_view sn' (set_update_state self i state st) = session_view sn' st.
Proof.
  intros Hne. unfold session_view, set_update_state. simpl.
  do 2 f_equal. unfold of_session. apply filter_merge_other.
  - now apply String.eqb_neq.
  - intros x Hx. apply update_state_key_eqb_true in Hx.
    inversion Hx. apply String.eqb_neq. congruence.
Qed.

Lemma session_view_cache_file (sn' : string) (self : SQLAlchemySession)
  (md5 : bytes) (size : Z) (inst : instance) (st : Store) :
  sn' <> session_name self ->
  session_view sn' (snd (cache_file self md5 size inst st)) = session_view sn' st.
Proof.
  intros Hne.
  destruct inst; simpl; auto; unfold session_view; simpl; f_equal;
    unfold of_session; apply filter_merge_other;
    try (now apply String.eqb_neq);
    intros x Hx; apply sent_file_key_eqb_true in Hx;
    destruct Hx as [Hx _]; apply String.eqb_neq; congruence.
Qed.

Lemma session_view_delete (sn' : string) (self : SQLAlchemySession) (st : Store) :
  sn' <> session_name self ->
  session_view sn' (delete self st) = session_view sn' st.
Proof.
  intros Hne. unfold session_view, delete, of_session.
  cbn [sessions entities update_state sent_files].
  rewrite !filter_delete_where; auto; intros r; apply eqb_other; auto.
Qed.

Lemma session_view_ensure_schema (sn' : string) (db : option Store) :
  session_view sn' (_ensure_schema db) = session_view sn' (store_of db).
Proof.
  destruct (ensure_schema_tables db) as (Hs & He & Hu & Hf).
  unfold session_view. now rewrite Hs, He, Hu, Hf.
Qed.

Lemma session_view_init (sn' sn : string) (db : option Store) :
  sn' <> sn ->
  session_view sn' (snd (__init__ db sn)) = session_view sn' (store_of db).
Proof.
  intros Hne. rewrite <- session_view_ensure_schema.
  unfold __init__, _load_existing_session. simpl session_name.
  destruct (first _ (sessions (_ensure_schema db))); simpl; auto.
  unfold session_view. simpl. do 3 f_equal.
  unfold of_session. apply filter_merge_other.
  - now apply String.eqb_neq.
  - intros x Hx. apply session_key_eqb_true in Hx.
    apply String.eqb_neq. congruence.
Qed.

(** Every step of the replay keeps a property of the store that the writers
    keep when they act for session [sn]. *)
Lemma replay_session_inv (sn : string) (P : Store -> Prop) (env : Env)
  (legacy : LegacyDb) :
  (forall self st,
      session_name self = sn -> P st -> P (_update_session_row self st)) ->
  (forall now_ts rows st,
      P st ->
      P (set_entities st
           (fold_left (migrate_entity_row sn now_ts) rows (entities st)))) ->
  (forall self i state st,
      session_name self = sn -> P st -> P (set_update_state self i state st)) ->
  preserves (fun d : dst_state => session_name (fst d) = sn /\ P (snd d))
    (replay env legacy).
Proof.
  intros Hrow Hent Hcur.
  set (Q := fun d : dst_state => session_name (fst d) = sn /\ P (snd d)).
  assert (Hsess : forall f,
             (forall self st, session_name (fst (f self st)) = session_name self) ->
             (forall self st, session_name self = sn -> P st ->
                              P (snd (f self st))) ->
             preserves Q (on_session f)).
  { intros f H1 H2. apply preserves_modify. intros [self st] [Hn HP].
    split; simpl in *; [now rewrite H1|now apply H2]. }
  assert (Hstore : forall f,
             (forall self st, session_name self = sn -> P st -> P (f self st)) ->
             preserves Q (on_store f)).
  { intros f H1. apply preserves_modify. intros [self st] [Hn HP].
    split; simpl in *; auto. }
  unfold replay.
  apply preserves_bind; [|intros _; apply preserves_bind;
                           [|intros _; apply preserves_bind; [|intros _]]].
  - unfold replay_session_record.
    destruct (legacy_sessions legacy) as [rows|]; [|apply preserves_raise].
    destruct rows as [|[[[[dc addr] port] key] tk] rest];
      [apply preserves_ret|].
    apply preserves_bind; [|intros _; apply preserves_bind; [|intros _]].
    + apply Hsess; auto. intros; simpl; now apply Hrow.
    + destruct (nonempty_bytes key); [|apply preserves_ret].
      apply Hsess; auto. intros; simpl; now apply Hrow.
    + apply Hsess; auto. intros; simpl; now apply Hrow.
  - unfold replay_entities.
    destruct (match legacy_entities legacy with Some rs => rs | None => [] end);
      [apply preserves_ret|].
    destruct (entity_module_importable env); [|apply preserves_raise].
    apply Hstore. intros self st Hn HP. rewrite Hn. now apply Hent.
  - unfold replay_update_state. apply preserves_for_each.
    intros [[[[eid pts] qts] date] seq].
    destruct date as [z|]; [|apply preserves_raise].
    destruct (fromtimestamp_error env z); [apply preserves_raise|].
    apply Hstore. intros; now apply Hcur.
  - apply preserves_replay_sent_files.
Qed.

(** X5: an operation carried out for one session leaves the rows of every
    other session, in all four tables, exactly as they were. *)
Theorem writers_touch_only_their_session (self : SQLAlchemySession)
  (st : Store) (sn' : string) :
  sn' <> session_name self ->
  session_view sn' (snd (__init__ (Some st) (session_name self)))
  = session_view sn' st /\
  (forall dc addr port,
      session_view sn' (snd (set_dc dc addr port self st)) = session_view sn' st) /\
  (forall key,
      session_view sn' (snd (set_auth_key key self st)) = session_view sn' st) /\
  (forall tk,
      session_view sn' (snd (set_takeout_id tk self st)) = session_view sn' st) /\
  (forall now_ts rows,
      session_view sn' (process_entities self now_ts rows st)
      = session_view sn' st) /\
  (forall u,
      session_view sn' (snd (get_entity_rows_by_username self u st))
      = session_view sn' st) /\
  (forall i state,
      session_view sn' (set_update_state self i state st) = session_view sn' st) /\
  (forall md5 size inst,
      session_view sn' (snd (cache_file self md5 size inst st))
      = session_view sn' st) /\
  session_view sn' (delete self st) = session_view sn' st.
Proof.
  intros Hne.
  split. { now apply (session_view_init sn' _ (Some st)). }
  split. { intros. simpl. now apply of_session_update_session_row. }
  split. { intros. simpl. now apply of_session_update_session_row. }
  split. { intros. simpl. now apply of_session_update_session_row. }
  split. { intros. now apply session_view_process_entities. }
  split. { intros. now apply session_view_by_username. }
  split. { intros. now apply session_view_set_update_state. }
  split. { intros. now apply session_view_cache_file. }
  now apply session_view_delete.
Qed.

Lemma init_session_name (db : option Store) (sn : string) :
  session_name (fst (__init__ db sn)) = sn.
Proof.
  unfold __init__, _load_existing_session.
  destruct (first _ (sessions (_ensure_schema db))); reflexivity.
Qed.

(** X6: migrating a legacy file changes no row of any session other than the
    one it is replayed under, whether the migration returns or raises. *)
Theorem migrate_touches_only_its_session (env : Env) (sqlite_path : string)
  (name : option string) (db : option Store) (sn' : string) :
  sn' <> derive_session_name sqlite_path name ->
  session_view sn'
    (store_of (snd (migrate_sqlite_to_sqlalchemy env sqlite_path name db)))
  = session_view sn' (store_of db).
Proof.
  intros Hne. unfold migrate_sqlite_to_sqlalchemy. cbv zeta.
  destruct (open_path env sqlite_path) as [| | |legacy];
    [reflexivity|reflexivity|simpl; now apply session_view_init|].
  set (sn := derive_session_name sqlite_path name) in *.
  assert (Hrun : preserves
                   (fun d : dst_state =>
                      session_name (fst d) = sn /\
                      session_view sn' (snd d) = session_view sn' (store_of db))
                   (replay env legacy)).
  { apply (replay_session_inv sn
             (fun s => session_view sn' s = session_view sn' (store_of db))).
    - intros self st Hn HP. rewrite of_session_update_session_row; congruence.
    - intros now_ts rows st HP. rewrite <- HP.
      unfold session_view, set_entities.
      cbn [sessions entities update_state sent_files]. do 3 f_equal.
      apply (fold_migrate_entity_row_inv
               (fun tbl => of_session Entity.session_name sn' tbl
                           = of_session Entity.session_name sn' (entities st)));
        auto.
      intros tbl y Hy. now rewrite of_session_migrate_entity_row.
    - intros self i state st Hn HP.
      rewrite session_view_set_update_state; congruence. }
  specialize (Hrun (__init__ db sn)).
  destruct (replay env legacy (__init__ db sn)) as [r [self st]].
  simpl. apply Hrun. split.
  - apply init_session_name.
  - now apply session_view_init.
Qed.

(** ** Reading after deleting, cursors *)

Lemma first_delete_where {A : Type} (p q : A -> bool) (tbl : list A) :
  (forall x, p x = true -> q x = true) -> first p (delete_where q tbl) = None.
Proof.
  intros Hpq. unfold first, delete_where.
  induction tbl as [|x tbl IH]; simpl; auto.
  destruct (q x) eqn:Hq; simpl; auto.
  destruct (p x) eqn:Hp; auto. rewrite (Hpq x Hp) in Hq. discriminate.
Qed.

Lemma andb_true_l (a b : bool) : a && b = true -> a = true.
Proof. now destruct a. Qed.

(** X7: once a session is deleted, every lookup made for it finds nothing
    (cursor, cursor list, cached file, entity by phone, name, id or
    username), and opening the name again starts from the default record. *)
Theorem delete_forgets_session (self : SQLAlchemySession) (st : Store) :
  let sn := session_name self in
  let st' := delete self st in
  (forall i, get_update_state self i st' = None) /\
  get_update_states self st' = [] /\
  (forall md5 size cls, get_file self md5 size cls st' = Ok None) /\
  (forall phone, get_entity_rows_by_phone self phone st' = None) /\
  (forall name, get_entity_rows_by_name self name st' = None) /\
  (forall i, get_entity_rows_by_id self i st' = None) /\
  (forall u, get_entity_rows_by_username self u st' = (None, st')) /\
  reopen st' sn = default_session sn /\
  sessions (snd (__init__ (Some st') sn))
  = sessions st' ++ [default_session_row sn].
Proof.
  intros sn st'.
  assert (Hent : forall p : Entity.t -> bool,
             (forall x, p x = true -> String.eqb (Entity.session_name x) sn = true) ->
             first p (entities st') = None).
  { intros p Hp. unfold st', delete. simpl. now apply first_delete_where. }
  assert (Hsess : first (session_key_eqb sn) (sessions st') = None).
  { unfold st', delete. simpl. now apply first_delete_where. }
  split; [|split; [|split; [|split; [|split; [|split; [|split; [|split]]]]]]].
  - intros i. unfold get_update_state, st', delete. simpl.
    rewrite first_delete_where; auto. intros x. apply andb_true_l.
  - unfold get_update_states, st', delete. simpl. fold sn.
    now rewrite (filter_delete_where_same
                   (fun r => String.eqb (UpdateState.session_name r) sn)).
  - intros md5 size cls. unfold get_file, st', delete. simpl.
    rewrite first_delete_where; auto.
    intros x Hx. apply sent_file_key_eqb_true in Hx.
    apply String.eqb_eq. tauto.
  - intros phone. unfold get_entity_rows_by_phone.
    rewrite Hent; auto. intros x. apply andb_true_l.
  - intros name. unfold get_entity_rows_by_name.
    rewrite Hent; auto. intros x. apply andb_true_l.
  - intros i. unfold get_entity_rows_by_id.
    rewrite Hent; auto. intros x. apply andb_true_l.
  - intros u. unfold get_entity_rows_by_username.
    assert (Hnone : filter (holds_username sn u) (entities st') = []).
    { destruct (filter (holds_username sn u) (entities st')) as [|x l] eqn:Hf;
        auto.
      assert (Hx : In x (filter (holds_username sn u) (entities st')))
        by (rewrite Hf; now left).
      apply filter_In in Hx. destruct Hx as [Hin Hh].
      assert (Hn := Hent (holds_username sn u)
                      (fun y => andb_true_l _ _)).
      unfold first in Hn. apply (find_none _ _ Hn) in Hin. congruence. }
    fold sn. now rewrite Hnone.
  - unfold reopen, __init__, _load_existing_session.
    rewrite sessions_ensure_schema. simpl store_of. simpl session_name.
    now rewrite Hsess.
  - unfold __init__, _load_existing_session.
    rewrite sessions_ensure_schema. simpl store_of. simpl session_name.
    rewrite Hsess. cbn [snd sessions set_sessions].
    now apply merge_no_match.
Qed.

(** X8: writing a cursor changes the answer for no other (session, source
    id): every other cursor reads as before. *)
Theorem set_update_state_other_keys (self self' : SQLAlchemySession)
  (i i' : Z) (state : State.t) (st : Store) :
  (session_name self', i') <> (session_name self, i) ->
  get_update_state self' i' (set_update_state self i state st)
  = get_update_state self' i' st.
Proof.
  intros Hne. unfold get_update_state, set_update_state. simpl.
  rewrite first_merge_other; auto.
  - destruct (update_state_key_eqb _ _ _) eqn:Hk; auto.
    apply update_state_key_eqb_true in Hk. unfold update_state_key in Hk.
    simpl in Hk. now elim Hne.
  - intros x Hx. apply update_state_key_eqb_true in Hx.
    destruct (update_state_key_eqb _ i' x) eqn:Hk; auto.
    apply update_state_key_eqb_true in Hk. elim Hne. congruence.
Qed.

(** X9: [get_update_states] and [get_update_state] agree: a pair
    [(id, state)] is listed for the session exactly when reading the cursor
    [id] returns [state]; and a cursor just written is listed. *)
Theorem get_update_states_agree (self : SQLAlchemySession) (st : Store) :
  NoDup (map update_state_key (update_state st)) ->
  (forall i s,
      In (i, s) (get_update_states self st)
      <-> get_update_state self i st = Some s) /\
  (forall i state,
      In (i, State.mk (State.pts state) (State.qts state)
               (date_of_column
                  (match State.date state with
                   | Some d => Some (timestamp d)
                   | None => None
                   end))
               (State.seq state) 0%Z)
        (get_update_states self (set_update_state self i state st))).
Proof.
  intros Hpk. split.
  - intros i s. unfold get_update_states, get_update_state.
    rewrite in_map_iff. split.
    + intros [r [Hr Hin]]. apply filter_In in Hin. destruct Hin as [Hin Hs].
      inversion Hr; subst i s. clear Hr.
      assert (Hk : update_state_key_eqb (session_name self) (UpdateState.id r) r
                   = true).
      { unfold update_state_key_eqb. now rewrite Hs, Z.eqb_refl. }
      rewrite (first_sole _ _ r Hin Hk); auto.
      intros r' Hin' Hk'. apply update_state_key_eqb_true in Hk, Hk'.
      clear Hs. revert Hin Hin' Hk Hk'. generalize (update_state st) Hpk.
      clear. induction l as [|x l IH]; simpl; [tauto|].
      intros Hnd H1 H2 Hk Hk'. inversion Hnd as [|? ? Hnot Hl]; subst.
      destruct H1 as [<-|H1], H2 as [<-|H2]; auto.
      * exfalso. apply Hnot. rewrite Hk, <- Hk'. now apply in_map.
      * exfalso. apply Hnot. rewrite Hk', <- Hk. now apply in_map.
    + destruct (first _ (update_state st)) as [r|] eqn:Hf; [|discriminate].
      intros Hs. inversion Hs; subst s. clear Hs.
      unfold first in Hf. apply find_some in Hf. destruct Hf as [Hin Hk].
      exists r. split.
      * f_equal. apply update_state_key_eqb_true in Hk. now inversion Hk.
      * apply filter_In. split; auto. now apply andb_true_l in Hk.
  - intros i state. unfold get_update_states, set_update_state. simpl.
    apply in_map_iff.
    exists (UpdateState.mk (session_name self) i (State.pts state)
              (State.qts state)
              (match State.date state with
               | Some d => Some (timestamp d)
               | None => None
               end) (State.seq state)).
    split; [reflexivity|]. apply filter_In. split.
    + apply merge_In_obj.
    + simpl. apply String.eqb_refl.
Qed.

(** ** The stable sort *)

Section SortBy.
Context {A : Type}.
Variable le : A -> A -> bool.
Hypothesis le_total : forall a b, le a b = false -> le b a = true.
Hypothesis le_trans : forall a b c, le a b = true -> le b c = true -> le a c = true.

Lemma insert_by_perm (x : A) (l : list A) :
  Permutation (insert_by le x l) (x :: l).
Proof.
  induction l as [|y l IH]; simpl; auto.
  destruct (le x y); auto. rewrite IH. apply perm_swap.
Qed.

Lemma sort_by_perm (l : list A) : Permutation (sort_by le l) l.
Proof.
  induction l as [|x l IH]; simpl; auto.
  rewrite insert_by_perm. now constructor.
Qed.

Lemma insert_by_sorted (x : A) (l : list A) :
  StronglySorted (fun a b => le a b = true) l ->
  StronglySorted (fun a b => le a b = true) (insert_by le x l).
Proof.
  induction 1 as [|y l Hs IH Hall]; simpl.
  - repeat constructor.
  - destruct (le x y) eqn:Hxy.
    + constructor; [now constructor|]. constructor; auto.
      eapply Forall_impl; [|exact Hall]. intros z Hz. now apply (le_trans x y z).
    + constructor; auto. apply Forall_forall. intros z Hz.
      apply (Permutation_in _ (insert_by_perm x l)) in Hz.
      destruct Hz as [<-|Hz]; [now apply le_total|].
      rewrite Forall_forall in Hall. auto.
Qed.

Lemma sort_by_sorted (l : list A) :
  StronglySorted (fun a b => le a b = true) (sort_by le l).
Proof.
  induction l as [|x l IH]; simpl; [constructor|].
  now apply insert_by_sorted.
Qed.
End SortBy.

Lemma by_date_or_0_total (a b : Z * Z * option Z) :
  by_date_or_0 a b = false -> by_date_or_0 b a = true.
Proof. unfold by_date_or_0. rewrite Z.leb_gt, Z.leb_le. lia. Qed.

Lemma by_date_or_0_trans (a b c : Z * Z * option Z) :
  by_date_or_0 a b = true -> by_date_or_0 b c = true -> by_date_or_0 a c = true.
Proof. unfold by_date_or_0. rewrite !Z.leb_le. lia. Qed.

(** ** Clearing all holders of a username but one *)

(** When the ids to clear are those of all holders but [lst], the one holder
    left is the row that [lst] was read from. *)
Lemma null_all_but_last {T : Type} (proj : Entity.t -> T) (idof : T -> Z)
  (sn u : string) (tbl : list Entity.t) (front : list T) (lst : T) :
  (forall r, idof (proj r) = Entity.id r) ->
  pk_entities tbl ->
  Permutation (front ++ [lst]) (map proj (filter (holds_username sn u) tbl)) ->
  exists r,
    In r tbl /\ holds_username sn u r = true /\ proj r = lst /\
    filter (holds_username sn u) (null_usernames sn (map idof front) tbl) = [r].
Proof.
  intros Hid Hpk Hperm.
  assert (Hlst : In lst (map proj (filter (holds_username sn u) tbl))).
  { apply (Permutation_in _ Hperm). apply in_or_app. right. now left. }
  apply in_map_iff in Hlst. destruct Hlst as [r [Hproj Hr]].
  apply filter_In in Hr. destruct Hr as [Hin Hh].
  exists r. split; [exact Hin|]. split; [exact Hh|]. split; [exact Hproj|].
  assert (Hids : NoDup (map idof (front ++ [lst]))).
  { eapply Permutation_NoDup.
    - apply Permutation_sym, Permutation_map, Hperm.
    - rewrite map_map. rewrite (map_ext _ Entity.id) by apply Hid.
      now apply pk_holder_ids. }
  rewrite map_app in Hids. simpl in Hids.
  apply NoDup_remove_2 in Hids. rewrite app_nil_r in Hids.
  rewrite <- Hproj, Hid in Hids.
  assert (Hs := proj1 (proj1 (holds_username_true _ _ _) Hh)).
  assert (Hpk' := pk_null_usernames sn (map idof front) tbl Hpk).
  assert (Hkept : In r (null_usernames sn (map idof front) tbl)).
  { unfold null_usernames. apply in_map_iff. exists r. split; auto.
    destruct (existsb _ _) eqn:He; [|now rewrite andb_false_r].
    apply existsb_Zeqb in He. now elim Hids. }
  rewrite <- (pk_count_one sn (Entity.id r) _ r Hpk' Hkept)
    by (unfold entity_key; now rewrite Hs).
  apply filter_ext_in. intros x' Hx'.
  destruct (holds_username sn u x') eqn:Hhx.
  - symmetry. apply entity_key_eqb_true.
    unfold null_usernames in Hx'. apply in_map_iff in Hx'.
    destruct Hx' as [x [Hfx Hx]].
    destruct (String.eqb (Entity.session_name x) sn
              && existsb (Z.eqb (Entity.id x)) (map idof front)) eqn:Hc.
    + subst x'. apply holds_username_true in Hhx. destruct Hhx; discriminate.
    + subst x'. assert (Hxs := proj1 (proj1 (holds_username_true _ _ _) Hhx)).
      rewrite (proj2 (String.eqb_eq _ _) Hxs) in Hc. simpl in Hc.
      assert (Hpx : In (proj x) (front ++ [lst])).
      { apply (Permutation_in _ (Permutation_sym Hperm)).
        apply in_map. apply filter_In. auto. }
      apply in_app_or in Hpx. destruct Hpx as [Hf|[Hl|[]]].
      * exfalso.
        assert (existsb (Z.eqb (Entity.id x)) (map idof front) = true).
        { apply existsb_Zeqb. rewrite <- Hid. now apply in_map. }
        congruence.
      * unfold entity_key. rewrite Hxs. f_equal.
        rewrite <- (Hid x), <- Hl, <- Hproj. apply Hid.
  - destruct (entity_key_eqb sn (Entity.id r) x') eqn:Hk; auto.
    apply entity_key_eqb_true in Hk.
    assert (x' = r).
    { apply (pk_inj _ _ _ Hpk' Hx' Hkept). unfold entity_key. now rewrite Hs. }
    subst x'. congruence.
Qed.

Lemma filter_length_le_1 {A : Type} (p : A -> bool) (l : list A) :
  (List.length (filter p l) <= 1)%nat ->
  filter p l = [] \/ exists r, filter p l = [r].
Proof.
  destruct (filter p l) as [|r [|r' l']]; simpl; eauto. lia.
Qed.

Lemma select_dups_length (sn u : string) (tbl : list Entity.t) :
  List.length (select_dups sn u tbl)
  = List.length (filter (holds_username sn u) tbl).
Proof.
  unfold select_dups.
  rewrite (Permutation_length (order_by_date_perm _)). apply length_map.
Qed.

(** X10: when a username has holders in a session, the duplicate pass leaves
    it on exactly one of them, a holder whose date is the latest (no date
    being the earliest), and running the pass again changes nothing. *)
Theorem evict_keeps_most_recent (sn u : string) (tbl : list Entity.t) :
  pk_entities tbl ->
  holders sn u tbl <> [] ->
  exists r,
    In r (holders sn u tbl) /\
    holders sn u (evict_older_duplicates sn u tbl) = [r] /\
    (forall r', In r' (holders sn u tbl) ->
                date_le (Entity.date r') (Entity.date r) = true) /\
    evict_older_duplicates sn u (evict_older_duplicates sn u tbl)
    = evict_older_duplicates sn u tbl.
Proof.
  intros Hpk Hne. unfold holders in *.
  assert (Hagain : forall t r,
             filter (holds_username sn u) t = [r] ->
             evict_older_duplicates sn u t = t).
  { intros t r Ht. unfold evict_older_duplicates.
    rewrite select_dups_length, Ht. reflexivity. }
  destruct (Nat.ltb 1 (List.length (select_dups sn u tbl))) eqn:Hlen.
  - assert (Hdne : select_dups sn u tbl <> []).
    { intros E. rewrite E in Hlen. discriminate. }
    destruct (exists_last Hdne) as [front [lst Hsplit]].
    assert (Hev : evict_older_duplicates sn u tbl
                  = null_usernames sn (map fst front) tbl).
    { unfold evict_older_duplicates. cbv zeta.
      rewrite Hlen, Hsplit, removelast_last.
      destruct (map fst front) as [|i0 ids] eqn:Hfront; auto.
      destruct front; [|discriminate]. rewrite Hsplit in Hlen. discriminate. }
    rewrite Hev.
    assert (Hperm : Permutation (front ++ [lst])
                      (map (fun r => (Entity.id r, Entity.date r))
                         (filter (holds_username sn u) tbl))).
    { rewrite <- Hsplit. apply order_by_date_perm. }
    destruct (null_all_but_last (fun r => (Entity.id r, Entity.date r)) fst
                sn u tbl front lst (fun r => eq_refl) Hpk Hperm)
      as [r [Hin [Hh [Hproj Hone]]]].
    exists r. split; [apply filter_In; auto|]. split; [exact Hone|]. split.
    + intros r' Hr'.
      assert (Hsorted := order_by_date_strongly_sorted
                (map (fun r => (Entity.id r, Entity.date r))
                   (filter (holds_username sn u) tbl))).
      fold (select_dups sn u tbl) in Hsorted. rewrite Hsplit in Hsorted.
      assert (Hd : In (Entity.id r', Entity.date r') (front ++ [lst])).
      { apply (Permutation_in _ (Permutation_sym Hperm)).
        now apply (in_map (fun r => (Entity.id r, Entity.date r))). }
      apply in_app_or in Hd. destruct Hd as [Hf|[Hl|[]]].
      * apply StronglySorted_last in Hsorted.
        rewrite Forall_forall in Hsorted. specialize (Hsorted _ Hf).
        rewrite <- Hproj in Hsorted. exact Hsorted.
      * rewrite <- Hproj in Hl. inversion Hl. apply date_le_refl.
    + now apply (Hagain _ r).
  - assert (Hev : evict_older_duplicates sn u tbl = tbl).
    { unfold evict_older_duplicates. cbv zeta. now rewrite Hlen. }
    rewrite Hev.
    rewrite select_dups_length in Hlen. apply Nat.ltb_ge in Hlen.
    destruct (filter_length_le_1 _ _ Hlen) as [E|[r E]]; [now elim Hne|].
    exists r. rewrite E. split; [now left|]. split; [reflexivity|]. split.
    + intros r' [<-|[]]. apply date_le_refl.
    + exact Hev.
Qed.

(** ** Lookup by username *)

Lemma by_username_none (self : SQLAlchemySession) (u : string) (st : Store) :
  filter (holds_username (session_name self) u) (entities st) = [] ->
  get_entity_rows_by_username self u st = (None, st).
Proof. intros H. unfold get_entity_rows_by_username. now rewrite H. Qed.

Lemma by_username_single (self : SQLAlchemySession) (u : string) (st : Store)
  (r : Entity.t) :
  filter (holds_username (session_name self) u) (entities st) = [r] ->
  get_entity_rows_by_username self u st
  = (Some (Entity.id r, Entity.hash r), st).
Proof. intros H. unfold get_entity_rows_by_username. now rewrite H. Qed.

Lemma by_username_many (self : SQLAlchemySession) (u : string) (st : Store)
  (r1 r2 : Entity.t) (l : list Entity.t) :
  filter (holds_username (session_name self) u) (entities st) = r1 :: r2 :: l ->
  get_entity_rows_by_username self u st
  = (Some (fst (fst (last (sort_by by_date_or_0 (map proj3 (r1 :: r2 :: l)))
                       (proj3 r1))),
           snd (fst (last (sort_by by_date_or_0 (map proj3 (r1 :: r2 :: l)))
                       (proj3 r1)))),
     match map (fun t : Z * Z * option Z => fst (fst t))
             (removelast (sort_by by_date_or_0 (map proj3 (r1 :: r2 :: l)))) with
     | [] => st
     | i :: ids =>
         set_entities st
           (null_usernames (session_name self) (i :: ids) (entities st))
     end).
Proof.
  intros H. unfold get_entity_rows_by_username. rewrite H.
  change (map (fun r => (Entity.id r, Entity.hash r, Entity.date r)))
    with (map proj3).
  set (results := map proj3 (r1 :: r2 :: l)).
  change (map proj3 (r1 :: r2 :: l))
    with (proj3 r1 :: proj3 r2 :: map proj3 l) in results.
  unfold results at 1 2. cbv iota. cbn [List.length Nat.ltb Nat.leb].
  fold results. destruct (map _ (removelast _)); reflexivity.
Qed.

(** X11: [get_entity_rows_by_username] answers nothing when no row of the
    session has the username, and the sole holder when there is one, without
    writing.  When several rows have it, the answer is a holder with the
    greatest date (no date counting as 0), and after the call that row is
    the only holder: the others keep every field but the username.  Asking
    again gives the same answer and writes nothing. *)
Theorem get_entity_rows_by_username_repairs (self : SQLAlchemySession)
  (u : string) (st : Store) :
  pk_entities (entities st) ->
  let sn := session_name self in
  let res := fst (get_entity_rows_by_username self u st) in
  let st' := snd (get_entity_rows_by_username self u st) in
  (holders sn u (entities st) = [] -> res = None /\ st' = st) /\
  (forall r,
      holders sn u (entities st) = [r] ->
      res = Some (Entity.id r, Entity.hash r) /\ st' = st) /\
  (holders sn u (entities st) <> [] ->
   exists r,
     In r (holders sn u (entities st)) /\
     res = Some (Entity.id r, Entity.hash r) /\
     holders sn u (entities st') = [r] /\
     (forall r', In r' (holders sn u (entities st)) ->
                 (date_or_0 (Entity.date r') <= date_or_0 (Entity.date r))%Z)) /\
  Forall2 (evicted sn u) (entities st) (entities st') /\
  get_entity_rows_by_username self u st' = (res, st') /\
  sessions st' = sessions st /\ update_state st' = update_state st /\
  sent_files st' = sent_files st /\ version st' = version st.
Proof.
  intros Hpk sn res st'. unfold holders. subst res st'.
  destruct (filter (holds_username sn u) (entities st))
    as [|r1 [|r2 l]] eqn:HH.
  - rewrite (by_username_none self u st HH). simpl.
    split; [auto|]. split; [discriminate|]. split; [tauto|].
    split; [apply Forall2_kept|]. split; [now apply by_username_none|]. auto.
  - rewrite (by_username_single self u st r1 HH). simpl.
    split; [discriminate|]. split; [intros r E; inversion E; auto|].
    split.
    { intros _. exists r1. split; [now left|]. split; [reflexivity|].
      split; [exact HH|]. intros r' [<-|[]]. lia. }
    split; [apply Forall2_kept|]. split; [now apply by_username_single|]. auto.
  - rewrite (by_username_many self u st r1 r2 l HH).
    set (results := sort_by by_date_or_0 (map proj3 (r1 :: r2 :: l))).
    assert (Hperm0 : Permutation results (map proj3 (r1 :: r2 :: l)))
      by apply sort_by_perm.
    assert (Hrne : results <> []).
    { intros E. rewrite E in Hperm0. apply Permutation_length in Hperm0.
      discriminate. }
    destruct (exists_last Hrne) as [front [lst Hsplit]].
    rewrite Hsplit, removelast_last, last_last.
    assert (Hfne : front <> []).
    { intros E. rewrite Hsplit, E in Hperm0.
      apply Permutation_length in Hperm0. discriminate. }
    destruct (map (fun t : Z * Z * option Z => fst (fst t)) front)
      as [|i0 ids] eqn:Hfront.
    { destruct front; [now elim Hfne|discriminate]. }
    rewrite <- Hfront. clear Hfront i0 ids. fold sn.
    assert (Hperm : Permutation (front ++ [lst])
                      (map proj3 (filter (holds_username sn u) (entities st)))).
    { rewrite <- Hsplit, HH. exact Hperm0. }
    destruct (null_all_but_last proj3 (fun t => fst (fst t))
                sn u (entities st) front lst (fun r => eq_refl) Hpk Hperm)
      as [r [Hin [Hh [Hproj Hone]]]].
    cbn [fst snd entities set_entities sessions update_state sent_files version].
    split; [discriminate|]. split; [discriminate|].
    split.
    { intros _. exists r. split; [rewrite <- HH; apply filter_In; auto|].
      split; [now rewrite <- Hproj|]. split; [exact Hone|].
      intros r' Hr'.
      assert (Hsorted : StronglySorted (fun a b => by_date_or_0 a b = true)
                          (front ++ [lst])).
      { rewrite <- Hsplit. apply sort_by_sorted.
        - apply by_date_or_0_total.
        - apply by_date_or_0_trans. }
      assert (Hd : In (proj3 r') (front ++ [lst])).
      { apply (Permutation_in _ (Permutation_sym Hperm)).
        rewrite HH. now apply in_map. }
      apply in_app_or in Hd. destruct Hd as [Hf|[Hl|[]]].
      - apply StronglySorted_last in Hsorted.
        rewrite Forall_forall in Hsorted. specialize (Hsorted _ Hf).
        rewrite <- Hproj in Hsorted. unfold by_date_or_0 in Hsorted.
        simpl in Hsorted. now apply Z.leb_le.
      - rewrite <- Hproj in Hl. inversion Hl. lia. }
    split; [apply null_usernames_rows|].
    split; [|auto].
    rewrite (by_username_single self u _ r); [now rewrite <- Hproj|].
    exact Hone.
Qed.

(** ** Writing entities, then reading them *)

Lemma keys_process_row (sn : string) (now_ts : Z) (tbl : list Entity.t)
  (x : row) :
  map entity_key (process_row sn now_ts tbl x)
  = if existsb (entity_key_eqb sn (row_id x)) tbl
    then map entity_key tbl
    else map entity_key tbl ++ [(sn, row_id x)].
Proof.
  destruct x as [[[[i h] u] p] n]. unfold process_row, row_id.
  assert (Hm : forall e,
             Entity.session_name e = sn -> Entity.id e = i ->
             map entity_key (merge_entity e tbl)
             = if existsb (entity_key_eqb sn i) tbl
               then map entity_key tbl
               else map entity_key tbl ++ [(sn, i)]).
  { intros e Hs Hi. unfold merge_entity.
    assert (Hke : entity_key e = (sn, i))
      by (unfold entity_key; now rewrite Hs, Hi).
    rewrite Hs, Hi. rewrite (merge_keys entity_key).
    - now rewrite Hke.
    - intros y. rewrite entity_key_eqb_true. now rewrite Hke. }
  destruct u as [u|]; [destruct (truthy (Some u))|];
    try rewrite key_evict; now apply Hm.
Qed.

Lemma key_in_process_row (sn : string) (now_ts : Z) (tbl : list Entity.t)
  (x : row) :
  In (sn, row_id x) (map entity_key (process_row sn now_ts tbl x)).
Proof.
  rewrite keys_process_row.
  destruct (existsb _ tbl) eqn:He.
  - apply existsb_exists in He. destruct He as [r [Hr Hk]].
    apply entity_key_eqb_true in Hk. rewrite <- Hk. now apply in_map.
  - apply in_or_app. right. now left.
Qed.

Lemma keys_fold_process_row (sn : string) (now_ts : Z) (rows : list row)
  (tbl : list Entity.t) :
  exists extra,
    map entity_key (fold_left (process_row sn now_ts) rows tbl)
    = map entity_key tbl ++ extra /\
    (forall k, In k extra -> exists x, In x rows /\ k = (sn, row_id x)) /\
    (forall x, In x rows ->
               In (sn, row_id x)
                 (map entity_key (fold_left (process_row sn now_ts) rows tbl))).
Proof.
  revert tbl. induction rows as [|x rows IH]; intros tbl; simpl.
  - exists []. rewrite app_nil_r. repeat split; auto; intros ? [].
  - destruct (IH (process_row sn now_ts tbl x)) as [extra [Hk [Hfrom Hall]]].
    assert (Hx : In (sn, row_id x)
                   (map entity_key
                      (fold_left (process_row sn now_ts) rows
                         (process_row sn now_ts tbl x)))).
    { rewrite Hk. apply in_or_app. left. apply key_in_process_row. }
    rewrite keys_process_row in Hk.
    destruct (existsb _ tbl).
    + exists extra. split; [exact Hk|]. split.
      * intros k Hin. destruct (Hfrom k Hin) as [y [Hy E]]. eauto.
      * intros y [<-|Hy]; auto.
    + exists ((sn, row_id x) :: extra). split.
      * rewrite Hk, <- app_assoc. reflexivity.
      * split.
        -- intros k [<-|Hin]; eauto.
           destruct (Hfrom k Hin) as [y [Hy E]]. eauto.
        -- intros y [<-|Hy]; auto.
Qed.

(** X12: [process_entities] never removes or reorders a row: the keys of the
    table before the call are a prefix of the keys after it; what follows
    are keys of the batch under the session's name; and when entities are
    saved every row of the batch has its key in the table afterwards. *)
Theorem process_entities_keeps_rows (self : SQLAlchemySession) (now_ts : Z)
  (rows : list row) (st : Store) :
  let st' := process_entities self now_ts rows st in
  exists extra,
    map entity_key (entities st') = map entity_key (entities st) ++ extra /\
    (forall k, In k extra ->
               exists x, In x rows /\ k = (session_name self, row_id x)) /\
    (save_entities self = true ->
     forall x, In x rows ->
               In (session_name self, row_id x) (map entity_key (entities st'))).
Proof.
  unfold process_entities.
  destruct (save_entities self); simpl.
  - destruct rows as [|x0 rows0].
    + exists []. rewrite app_nil_r. split; [reflexivity|].
      split; [intros k []|intros _ x []].
    + destruct (keys_fold_process_row (session_name self) now_ts (x0 :: rows0)
                  (entities st)) as [extra [Hk [Hfrom Hall]]].
      exists extra. split; [exact Hk|]. split; auto.
  - exists []. rewrite app_nil_r. split; auto. split; [intros ? []|].
    discriminate.
Qed.

Lemma process_row_keeps_other (sn : string) (now_ts : Z) (tbl : list Entity.t)
  (x : row) (i h : Z) :
  row_id x <> i ->
  (exists r, In r tbl /\ entity_key r = (sn, i) /\ Entity.hash r = h) ->
  exists r,
    In r (process_row sn now_ts tbl x) /\ entity_key r = (sn, i) /\
    Entity.hash r = h.
Proof.
  intros Hne [r [Hin [Hk Hh]]].
  destruct x as [[[[j hj] u] p] n]. unfold row_id in Hne. unfold process_row.
  set (new := Entity.mk sn j hj u p n (Some now_ts)).
  assert (Hm : In r (merge_entity new tbl)).
  { apply In_merge_other; auto.
    destruct (entity_key_eqb _ _ r) eqn:E; auto.
    apply entity_key_eqb_true in E. simpl in E. rewrite Hk in E.
    inversion E. congruence. }
  assert (Hev : forall v,
             exists r',
               In r' (evict_older_duplicates sn v (merge_entity new tbl)) /\
               entity_key r' = (sn, i) /\ Entity.hash r' = h).
  { intros v.
    destruct (Forall2_In_l _ _ _ _ (evict_rows sn v (merge_entity new tbl)) Hm)
      as [r' [Hr' He]].
    exists r'. split; auto. apply evicted_same in He.
    destruct He as (Hs & Hi & Hhh & _). unfold entity_key in *.
    rewrite Hs, Hi, Hhh. auto. }
  destruct u as [v|]; [destruct (truthy (Some v))|]; eauto.
Qed.

Lemma fold_keeps_other (sn : string) (now_ts : Z) (post : list row) (i h : Z) :
  Forall (fun x => row_id x <> i) post ->
  forall tbl,
    (exists r, In r tbl /\ entity_key r = (sn, i) /\ Entity.hash r = h) ->
    exists r,
      In r (fold_left (process_row sn now_ts) post tbl) /\
      entity_key r = (sn, i) /\ Entity.hash r = h.
Proof.
  induction 1 as [|y post Hy _ IH]; intros tbl Htbl; simpl; auto.
  apply IH. now apply process_row_keeps_other.
Qed.

(** X13: after a batch is saved, the lookup by exact id returns, for each id
    of the batch, the id with the hash of the last row of the batch that
    carries it. *)
Theorem process_entities_then_lookup_by_id (self : SQLAlchemySession)
  (now_ts : Z) (st : Store) (pre post : list row) (i h : Z)
  (u p n : option string) :
  save_entities self = true ->
  pk_entities (entities st) ->
  Forall (fun x => row_id x <> i) post ->
  get_entity_rows_by_id self i
    (process_entities self now_ts (pre ++ (i, h, u, p, n) :: post) st)
  = Some (i, h).
Proof.
  intros Hsave Hpk Hpost.
  set (sn := session_name self).
  set (rows := pre ++ (i, h, u, p, n) :: post).
  assert (E : entities (process_entities self now_ts rows st)
              = fold_left (process_row sn now_ts) rows (entities st)).
  { unfold process_entities. rewrite Hsave. simpl.
    unfold rows. destruct pre; reflexivity. }
  assert (Hpk' : pk_entities (entities (process_entities self now_ts rows st))).
  { rewrite E. apply (fold_process_row_inv pk_entities); auto.
    intros; now apply pk_process_row. }
  assert (Hrow : exists r,
             In r (entities (process_entities self now_ts rows st)) /\
             entity_key r = (sn, i) /\ Entity.hash r = h).
  { rewrite E. unfold rows. rewrite fold_left_app. cbn [fold_left].
    apply fold_keeps_other; auto.
    assert (Hmid : pk_entities
                     (fold_left (process_row sn now_ts) pre (entities st))).
    { apply (fold_process_row_inv pk_entities); auto.
      intros; now apply pk_process_row. }
    destruct (process_row_written sn now_ts _ i h u p n Hmid)
      as [r [Hr [Hk [Hh _]]]].
    eauto. }
  destruct Hrow as [r [Hr [Hk Hh]]].
  unfold get_entity_rows_by_id. fold sn.
  rewrite first_hd_filter, (pk_count_one sn i _ r Hpk' Hr Hk). simpl.
  inversion Hk. now subst.
Qed.

(** X14: a row saved with a present username is found under that username
    right away, provided every other row of the session that has the
    username is older; the lookup writes nothing. *)
Theorem process_entities_then_lookup_by_username (self : SQLAlchemySession)
  (now_ts : Z) (st : Store) (i h : Z) (u : string) (p n : option string) :
  save_entities self = true ->
  pk_entities (entities st) ->
  u <> "" ->
  (forall r',
      In r' (entities st) -> Entity.session_name r' = session_name self ->
      Entity.username r' = Some u -> Entity.id r' <> i ->
      date_le (Some now_ts) (Entity.date r') = false) ->
  let st' := process_entities self now_ts [(i, h, Some u, p, n)] st in
  get_entity_rows_by_username self u st' = (Some (i, h), st').
Proof.
  intros Hsave Hpk Hne Holder st'.
  set (sn := session_name self) in *.
  set (new := Entity.mk sn i h (Some u) p n (Some now_ts)).
  assert (E : entities st' = process_row sn now_ts (entities st) (i, h, Some u, p, n)).
  { unfold st', process_entities. now rewrite Hsave. }
  assert (Hnew : In new (entities st')).
  { rewrite E. now apply process_row_keeps_newest. }
  assert (Hpk' : pk_entities (entities st')).
  { rewrite E. now apply pk_process_row. }
  assert (Hone : filter (holds_username sn u) (entities st') = [new]).
  { rewrite <- (pk_count_one sn i _ new Hpk' Hnew eq_refl).
    apply filter_ext_in. intros x Hx.
    assert (Hhn : holds_username sn u new = true)
      by (apply holds_username_true; split; reflexivity).
    destruct (holds_username sn u x) eqn:Hh.
    - symmetry. apply entity_key_eqb_true.
      assert (Hid : Entity.id x = Entity.id new).
      { rewrite E in Hx, Hnew. unfold process_row in Hx, Hnew.
        rewrite (proj2 (truthy_Some u) Hne) in Hx, Hnew.
        now apply (evict_unique sn u _ x new Hx Hnew). }
      apply holds_username_true in Hh. destruct Hh as [Hs _].
      unfold entity_key. now rewrite Hs, Hid.
    - destruct (entity_key_eqb sn i x) eqn:Hk; auto.
      apply entity_key_eqb_true in Hk.
      assert (x = new) by (apply (pk_inj _ _ _ Hpk' Hx Hnew); auto).
      subst x. congruence. }
  now rewrite (by_username_single self u st' new Hone).
Qed.

(** ** Outcome of a migration *)

Lemma fst_bind {S A B : Type} (m : M S A) (k : A -> M S B) (s : S) :
  fst (bind m k s)
  = match fst (m s) with
    | Ok a => fst (k a (snd (m s)))
    | Raise e => Raise e
    end.
Proof. unfold bind. destruct (m s) as [[a|e] s']; reflexivity. Qed.

Lemma snd_bind {S A B : Type} (m : M S A) (k : A -> M S B) (s : S) :
  snd (bind m k s)
  = match fst (m s) with
    | Ok a => snd (k a (snd (m s)))
    | Raise e => snd (m s)
    end.
Proof. unfold bind. destruct (m s) as [[a|e] s']; reflexivity. Qed.

Lemma replay_session_record_outcome (legacy : LegacyDb) (d : dst_state) :
  fst (replay_session_record legacy d)
  = match legacy_sessions legacy with
    | Some _ => Ok tt
    | None => Raise OperationalError
    end.
Proof.
  unfold replay_session_record.
  destruct (legacy_sessions legacy) as [[|[[[[dc addr] port] key] tk] rest]|];
    try reflexivity.
  rewrite fst_bind. simpl. rewrite fst_bind.
  destruct (nonempty_bytes key); reflexivity.
Qed.

Lemma replay_entities_outcome (env : Env) (legacy : LegacyDb) (d : dst_state) :
  fst (replay_entities env legacy d)
  = match legacy_entities legacy with
    | Some (_ :: _) =>
        if entity_module_importable env then Ok tt
        else Raise ModuleNotFoundError
    | _ => Ok tt
    end.
Proof.
  unfold replay_entities.
  destruct (legacy_entities legacy) as [[|x rows]|]; try reflexivity.
  destruct (entity_module_importable env); reflexivity.
Qed.

Lemma for_each_outcome {S A : Type} (f : A -> option exn) (xs : list A)
  (body : A -> M S unit) :
  (forall x s,
      fst (body x s) = match f x with Some e => Raise e | None => Ok tt end) ->
  forall s,
    fst (for_each xs body s)
    = match first_error f xs with Some e => Raise e | None => Ok tt end.
Proof.
  intros Hb. induction xs as [|x xs IH]; intros s; simpl; [reflexivity|].
  rewrite fst_bind, Hb. destruct (f x); [reflexivity|apply IH].
Qed.

Lemma first_error_existsb {A : Type} (p : A -> bool) (e : exn) (xs : list A) :
  first_error (fun x => if p x then Some e else None) xs
  = if existsb p xs then Some e else None.
Proof.
  induction xs as [|x xs IH]; simpl; auto. now destruct (p x).
Qed.

Lemma replay_update_state_outcome (env : Env) (legacy : LegacyDb)
  (d : dst_state) :
  fst (replay_update_state env legacy d)
  = match first_error (cursor_error env)
            (match legacy_update_state legacy with
             | Some rs => rs | None => [] end) with
    | Some e => Raise e
    | None => Ok tt
    end.
Proof.
  unfold replay_update_state. apply for_each_outcome.
  intros [[[[eid pts] qts] date] seq] s. unfold cursor_error.
  destruct date as [z|]; [|reflexivity].
  destruct (fromtimestamp_error env z); reflexivity.
Qed.

Lemma replay_sent_files_outcome (legacy : LegacyDb) (d : dst_state) :
  fst (replay_sent_files legacy d)
  = if existsb document_or_photo
         (match legacy_sent_files legacy with Some rs => rs | None => [] end)
    then Raise TypeError else Ok tt.
Proof.
  unfold replay_sent_files.
  rewrite (for_each_outcome
             (fun x => if document_or_photo x then Some TypeError else None)).
  - rewrite first_error_existsb. now destruct (existsb _ _).
  - intros [[[[md5 size] ty] fid] fh] s. unfold document_or_photo.
    destruct (Z.eqb ty (value DOCUMENT)); [reflexivity|].
    destruct (Z.eqb ty (value PHOTO)); reflexivity.
Qed.

(** X15: the outcome of migrating a legacy file that is a database is
    decided by its tables, the import of the entity module and the local
    time of the platform: [OperationalError] without a [sessions] table;
    otherwise [ModuleNotFoundError] when there are entity rows and the
    entity module cannot be imported; otherwise what the first cursor row
    that cannot be replayed raises, [TypeError] for a row without a date and
    the exception of [datetime.fromtimestamp] for a date that the local time
    cannot represent; otherwise [TypeError] when [sent_files] has a document
    or photo row; otherwise the call returns. *)
Theorem migrate_outcome (env : Env) (sqlite_path : string)
  (name : option string) (db : option Store) (legacy : LegacyDb) :
  open_path env sqlite_path = Database legacy ->
  fst (migrate_sqlite_to_sqlalchemy env sqlite_path name db)
  = migration_outcome env legacy.
Proof.
  intros Hopen. unfold migrate_sqlite_to_sqlalchemy. rewrite Hopen.
  set (d0 := __init__ db (derive_session_name sqlite_path name)).
  assert (E : fst (replay env legacy d0) = migration_outcome env legacy).
  { unfold replay, migration_outcome.
    rewrite fst_bind, replay_session_record_outcome.
    destruct (legacy_sessions legacy); [|reflexivity].
    rewrite fst_bind, replay_entities_outcome.
    destruct (legacy_entities legacy) as [[|x rows]|];
      try destruct (entity_module_importable env); try reflexivity;
      rewrite fst_bind, replay_update_state_outcome;
      destruct (first_error _ _); try reflexivity;
      apply replay_sent_files_outcome. }
  cbv zeta. destruct (replay env legacy d0) as [r [self st]]. exact E.
Qed.

(** ** Usernames written by a migration *)

(** A username found after one step of the entity replay was there before,
    or is the lowercase form of the username of the replayed row. *)
Lemma migrate_row_username (sn : string) (now_ts : Z) (tbl : list Entity.t)
  (x : Z * Z * option string * option string * option string * option Z)
  (r : Entity.t) (v : string) :
  In r (migrate_entity_row sn now_ts tbl x) -> Entity.username r = Some v ->
  In r tbl \/
  (exists h u p n d,
      x = (Entity.id r, h, Some u, p, n, d) /\ u <> "" /\ v = lower u /\
      Entity.session_name r = sn).
Proof.
  destruct x as [[[[[i h] u] p] n] d]. unfold migrate_entity_row.
  intros Hin Hv.
  set (new := Entity.mk sn i h
                (match u with
                 | Some u0 => if truthy u then Some (lower u0) else None
                 | None => None
                 end) p n
                (match d with
                 | Some d0 => if Z.eqb d0 0 then Some now_ts else Some d0
                 | None => Some now_ts
                 end)) in *.
  assert (Hm : In r (merge_entity new tbl)).
  { destruct u as [u|]; auto. destruct (truthy (Some u)); auto.
    eapply evict_In_username; eauto. }
  apply In_merge in Hm. destruct Hm as [->|Hm]; auto.
  right. unfold new in Hv. simpl in Hv.
  destruct u as [u|]; [|discriminate].
  destruct (truthy (Some u)) eqn:Ht; [|discriminate].
  inversion Hv. exists h, u, p, n, d. simpl.
  repeat split; auto. now apply truthy_Some.
Qed.

Lemma uniq_migrate_entity_row (sn : string) (now_ts : Z) (tbl : list Entity.t)
  (x : Z * Z * option string * option string * option string * option Z) :
  username_unique tbl -> username_unique (migrate_entity_row sn now_ts tbl x).
Proof.
  intros Huniq r1 r2 v H1 H2 Hs Hv1 Hv2 Hne.
  assert (Hcase : forall ra rb,
             In ra (migrate_entity_row sn now_ts tbl x) ->
             In rb (migrate_entity_row sn now_ts tbl x) ->
             Entity.session_name ra = Entity.session_name rb ->
             Entity.username ra = Some v -> Entity.username rb = Some v ->
             (exists h u p n d,
                 x = (Entity.id rb, h, Some u, p, n, d) /\ u <> "" /\
                 v = lower u /\ Entity.session_name rb = sn) ->
             Entity.id ra = Entity.id rb).
  { intros ra rb Ha Hb Hsab Hva Hvb [h [u [p [n [d [-> [Hu [-> Hsn]]]]]]]].
    unfold migrate_entity_row in Ha, Hb.
    rewrite (proj2 (truthy_Some u) Hu) in Ha, Hb.
    apply (evict_unique sn (lower u) _ ra rb Ha Hb);
      apply holds_username_true; split; congruence. }
  destruct (migrate_row_username _ _ _ _ _ _ H1 Hv1) as [Ho1|Hn1];
    destruct (migrate_row_username _ _ _ _ _ _ H2 Hv2) as [Ho2|Hn2].
  - eapply Huniq; eauto.
  - now apply Hcase.
  - symmetry. now apply Hcase.
  - now apply Hcase.
Qed.

Lemma fold_migrate_row_username (sn : string) (now_ts : Z)
  (rows : list (Z * Z * option string * option string * option string
                * option Z))
  (tbl : list Entity.t) (r : Entity.t) (v : string) :
  In r (fold_left (migrate_entity_row sn now_ts) rows tbl) ->
  Entity.username r = Some v ->
  In r tbl \/ (Entity.session_name r = sn /\ v <> "" /\ is_lower v).
Proof.
  revert tbl. induction rows as [|x rows IH]; simpl; auto.
  intros tbl Hin Hv.
  destruct (IH _ Hin Hv) as [Hold|Hnew]; auto.
  destruct (migrate_row_username _ _ _ _ _ _ Hold Hv)
    as [Ho|[h [u [p [n [d [_ [Hu [-> Hs]]]]]]]]]; auto.
  right. split; auto. split; [now apply lower_nonempty|apply lower_idem].
Qed.

(** X16: a migration keeps usernames unique.  If no present username is
    shared in the destination before, none is shared after, whether the
    migration returned or raised; and every username that the migration put
    on a row is non-empty, lowercase, and on a row of the migrated session. *)
Theorem migrate_keeps_usernames_unique (env : Env) (sqlite_path : string)
  (name : option string) (st : Store) :
  pk_entities (entities st) ->
  username_unique (entities st) ->
  let st' :=
    store_of (snd (migrate_sqlite_to_sqlalchemy env sqlite_path name (Some st))) in
  pk_entities (entities st') /\
  username_unique (entities st') /\
  (forall r v,
      In r (entities st') -> Entity.username r = Some v ->
      In r (entities st) \/
      (Entity.session_name r = derive_session_name sqlite_path name /\
       v <> "" /\ is_lower v)).
Proof.
  intros Hpk Huniq. unfold migrate_sqlite_to_sqlalchemy. cbv zeta.
  set (sn := derive_session_name sqlite_path name).
  assert (E : entities (snd (__init__ (Some st) sn)) = entities st).
  { unfold __init__, _load_existing_session.
    destruct (first _ (sessions (_ensure_schema (Some st)))); simpl;
      apply (ensure_schema_tables (Some st)). }
  destruct (open_path env sqlite_path) as [| | |legacy];
    [simpl; auto|simpl; auto|simpl; rewrite E; auto|].
  set (P := fun s : Store =>
              pk_entities (entities s) /\ username_unique (entities s) /\
              (forall r v,
                  In r (entities s) -> Entity.username r = Some v ->
                  In r (entities st) \/
                  (Entity.session_name r = sn /\ v <> "" /\ is_lower v))).
  assert (Hrun : preserves
                   (fun d : dst_state => session_name (fst d) = sn /\ P (snd d))
                   (replay env legacy)).
  { apply (replay_session_inv sn P).
    - intros self s Hn HP. exact HP.
    - intros now_ts rows s (H1 & H2 & H3). unfold P. simpl.
      split; [|split].
      + apply (fold_migrate_entity_row_inv pk_entities); auto.
        intros; now apply pk_migrate_entity_row.
      + apply (fold_migrate_entity_row_inv username_unique); auto.
        intros; now apply uniq_migrate_entity_row.
      + intros r v Hin Hv.
        destruct (fold_migrate_row_username _ _ _ _ _ _ Hin Hv)
          as [Hold|Hnew]; [eapply H3; eauto|auto].
    - intros self i state s Hn HP. exact HP. }
  specialize (Hrun (__init__ (Some st) sn)).
  destruct (replay env legacy (__init__ (Some st) sn)) as [r [self s]].
  simpl. apply Hrun. split; [apply init_session_name|].
  unfold P. rewrite E. auto.
Qed.

(** ** What a migration that returns has stored *)

Lemma bind_ok {S A B : Type} (m : M S A) (k : A -> M S B) (s s2 : S) (b : B) :
  bind m k s = (Ok b, s2) ->
  exists a s1, m s = (Ok a, s1) /\ k a s1 = (Ok b, s2).
Proof.
  unfold bind. destruct (m s) as [[a|e] s1]; [eauto|discriminate].
Qed.

Lemma replay_ok_steps (env : Env) (legacy : LegacyDb) (d0 d4 : dst_state) :
  replay env legacy d0 = (Ok tt, d4) ->
  exists d1 d2 d3,
    replay_session_record legacy d0 = (Ok tt, d1) /\
    replay_entities env legacy d1 = (Ok tt, d2) /\
    replay_update_state env legacy d2 = (Ok tt, d3) /\
    replay_sent_files legacy d3 = (Ok tt, d4).
Proof.
  unfold replay. intros H.
  apply bind_ok in H. destruct H as [[] [d1 [H1 H]]].
  apply bind_ok in H. destruct H as [[] [d2 [H2 H]]].
  apply bind_ok in H. destruct H as [[] [d3 [H3 H4]]].
  exists d1, d2, d3. auto.
Qed.

(** What the first two steps leave alone. *)
Lemma replay_session_record_keeps (sn : string) (legacy : LegacyDb)
  (d : dst_state) :
  let d' := snd (replay_session_record legacy d) in
  (session_name (fst d) = sn -> session_name (fst d') = sn) /\
  entities (snd d') = entities (snd d) /\
  update_state (snd d') = update_state (snd d) /\
  sent_files (snd d') = sent_files (snd d).
Proof.
  unfold replay_session_record.
  destruct (legacy_sessions legacy) as [[|[[[[dc addr] port] key] tk] rest]|];
    simpl; auto.
  unfold bind, on_session, modify. simpl.
  destruct (nonempty_bytes key); simpl; auto.
Qed.

Lemma replay_entities_keeps (env : Env) (legacy : LegacyDb) (d : dst_state) :
  let d' := snd (replay_entities env legacy d) in
  fst d' = fst d /\
  sessions (snd d') = sessions (snd d) /\
  update_state (snd d') = update_state (snd d) /\
  sent_files (snd d') = sent_files (snd d).
Proof.
  unfold replay_entities.
  destruct (match legacy_entities legacy with Some rs => rs | None => [] end);
    simpl; auto.
  destruct (entity_module_importable env); simpl; auto.
Qed.

Lemma replay_update_state_keeps (env : Env) (legacy : LegacyDb)
  (d : dst_state) :
  let d' := snd (replay_update_state env legacy d) in
  fst d' = fst d /\
  sessions (snd d') = sessions (snd d) /\
  entities (snd d') = entities (snd d) /\
  sent_files (snd d') = sent_files (snd d).
Proof.
  apply (preserves_for_each
           (fun d' : dst_state =>
              fst d' = fst d /\
              sessions (snd d') = sessions (snd d) /\
              entities (snd d') = entities (snd d) /\
              sent_files (snd d') = sent_files (snd d))); auto.
  intros [[[[eid pts] qts] date] seq] d0 H0.
  destruct date as [z|]; simpl; auto.
  destruct (fromtimestamp_error env z); simpl; auto.
Qed.

Lemma replay_sent_files_keeps (legacy : LegacyDb) (d : dst_state) :
  let d' := snd (replay_sent_files legacy d) in
  fst d' = fst d /\
  sessions (snd d') = sessions (snd d) /\
  entities (snd d') = entities (snd d) /\
  update_state (snd d') = update_state (snd d).
Proof. cbv zeta. rewrite replay_sent_files_unchanged. auto. Qed.

Lemma get_update_state_ext (self self' : SQLAlchemySession) (i : Z)
  (st st' : Store) :
  session_name self = session_name self' ->
  update_state st = update_state st' ->
  get_update_state self i st = get_update_state self' i st'.
Proof. intros Hn Hu. unfold get_update_state. now rewrite Hn, Hu. Qed.

Lemma get_update_state_set_same (self : SQLAlchemySession) (i : Z)
  (state : State.t) (st : Store) :
  get_update_state self i (set_update_state self i state st)
  = Some (State.mk (State.pts state) (State.qts state)
            (date_of_column
               (match State.date state with
                | Some d => Some (timestamp d)
                | None => None
                end))
            (State.seq state) 0%Z).
Proof.
  unfold get_update_state, set_update_state. simpl.
  now rewrite first_merge by apply update_state_key_eqb_refl.
Qed.

Lemma get_update_state_set_other_id (self : SQLAlchemySession) (i i' : Z)
  (state : State.t) (st : Store) :
  i' <> i ->
  get_update_state self i' (set_update_state self i state st)
  = get_update_state self i' st.
Proof.
  intros Hne. unfold get_update_state, set_update_state. simpl.
  rewrite first_merge_other; auto.
  - unfold update_state_key_eqb. simpl.
    rewrite (proj2 (Z.eqb_neq i i')) by congruence. apply andb_false_r.
  - intros x Hx. apply update_state_key_eqb_true in Hx.
    destruct (update_state_key_eqb _ i' x) eqn:Hk; auto.
    apply update_state_key_eqb_true in Hk. congruence.
Qed.

(** The cursor loop: when it returns, each row of a table without repeated
    ids reads back. *)
Lemma cursor_loop_reads_back (env : Env)
  (rows : list (Z * Z * Z * option Z * Z)) (d d' : dst_state) :
  for_each rows
    (fun '(eid, pts, qts, date, seq) =>
       match date with
       | None => raise TypeError
       | Some z =>
           match fromtimestamp_error env z with
           | Some e => raise e
           | None =>
               on_store (fun dst =>
                 set_update_state dst eid
                   (State.mk pts qts (Some (fromtimestamp z)) seq 0%Z))
           end
       end) d = (Ok tt, d') ->
  NoDup (map legacy_cursor_id rows) ->
  fst d' = fst d /\
  (forall i, ~ In i (map legacy_cursor_id rows) ->
             get_update_state (fst d) i (snd d')
             = get_update_state (fst d) i (snd d)) /\
  (forall eid pts qts date seq,
      In (eid, pts, qts, date, seq) rows ->
      get_update_state (fst d) eid (snd d')
      = Some (State.mk pts qts (date_of_column date) seq 0%Z)).
Proof.
  revert d. induction rows as [|[[[[e0 p0] q0] dt0] s0] rows IH];
    intros d Hrun Hnd; simpl in Hrun.
  - inversion Hrun; subst d'. repeat split; auto. intros ? ? ? ? ? [].
  - apply bind_ok in Hrun. destruct Hrun as [[] [d1 [H1 Hrest]]].
    destruct dt0 as [z|]; [|discriminate].
    destruct (fromtimestamp_error env z); [discriminate|].
    unfold on_store, modify in H1. inversion H1; subst d1. clear H1.
    simpl in Hnd. inversion Hnd as [|? ? Hnot Hnd']; subst.
    destruct (IH _ Hrest Hnd') as (Hf & Hframe & Hback). simpl in Hf, Hframe, Hback.
    split; [exact Hf|]. split.
    + intros i Hi.
      assert (Hi1 : i <> e0) by (intros ->; apply Hi; now left).
      assert (Hi2 : ~ In i (map legacy_cursor_id rows))
        by (intros Hc; apply Hi; now right).
      rewrite (Hframe i Hi2).
      now apply get_update_state_set_other_id.
    + intros eid pts qts date seq [E|Hin].
      * inversion E; subst. rewrite Hframe by exact Hnot.
        now rewrite get_update_state_set_same.
      * now apply Hback.
Qed.

(** X17: when a migration returns, every cursor of the legacy file reads
    back from the destination under the migrated session: position,
    secondary position and sequence as they were, the date as the store
    returns a stored date (a date of 0 as no date). *)
Theorem migrate_replays_cursors (env : Env) (sqlite_path : string)
  (name : option string) (db : option Store) (legacy : LegacyDb)
  (rows : list (Z * Z * Z * option Z * Z)) (st' : Store)
  (self : SQLAlchemySession) (eid pts qts : Z) (date : option Z) (seq : Z) :
  open_path env sqlite_path = Database legacy ->
  legacy_update_state legacy = Some rows ->
  NoDup (map legacy_cursor_id rows) ->
  migrate_sqlite_to_sqlalchemy env sqlite_path name db = (Ok tt, Some st') ->
  session_name self = derive_session_name sqlite_path name ->
  In (eid, pts, qts, date, seq) rows ->
  get_update_state self eid st'
  = Some (State.mk pts qts (date_of_column date) seq 0%Z).
Proof.
  intros Hopen Hrows Hnd Hrun Hself Hin.
  unfold migrate_sqlite_to_sqlalchemy in Hrun. rewrite Hopen in Hrun.
  set (sn := derive_session_name sqlite_path name) in *.
  destruct (replay env legacy (__init__ db sn)) as [r [self4 st4]] eqn:Hreplay.
  inversion Hrun; subst r st4. clear Hrun.
  apply replay_ok_steps in Hreplay.
  destruct Hreplay as [d1 [d2 [d3 (H1 & H2 & H3 & H4)]]].
  assert (K1 := replay_session_record_keeps sn legacy (__init__ db sn)).
  rewrite H1 in K1. simpl in K1. destruct K1 as (N1 & _).
  assert (K2 := replay_entities_keeps env legacy d1).
  rewrite H2 in K2. simpl in K2. destruct K2 as (N2 & _).
  assert (K4 := replay_sent_files_keeps legacy d3).
  rewrite H4 in K4. simpl in K4. destruct K4 as (_ & _ & _ & U4).
  unfold replay_update_state in H3. rewrite Hrows in H3.
  destruct (cursor_loop_reads_back env rows d2 d3 H3 Hnd) as (_ & _ & Hback).
  rewrite <- (Hback eid pts qts date seq Hin).
  apply get_update_state_ext; auto.
  rewrite N2, N1; auto. apply init_session_name.
Qed.

Lemma sent_files_init (db : option Store) (sn : string) :
  sent_files (snd (__init__ db sn)) = sent_files (store_of db).
Proof.
  unfold __init__, _load_existing_session.
  destruct (first _ (sessions (_ensure_schema db))); simpl;
    apply (ensure_schema_tables db).
Qed.

Lemma get_file_ext (self self' : SQLAlchemySession) (md5 : bytes) (size : Z)
  (cls : _SentFileType) (st st' : Store) :
  session_name self = session_name self' ->
  sent_files st = sent_files st' ->
  get_file self md5 size cls st = get_file self' md5 size cls st'.
Proof. intros Hn Hf. unfold get_file. now rewrite Hn, Hf. Qed.

Lemma replay_keeps_sent_files (env : Env) (legacy : LegacyDb) (d : dst_state) :
  sent_files (snd (snd (replay env legacy d))) = sent_files (snd d).
Proof.
  apply (replay_store_inv (fun s => sent_files s = sent_files (snd d))
           env legacy); auto.
Qed.

(** X18: a migration never writes [sent_files].  The table of the
    destination is after the call what it was before, whether the call
    returned or raised, so [get_file] answers for every session and key as
    before; and a legacy file whose [sent_files] has a document or photo
    row is never migrated to the end: the call raises, because the
    reference [InputDocument(fid, fh)] or [InputPhoto(fid, fh)] of the row
    cannot be built. *)
Theorem migrate_leaves_sent_files (env : Env) (sqlite_path : string)
  (name : option string) (db : option Store) :
  let db' := snd (migrate_sqlite_to_sqlalchemy env sqlite_path name db) in
  sent_files (store_of db') = sent_files (store_of db) /\
  (forall self md5 size cls,
      get_file self md5 size cls (store_of db')
      = get_file self md5 size cls (store_of db)) /\
  (forall legacy rows,
      open_path env sqlite_path = Database legacy ->
      legacy_sent_files legacy = Some rows ->
      existsb document_or_photo rows = true ->
      exists e,
        fst (migrate_sqlite_to_sqlalchemy env sqlite_path name db) = Raise e).
Proof.
  intros db'.
  assert (Hsf : sent_files (store_of db') = sent_files (store_of db)).
  { unfold db', migrate_sqlite_to_sqlalchemy. cbv zeta.
    destruct (open_path env sqlite_path) as [| | |legacy];
      [reflexivity|reflexivity|simpl; apply sent_files_init|].
    set (d0 := __init__ db (derive_session_name sqlite_path name)).
    assert (H := replay_keeps_sent_files env legacy d0).
    destruct (replay env legacy d0) as [r [self st]]. simpl in *.
    rewrite H. apply sent_files_init. }
  split; [exact Hsf|]. split.
  - intros self md5 size cls. now apply get_file_ext.
  - intros legacy rows Hopen Hrows Hex.
    unfold migrate_sqlite_to_sqlalchemy. cbv zeta. rewrite Hopen.
    set (d0 := __init__ db (derive_session_name sqlite_path name)).
    destruct (replay env legacy d0) as [[[]|e] [self st]] eqn:Hreplay;
      [|exists e; reflexivity].
    exfalso. apply replay_ok_steps in Hreplay.
    destruct Hreplay as [d1 [d2 [d3 (_ & _ & _ & H4)]]].
    assert (Ho := replay_sent_files_outcome legacy d3).
    rewrite H4, Hrows, Hex in Ho. discriminate.
Qed.

(** X23: [get_file] never returns a reference.  It answers [None] exactly
    when no row of [sent_files] has the key (session, digest, size, kind),
    and raises [TypeError] when a row has it, because the class is called
    with two of its three required arguments; so right after [cache_file]
    has stored a reference, [get_file] for the same key raises. *)
Theorem get_file_never_returns (self : SQLAlchemySession) (md5 : bytes)
  (size : Z) (cls : _SentFileType) (st : Store) :
  let k := (session_name self, md5, size, value cls) in
  (get_file self md5 size cls st = Ok None <->
   forall r, In r (sent_files st) -> sent_file_key r <> k) /\
  ((exists r, In r (sent_files st) /\ sent_file_key r = k) ->
   get_file self md5 size cls st = Raise TypeError) /\
  (forall inst, get_file self md5 size cls st <> Ok (Some inst)) /\
  (forall id access_hash file_reference,
      get_file self md5 size cls
        (snd (cache_file self md5 size
                (reference cls id access_hash file_reference) st))
      = Raise TypeError).
Proof.
  intros k.
  assert (Hhit : forall tbl,
             (exists r, In r tbl /\ sent_file_key r = k) ->
             exists r,
               first (sent_file_key_eqb (session_name self) md5 size (value cls))
                 tbl = Some r).
  { intros tbl [r [Hin Hk]].
    destruct (first _ tbl) as [r'|] eqn:Hf; [eauto|].
    unfold first in Hf. apply (find_none _ _ Hf) in Hin.
    apply sent_file_key_eqb_key in Hk. unfold k in Hk. congruence. }
  split; [|split; [|split]].
  - unfold get_file.
    destruct (first _ (sent_files st)) as [r|] eqn:Hf; simpl.
    + split; [discriminate|]. intros Hno. exfalso.
      unfold first in Hf. apply find_some in Hf. destruct Hf as [Hin Hk].
      apply sent_file_key_eqb_key in Hk. exact (Hno r Hin Hk).
    + split; [|reflexivity]. intros _ r Hin Hk.
      unfold first in Hf. apply (find_none _ _ Hf) in Hin.
      apply sent_file_key_eqb_key in Hk. unfold k in Hk. congruence.
  - intros Hex. destruct (Hhit _ Hex) as [r Hf].
    unfold get_file. now rewrite Hf.
  - intros inst. unfold get_file.
    destruct (first _ (sent_files st)); simpl; discriminate.
  - intros id access_hash file_reference.
    unfold get_file.
    assert (E : sent_files
                  (snd (cache_file self md5 size
                          (reference cls id access_hash file_reference) st))
                = merge (sent_file_key_eqb (session_name self) md5 size
                           (value cls))
                    (SentFile.mk (session_name self) md5 size (value cls)
                       id access_hash)
                    (sent_files st)).
    { destruct cls; reflexivity. }
    rewrite E, first_merge; [reflexivity|].
    apply sent_file_key_eqb_true. repeat split.
Qed.

(** ** The session record after a migration *)

Lemma reopen_ext (st st2 : Store) (sn : string) :
  sessions st = sessions st2 -> reopen st sn = reopen st2 sn.
Proof.
  intros H. unfold reopen, __init__, _load_existing_session.
  rewrite !sessions_ensure_schema. simpl store_of. rewrite H.
  destruct (first _ (sessions st2)); reflexivity.
Qed.

Lemma set_dc_fst (dc : option Z) (addr : option string) (port : option Z)
  (self : SQLAlchemySession) (st : Store) :
  fst (set_dc dc addr port self st)
  = mkSession (session_name self) (save_entities self)
      (match dc with Some d => d | None => 0%Z end) addr port
      (nonempty_bytes (_auth_key self)) (_takeout_id self).
Proof.
  unfold set_dc. simpl. unfold _update_session_row. simpl.
  rewrite first_merge by apply String.eqb_refl. simpl.
  destruct (_auth_key self) as [[|b k]|]; reflexivity.
Qed.

Lemma nonempty_bytes_Some (b : option bytes) (k : bytes) :
  nonempty_bytes b = Some k -> nonempty_bytes (Some k) = Some k.
Proof. destruct b as [[|x l]|]; simpl; intros H; inversion H; reflexivity. Qed.

Lemma init_auth_key_normal (db : option Store) (sn : string) :
  nonempty_bytes (_auth_key (fst (__init__ db sn)))
  = _auth_key (fst (__init__ db sn)).
Proof.
  unfold __init__, _load_existing_session.
  destruct (first _ (sessions (_ensure_schema db))); simpl; auto.
  apply nonempty_bytes_idem.
Qed.

Lemma replay_session_record_row (legacy : LegacyDb) (d : dst_state)
  (dc : option Z) (addr : option string) (port : option Z)
  (key : option bytes) (tk : option Z)
  (rest : list (option Z * option string * option Z * option bytes * option Z)) :
  legacy_sessions legacy = Some ((dc, addr, port, key, tk) :: rest) ->
  reopen (snd (snd (replay_session_record legacy d))) (session_name (fst d))
  = mkSession (session_name (fst d)) true
      (match dc with Some z => z | None => 0%Z end) addr port
      (match nonempty_bytes key with
       | Some k => Some k
       | None => nonempty_bytes (_auth_key (fst d))
       end) tk.
Proof.
  intros Hrow. unfold replay_session_record. rewrite Hrow.
  destruct d as [self st]. unfold bind, on_session, modify.
  cbn [fst snd].
  assert (Hfst := set_dc_fst dc addr port self st).
  destruct (set_dc dc addr port self st) as [selfA stA]. cbn [fst snd] in *.
  subst selfA.
  destruct (nonempty_bytes key) as [k|] eqn:Hk; unfold ret; cbn [fst snd].
  - unfold set_takeout_id, set_auth_key. cbn [fst snd].
    rewrite (reopen_after_update
               (mkSession (session_name self) (save_entities self)
                  (match dc with Some z => z | None => 0%Z end) addr port
                  (Some k) tk)).
    cbn [session_name _dc_id _server_address _port _auth_key _takeout_id].
    now rewrite (nonempty_bytes_Some _ _ Hk).
  - unfold set_takeout_id. cbn [fst snd].
    rewrite (reopen_after_update
               (mkSession (session_name self) (save_entities self)
                  (match dc with Some z => z | None => 0%Z end) addr port
                  (nonempty_bytes (_auth_key self)) tk)).
    cbn [session_name _dc_id _server_address _port _auth_key _takeout_id].
    now rewrite nonempty_bytes_idem.
Qed.

Lemma later_steps_keep_sessions (env : Env) (legacy : LegacyDb) (d : dst_state) :
  sessions
    (snd (snd ((replay_entities env legacy ;;;
                replay_update_state env legacy ;;;
                replay_sent_files legacy) d)))
  = sessions (snd d).
Proof.
  apply (preserves_bind
           (fun d' : dst_state => sessions (snd d') = sessions (snd d))); auto.
  - intros s Hs. rewrite <- Hs. apply (replay_entities_keeps env legacy s).
  - intros _. apply preserves_bind.
    + intros s Hs. rewrite <- Hs. apply (replay_update_state_keeps env legacy s).
    + intros _ s Hs. rewrite <- Hs. apply (replay_sent_files_keeps legacy s).
Qed.

(** X19: after the migration of a legacy file whose [sessions] table has a
    row, a session object opened for the migrated name has the data centre
    (0 when the row has none), address, port and takeout id of that row, and
    its key when the row has a non-empty one (the key the destination had
    for that name otherwise), whether the later steps returned or raised. *)
Theorem migrate_replays_session_record (env : Env) (sqlite_path : string)
  (name : option string) (db : option Store) (legacy : LegacyDb)
  (dc : option Z) (addr : option string) (port : option Z)
  (key : option bytes) (tk : option Z)
  (rest : list (option Z * option string * option Z * option bytes * option Z)) :
  open_path env sqlite_path = Database legacy ->
  legacy_sessions legacy = Some ((dc, addr, port, key, tk) :: rest) ->
  let sn := derive_session_name sqlite_path name in
  reopen (store_of (snd (migrate_sqlite_to_sqlalchemy env sqlite_path name db)))
    sn
  = mkSession sn true (match dc with Some z => z | None => 0%Z end) addr port
      (match nonempty_bytes key with
       | Some k => Some k
       | None => _auth_key (fst (__init__ db sn))
       end) tk.
Proof.
  intros Hopen Hrow sn. unfold migrate_sqlite_to_sqlalchemy. rewrite Hopen.
  fold sn.
  assert (Hsess : sessions (snd (snd (replay env legacy (__init__ db sn))))
                  = sessions
                      (snd (snd (replay_session_record legacy (__init__ db sn))))).
  { unfold replay. rewrite snd_bind, replay_session_record_outcome, Hrow.
    apply later_steps_keep_sessions. }
  assert (Hre := replay_session_record_row legacy (__init__ db sn)
                   dc addr port key tk rest Hrow).
  rewrite init_session_name, init_auth_key_normal in Hre.
  destruct (replay env legacy (__init__ db sn)) as [r [self st]].
  cbn [fst snd store_of] in *. rewrite <- Hre. now apply reopen_ext.
Qed.

(** ** The derived session name *)

Lemma has_slash_app (a b : string) :
  has_slash (a ++ b)%string = has_slash a || has_slash b.
Proof.
  induction a as [|c a IH]; simpl; auto. rewrite IH. apply orb_assoc.
Qed.

Lemma basename_noslash (f : string) : has_slash f = false -> basename f = f.
Proof.
  destruct f as [|c f]; simpl; auto.
  intros H. apply orb_false_iff in H. destruct H as [Hc Hf].
  now rewrite Hf, Hc.
Qed.

Lemma basename_app_noslash (a e : string) :
  has_slash e = false -> basename (a ++ e)%string = (basename a ++ e)%string.
Proof.
  intros He. induction a as [|c a IH]; simpl.
  - now apply basename_noslash.
  - rewrite has_slash_app, He, orb_false_r.
    destruct (has_slash a); auto.
    destruct (Ascii.eqb c "/"); reflexivity.
Qed.

Lemma basename_dir_slash (a : string) : basename (a ++ "/")%string = "".
Proof.
  induction a as [|c a IH]; simpl; auto.
  rewrite has_slash_app. simpl. now rewrite orb_true_r.
Qed.

Lemma append_assoc (a b c : string) :
  ((a ++ b) ++ c)%string = (a ++ (b ++ c))%string.
Proof. induction a as [|x a IH]; simpl; auto. now rewrite IH. Qed.

Lemma basename_join (dir f : string) :
  has_slash f = false -> basename (dir ++ "/" ++ f)%string = f.
Proof.
  intros Hf. rewrite <- append_assoc, basename_app_noslash by exact Hf.
  now rewrite basename_dir_slash.
Qed.

Lemma length_append (a b : string) :
  String.length (a ++ b)%string = String.length a + String.length b.
Proof. induction a as [|c a IH]; simpl; auto. Qed.

Lemma substring_all (b : string) : substring 0 (String.length b) b = b.
Proof. induction b as [|c b IH]; simpl; auto. now rewrite IH. Qed.

Lemma substring_app_l (a b : string) :
  substring 0 (String.length a) (a ++ b)%string = a.
Proof.
  induction a as [|c a IH]; simpl.
  - destruct b; reflexivity.
  - now rewrite IH.
Qed.

Lemma substring_app_r (a b : string) :
  substring (String.length a) (String.length b) (a ++ b)%string = b.
Proof.
  induction a as [|c a IH]; simpl; auto. apply substring_all.
Qed.

Lemma endswith_app (a suffix : string) : endswith (a ++ suffix) suffix = true.
Proof.
  unfold endswith. rewrite length_append.
  replace (String.length a + String.length suffix - String.length suffix)
    with (String.length a) by lia.
  rewrite substring_app_r, String.eqb_refl.
  rewrite andb_true_r. apply Nat.leb_le. lia.
Qed.

Lemma inferred_of_stem (stem : string) (path : string) :
  basename path = (stem ++ ".session")%string ->
  inferred_session_name path = if String.eqb stem "" then "default" else stem.
Proof.
  intros Hb. unfold inferred_session_name. rewrite Hb, endswith_app.
  rewrite length_append.
  replace (String.length stem + String.length ".session" - 8)
    with (String.length stem) by (simpl; lia).
  now rewrite substring_app_l.
Qed.

Lemma inferred_nonempty (path : string) : inferred_session_name path <> "".
Proof.
  unfold inferred_session_name.
  destruct (String.eqb _ "") eqn:E; [discriminate|].
  now apply String.eqb_neq.
Qed.

Lemma os_path_join_noslash (a b : string) :
  has_slash b = false ->
  os_path_join a b
  = if String.eqb a "" || endswith a "/" then (a ++ b)%string
    else (a ++ "/" ++ b)%string.
Proof.
  unfold os_path_join. destruct b as [|c b]; auto.
  intros H. simpl in H. apply orb_false_iff in H. destruct H as [Hc _].
  destruct c as [[] [] [] [] [] [] [] []]; try reflexivity; discriminate.
Qed.

Lemma endswith_slash (a : string) :
  endswith a "/" = true -> exists a0, a = (a0 ++ "/")%string.
Proof.
  induction a as [|c a IH]; [discriminate|].
  destruct a as [|c' a'].
  - unfold endswith. simpl. intros H.
    destruct (Ascii.eqb_spec c "/") as [->|_]; [|discriminate].
    now exists "".
  - intros H.
    assert (E : endswith (String c (String c' a')) "/"
                = endswith (String c' a') "/").
    { unfold endswith. cbn [String.length].
      replace (S (S (String.length a')) - 1) with (S (String.length a'))
        by lia.
      replace (S (String.length a') - 1) with (String.length a') by lia.
      reflexivity. }
    rewrite E in H. destruct (IH H) as [a0 Ha0].
    exists (String c a0). simpl. now rewrite Ha0.
Qed.

Lemma basename_os_path_join (dir e : string) :
  has_slash e = false -> basename (os_path_join dir e) = e.
Proof.
  intros He. rewrite os_path_join_noslash by exact He.
  destruct (String.eqb_spec dir "") as [->|Hd]; simpl.
  - now apply basename_noslash.
  - destruct (endswith dir "/") eqn:Hs.
    + destruct (endswith_slash dir Hs) as [a0 ->].
      rewrite basename_app_noslash by exact He.
      now rewrite basename_dir_slash.
    + now apply basename_join.
Qed.

(** X20: the session name a legacy file is migrated under.  A non-empty
    name given by the caller is used as it is, and an empty one counts as
    none; the name is never empty; without a given name, a file
    [stem.session] in any directory gives [stem], the file [.session] gives
    [default], and a file name that does not end in [.session] is the name. *)
Theorem derive_session_name_spec :
  (forall path sn, sn <> "" -> derive_session_name path (Some sn) = sn) /\
  (forall path, derive_session_name path (Some "")
                = derive_session_name path None) /\
  (forall path name, derive_session_name path name <> "") /\
  (forall dir stem,
      has_slash stem = false -> stem <> "" ->
      derive_session_name (os_path_join dir (stem ++ ".session")) None = stem) /\
  (forall dir, derive_session_name (os_path_join dir ".session") None
               = "default") /\
  (forall dir f,
      has_slash f = false -> f <> "" -> endswith f ".session" = false ->
      derive_session_name (os_path_join dir f) None = f).
Proof.
  split; [|split; [|split; [|split; [|split]]]].
  - intros path sn Hsn. unfold derive_session_name.
    now rewrite (proj2 (truthy_Some sn) Hsn).
  - reflexivity.
  - intros path [sn|]; unfold derive_session_name;
      [|apply inferred_nonempty].
    destruct (truthy (Some sn)) eqn:Ht; [|apply inferred_nonempty].
    now apply truthy_Some.
  - intros dir stem Hs Hne. unfold derive_session_name.
    rewrite (inferred_of_stem stem).
    + now rewrite (proj2 (String.eqb_neq stem "") Hne).
    + apply basename_os_path_join.
      rewrite has_slash_app, Hs. reflexivity.
  - intros dir. unfold derive_session_name.
    rewrite (inferred_of_stem ""); [reflexivity|].
    now apply basename_os_path_join.
  - intros dir f Hs Hne He. unfold derive_session_name, inferred_session_name.
    rewrite basename_os_path_join by exact Hs. rewrite He.
    now rewrite (proj2 (String.eqb_neq f "") Hne).
Qed.

(** ** Migration of a directory *)

Lemma record_kept_by_init (sn0 sn : string) (db : option Store) :
  has_session_record sn0 (store_of db) ->
  has_session_record sn0 (snd (__init__ db sn)).
Proof.
  unfold has_session_record. rewrite <- (sessions_ensure_schema db).
  intros H. unfold __init__, _load_existing_session.
  destruct (first _ (sessions (_ensure_schema db))); simpl; auto.
  apply (merge_keeps_session sn0
           (SessionRow.mk sn (Some 0%Z) None None (Some []) None)), H.
Qed.

Lemma record_kept_by_migrate (sn0 : string) (env : Env) (sqlite_path : string)
  (name : option string) (db : option Store) :
  has_session_record sn0 (store_of db) ->
  has_session_record sn0
    (store_of (snd (migrate_sqlite_to_sqlalchemy env sqlite_path name db))).
Proof.
  intros H. unfold migrate_sqlite_to_sqlalchemy. cbv zeta.
  destruct (open_path env sqlite_path) as [| | |legacy];
    [exact H|exact H|simpl; now apply record_kept_by_init|].
  assert (Hp : preserves (fun d : dst_state => has_session_record sn0 (snd d))
                 (replay env legacy)).
  { apply (replay_store_inv (has_session_record sn0)).
    - intros; now apply _update_session_row_keeps.
    - intros; assumption.
    - intros; assumption. }
  specialize (Hp (__init__ db (derive_session_name sqlite_path name))
                (record_kept_by_init sn0 _ db H)).
  destruct (replay env legacy _) as [r [self st]]. exact Hp.
Qed.

Lemma record_made_by_migrate (env : Env) (sqlite_path : string)
  (name : option string) (db : option Store) :
  connects (open_path env sqlite_path) ->
  has_session_record (derive_session_name sqlite_path name)
    (store_of (snd (migrate_sqlite_to_sqlalchemy env sqlite_path name db))).
Proof.
  intros Hopen. unfold migrate_sqlite_to_sqlalchemy. cbv zeta.
  destruct (open_path env sqlite_path) as [| | |legacy];
    [now elim Hopen|now elim Hopen|
     simpl; exact (proj2 (__init___dst_ok db _))|].
  assert (H := replay_dst_ok (derive_session_name sqlite_path name) env legacy
                 (__init__ db _) (__init___dst_ok db _)).
  destruct (replay env legacy _) as [r [self st]]. exact (proj2 H).
Qed.

Lemma migrate_entry_skip (fs : Env) (clock : string -> Z) (dir_path : string)
  (acc : list (string * result unit) * option Store) (e : string) :
  endswith e ".session" = false -> migrate_entry fs clock dir_path acc e = acc.
Proof. intros He. unfold migrate_entry. now rewrite He. Qed.

Lemma migrate_entry_run (fs : Env) (clock : string -> Z) (dir_path : string)
  (acc : list (string * result unit) * option Store) (e : string) :
  endswith e ".session" = true ->
  migrate_entry fs clock dir_path acc e
  = (fst acc
     ++ [(os_path_join dir_path e,
          fst (migrate_sqlite_to_sqlalchemy
                 (mkEnv (open_path fs) (clock (os_path_join dir_path e))
                    (entity_module_importable fs) (fromtimestamp_error fs))
                 (os_path_join dir_path e) None (snd acc)))],
     snd (migrate_sqlite_to_sqlalchemy
            (mkEnv (open_path fs) (clock (os_path_join dir_path e))
               (entity_module_importable fs) (fromtimestamp_error fs))
            (os_path_join dir_path e) None (snd acc))).
Proof.
  intros He. unfold migrate_entry. rewrite He.
  now destruct (migrate_sqlite_to_sqlalchemy _ _ None (snd acc)).
Qed.

Lemma migrate_entries_fold (fs : Env) (clock : string -> Z) (dir_path : string)
  (entries : list string) (lines0 : list (string * result unit))
  (db0 : option Store) :
  let res := fold_left (migrate_entry fs clock dir_path) entries (lines0, db0) in
  map fst (fst res)
  = map fst lines0
    ++ map (os_path_join dir_path)
         (filter (fun e => endswith e ".session") entries) /\
  (forall sn0, has_session_record sn0 (store_of db0) ->
               has_session_record sn0 (store_of (snd res))) /\
  (forall e,
      In e entries -> endswith e ".session" = true ->
      connects (open_path fs (os_path_join dir_path e)) ->
      has_session_record
        (derive_session_name (os_path_join dir_path e) None)
        (store_of (snd res))) /\
  (wf_db db0 -> wf_db (snd res)).
Proof.
  revert lines0 db0. induction entries as [|e entries IH]; intros lines0 db0.
  - simpl. rewrite app_nil_r. repeat split; auto. intros ? [].
  - cbn [fold_left filter].
    destruct (endswith e ".session") eqn:He.
    + rewrite (migrate_entry_run fs clock dir_path (lines0, db0) e He).
      cbn [fst snd].
      set (src := os_path_join dir_path e).
      set (env := mkEnv (open_path fs) (clock src)
                    (entity_module_importable fs) (fromtimestamp_error fs)).
      assert (Hkeep := fun sn0 => record_kept_by_migrate sn0 env src None db0).
      assert (Hmade := record_made_by_migrate env src None db0).
      assert (Hwf := wf_migrate env src None db0).
      destruct (migrate_sqlite_to_sqlalchemy env src None db0) as [r db1].
      cbn [fst snd] in *.
      destruct (IH (lines0 ++ [(src, r)]) db1) as (H1 & H2 & H3 & H4).
      split; [|split; [|split]].
      * rewrite H1, map_app, <- app_assoc. reflexivity.
      * intros sn0 H0. apply H2, Hkeep, H0.
      * intros e' [<-|Hin] He' Hopen.
        -- apply H2. now apply Hmade.
        -- now apply H3.
      * intros H0. apply H4, Hwf, H0.
    + rewrite (migrate_entry_skip fs clock dir_path (lines0, db0) e He).
      destruct (IH lines0 db0) as (H1 & H2 & H3 & H4).
      split; [exact H1|]. split; [exact H2|]. split; [|exact H4].
      intros e' [<-|Hin] He' Hopen; [congruence|now apply H3].
Qed.

(** X21: [migrate_directory] raises only when the path is not a directory,
    and then leaves the destination alone.  Otherwise it returns with one
    line per entry that ends in [.session], in listing order, whatever the
    outcome of each file; entries with another ending are not touched; every
    such entry whose file [sqlite3.connect] opens has its session record in
    the destination afterwards, a later failure notwithstanding; and
    primary keys still hold. *)
Theorem migrate_directory_completes (fs : Env) (clock : string -> Z)
  (listdir : string -> option (list string)) (dir_path : string)
  (db : option Store) :
  (listdir dir_path = None ->
   migrate_directory fs clock listdir dir_path db = (NotADirectoryError, db)) /\
  (forall entries,
      listdir dir_path = Some entries ->
      exists lines db',
        migrate_directory fs clock listdir dir_path db = (Printed lines, db') /\
        map fst lines
        = map (os_path_join dir_path)
            (filter (fun e => endswith e ".session") entries) /\
        (forall sn0, has_session_record sn0 (store_of db) ->
                     has_session_record sn0 (store_of db')) /\
        (forall e,
            In e entries -> endswith e ".session" = true ->
            connects (open_path fs (os_path_join dir_path e)) ->
            has_session_record
              (derive_session_name (os_path_join dir_path e) None)
              (store_of db')) /\
        (wf_db db -> wf_db db')).
Proof.
  unfold migrate_directory. split.
  - intros ->. reflexivity.
  - intros entries ->.
    destruct (migrate_entries_fold fs clock dir_path entries [] db)
      as (H1 & H2 & H3 & H4).
    destruct (fold_left (migrate_entry fs clock dir_path) entries ([], db))
      as [lines db'].
    exists lines, db'. cbn [fst snd] in *. auto.
Qed.

(** ** Listing after opening *)

(** X22: opening a session adds its name to what [list_sessions] returns and
    nothing else: a name is listed afterwards exactly when it is the opened
    name or was listed before. *)
Theorem list_sessions_after_init (db : option Store) (sn x : string) :
  In x (list_sessions (Some (snd (__init__ db sn))))
  <-> x = sn \/ In x (list_sessions db).
Proof.
  assert (Hdb : In x (list_sessions db)
                <-> exists r, In r (sessions (store_of db))
                              /\ SessionRow.session_name r = x).
  { destruct db as [st|]; [apply list_sessions_In|].
    simpl. split; [intros []|intros [r [[] _]]]. }
  rewrite Hdb, list_sessions_In.
  unfold __init__, _load_existing_session. simpl session_name.
  rewrite <- (sessions_ensure_schema db).
  destruct (first (session_key_eqb sn) (sessions (_ensure_schema db)))
    as [r0|] eqn:Hf; cbn [snd sessions set_sessions].
  - split; [auto|]. intros [->|H]; auto.
    unfold first in Hf. apply find_some in Hf. destruct Hf as [Hin Hk].
    apply session_key_eqb_true in Hk. eauto.
  - rewrite (merge_no_match _ _ _ Hf). split.
    + intros [r [Hin Hr]]. apply in_app_or in Hin.
      destruct Hin as [Hin|[<-|[]]]; eauto.
    + intros [->|[r [Hin Hr]]].
      * eexists. split; [apply in_or_app; right; now left|reflexivity].
      * exists r. split; auto. apply in_or_app. now left.
Qed.

(** ** Instances on the sample data *)

Ltac distinct_keys :=
  repeat constructor; simpl; intuition (try discriminate).

Lemma operations_keep_primary_keys_witness :
  wf_store store_shared /\
  ((forall sn, wf_store (snd (__init__ (Some store_shared) sn))) /\
   (forall self dc addr port,
       wf_store (snd (set_dc dc addr port self store_shared))) /\
   (forall self key, wf_store (snd (set_auth_key key self store_shared))) /\
   (forall self tk, wf_store (snd (set_takeout_id tk self store_shared))) /\
   (forall self now_ts rows,
       wf_store (process_entities self now_ts rows store_shared)) /\
   (forall self u,
       wf_store (snd (get_entity_rows_by_username self u store_shared))) /\
   (forall self i state, wf_store (set_update_state self i state store_shared)) /\
   (forall self md5 size inst,
       wf_store (snd (cache_file self md5 size inst store_shared))) /\
   (forall self, wf_store (delete self store_shared)) /\
   (forall env path name,
       wf_db (snd (migrate_sqlite_to_sqlalchemy env path name
                     (Some store_shared))))).
Proof.
  assert (H : wf_store store_shared).
  { unfold wf_store, pk_entities. simpl. repeat split; distinct_keys. }
  split; [exact H|]. exact (operations_keep_primary_keys store_shared H).
Defined.

Lemma writers_touch_only_their_session_witness :
  "b" <> session_name sess_a /\
  (session_view "b" (snd (__init__ (Some store_shared) (session_name sess_a)))
   = session_view "b" store_shared /\
   (forall dc addr port,
       session_view "b" (snd (set_dc dc addr port sess_a store_shared))
       = session_view "b" store_shared) /\
   (forall key,
       session_view "b" (snd (set_auth_key key sess_a store_shared))
       = session_view "b" store_shared) /\
   (forall tk,
       session_view "b" (snd (set_takeout_id tk sess_a store_shared))
       = session_view "b" store_shared) /\
   (forall now_ts rows,
       session_view "b" (process_entities sess_a now_ts rows store_shared)
       = session_view "b" store_shared) /\
   (forall u,
       session_view "b" (snd (get_entity_rows_by_username sess_a u store_shared))
       = session_view "b" store_shared) /\
   (forall i state,
       session_view "b" (set_update_state sess_a i state store_shared)
       = session_view "b" store_shared) /\
   (forall md5 size inst,
       session_view "b" (snd (cache_file sess_a md5 size inst store_shared))
       = session_view "b" store_shared) /\
   session_view "b" (delete sess_a store_shared) = session_view "b" store_shared).
Proof.
  assert (H : "b" <> session_name sess_a) by discriminate.
  split; [exact H|].
  exact (writers_touch_only_their_session sess_a store_shared "b" H).
Defined.

Lemma migrate_touches_only_its_session_witness :
  "a" <> derive_session_name "/data/y.session" None /\
  session_view "a"
    (store_of (snd (migrate_sqlite_to_sqlalchemy env_sample "/data/y.session"
                      None (Some store_shared))))
  = session_view "a" (store_of (Some store_shared)).
Proof.
  assert (H : "a" <> derive_session_name "/data/y.session" None)
    by (vm_compute; discriminate).
  split; [exact H|].
  exact (migrate_touches_only_its_session env_sample "/data/y.session" None
           (Some store_shared) "a" H).
Defined.

Lemma set_update_state_other_keys_witness :
  (session_name sess_b, 0%Z) <> (session_name sess_a, 0%Z) /\
  get_update_state sess_b 0%Z
    (set_update_state sess_a 0%Z cursor_sample store_shared)
  = get_update_state sess_b 0%Z store_shared.
Proof.
  assert (H : (session_name sess_b, 0%Z) <> (session_name sess_a, 0%Z))
    by discriminate.
  split; [exact H|].
  exact (set_update_state_other_keys sess_a sess_b 0%Z 0%Z cursor_sample
           store_shared H).
Defined.

Lemma get_update_states_agree_witness :
  NoDup (map update_state_key (update_state store_shared)) /\
  ((forall i s,
       In (i, s) (get_update_states sess_a store_shared)
       <-> get_update_state sess_a i store_shared = Some s) /\
   (forall i state,
       In (i, State.mk (State.pts state) (State.qts state)
                (date_of_column
                   (match State.date state with
                    | Some d => Some (timestamp d)
                    | None => None
                    end))
                (State.seq state) 0%Z)
         (get_update_states sess_a
            (set_update_state sess_a i state store_shared)))).
Proof.
  assert (H : NoDup (map update_state_key (update_state store_shared)))
    by distinct_keys.
  split; [exact H|]. exact (get_update_states_agree sess_a store_shared H).
Defined.

Lemma evict_keeps_most_recent_witness :
  pk_entities (entities store_shared) /\
  holders "a" "bob" (entities store_shared) <> [] /\
  exists r,
    In r (holders "a" "bob" (entities store_shared)) /\
    holders "a" "bob"
      (evict_older_duplicates "a" "bob" (entities store_shared)) = [r] /\
    (forall r', In r' (holders "a" "bob" (entities store_shared)) ->
                date_le (Entity.date r') (Entity.date r) = true) /\
    evict_older_duplicates "a" "bob"
      (evict_older_duplicates "a" "bob" (entities store_shared))
    = evict_older_duplicates "a" "bob" (entities store_shared).
Proof.
  assert (H1 : pk_entities (entities store_shared)) by distinct_keys.
  assert (H2 : holders "a" "bob" (entities store_shared) <> [])
    by discriminate.
  split; [exact H1|]. split; [exact H2|].
  exact (evict_keeps_most_recent "a" "bob" (entities store_shared) H1 H2).
Defined.

Lemma get_entity_rows_by_username_repairs_witness :
  pk_entities (entities store_shared) /\
  (let sn := session_name sess_a in
   let res := fst (get_entity_rows_by_username sess_a "bob" store_shared) in
   let st' := snd (get_entity_rows_by_username sess_a "bob" store_shared) in
   (holders sn "bob" (entities store_shared) = [] -> res = None /\ st' = store_shared) /\
   (forall r,
       holders sn "bob" (entities store_shared) = [r] ->
       res = Some (Entity.id r, Entity.hash r) /\ st' = store_shared) /\
   (holders sn "bob" (entities store_shared) <> [] ->
    exists r,
      In r (holders sn "bob" (entities store_shared)) /\
      res = Some (Entity.id r, Entity.hash r) /\
      holders sn "bob" (entities st') = [r] /\
      (forall r', In r' (holders sn "bob" (entities store_shared)) ->
                  (date_or_0 (Entity.date r') <= date_or_0 (Entity.date r))%Z)) /\
   Forall2 (evicted sn "bob") (entities store_shared) (entities st') /\
   get_entity_rows_by_username sess_a "bob" st' = (res, st') /\
   sessions st' = sessions store_shared /\
   update_state st' = update_state store_shared /\
   sent_files st' = sent_files store_shared /\
   version st' = version store_shared).
Proof.
  assert (H : pk_entities (entities store_shared)) by distinct_keys.
  split; [exact H|].
  exact (get_entity_rows_by_username_repairs sess_a "bob" store_shared H).
Defined.

Lemma process_entities_then_lookup_by_id_witness :
  save_entities sess_a = true /\
  pk_entities (entities store_shared) /\
  Forall (fun x => row_id x <> 2%Z) [(7%Z, 1%Z, Some "bob", None, None)] /\
  get_entity_rows_by_id sess_a 2%Z
    (process_entities sess_a 3000%Z
       ([(2%Z, 40%Z, None, None, None)]
        ++ (2%Z, 41%Z, Some "bobby", None, None)
           :: [(7%Z, 1%Z, Some "bob", None, None)])
       store_shared)
  = Some (2%Z, 41%Z).
Proof.
  assert (H1 : pk_entities (entities store_shared)) by distinct_keys.
  assert (H2 : Forall (fun x => row_id x <> 2%Z)
                 [(7%Z, 1%Z, Some "bob", None, None)]).
  { repeat constructor. simpl. discriminate. }
  split; [reflexivity|]. split; [exact H1|]. split; [exact H2|].
  exact (process_entities_then_lookup_by_id sess_a 3000%Z store_shared
           [(2%Z, 40%Z, None, None, None)]
           [(7%Z, 1%Z, Some "bob", None, None)]
           2%Z 41%Z (Some "bobby") None None eq_refl H1 H2).
Defined.

Lemma process_entities_then_lookup_by_username_witness :
  save_entities sess_a = true /\
  pk_entities (entities store_bob) /\
  "bob" <> "" /\
  (forall r',
      In r' (entities store_bob) -> Entity.session_name r' = session_name sess_a ->
      Entity.username r' = Some "bob" -> Entity.id r' <> 1%Z ->
      date_le (Some 3000%Z) (Entity.date r') = false) /\
  (let st' :=
     process_entities sess_a 3000%Z [(1%Z, 5%Z, Some "bob", None, None)]
       store_bob in
   get_entity_rows_by_username sess_a "bob" st' = (Some (1%Z, 5%Z), st')).
Proof.
  assert (H1 : pk_entities (entities store_bob)) by distinct_keys.
  assert (H2 : "bob" <> "") by discriminate.
  assert (H3 : forall r',
             In r' (entities store_bob) ->
             Entity.session_name r' = session_name sess_a ->
             Entity.username r' = Some "bob" -> Entity.id r' <> 1%Z ->
             date_le (Some 3000%Z) (Entity.date r') = false).
  { intros r' [<-|[]] _ _ _. reflexivity. }
  split; [reflexivity|]. split; [exact H1|]. split; [exact H2|].
  split; [exact H3|].
  exact (process_entities_then_lookup_by_username sess_a 3000%Z store_bob
           1%Z 5%Z "bob" None None eq_refl H1 H2 H3).
Defined.

Lemma migrate_outcome_witness :
  open_path env_sample "/data/y.session" = Database legacy_complete /\
  fst (migrate_sqlite_to_sqlalchemy env_sample "/data/y.session" None
         (Some store_shared))
  = migration_outcome env_sample legacy_complete.
Proof.
  split; [reflexivity|].
  exact (migrate_outcome env_sample "/data/y.session" None (Some store_shared)
           legacy_complete eq_refl).
Defined.

Lemma migrate_keeps_usernames_unique_witness :
  pk_entities (entities store_bob) /\
  username_unique (entities store_bob) /\
  (let st' :=
     store_of (snd (migrate_sqlite_to_sqlalchemy env_sample "/data/y.session"
                      (Some "a") (Some store_bob))) in
   pk_entities (entities st') /\
   username_unique (entities st') /\
   (forall r v,
       In r (entities st') -> Entity.username r = Some v ->
       In r (entities store_bob) \/
       (Entity.session_name r = derive_session_name "/data/y.session" (Some "a") /\
        v <> "" /\ is_lower v))).
Proof.
  assert (H1 : pk_entities (entities store_bob)) by distinct_keys.
  assert (H2 : username_unique (entities store_bob)).
  { intros r1 r2 u [<-|[]] [<-|[]]. reflexivity. }
  split; [exact H1|]. split; [exact H2|].
  exact (migrate_keeps_usernames_unique env_sample "/data/y.session" (Some "a")
           store_bob H1 H2).
Defined.

Lemma migrate_replays_cursors_witness :
  open_path env_sample "/data/z.session" = Database legacy_no_files /\
  legacy_update_state legacy_no_files
  = Some [(0%Z, 100%Z, 50%Z, Some 1700000000%Z, 7%Z)] /\
  NoDup (map legacy_cursor_id [(0%Z, 100%Z, 50%Z, Some 1700000000%Z, 7%Z)]) /\
  migrate_sqlite_to_sqlalchemy env_sample "/data/z.session" None None
  = (Ok tt, Some store_after_z) /\
  session_name (default_session "z")
  = derive_session_name "/data/z.session" None /\
  In (0%Z, 100%Z, 50%Z, Some 1700000000%Z, 7%Z)
    [(0%Z, 100%Z, 50%Z, Some 1700000000%Z, 7%Z)] /\
  get_update_state (default_session "z") 0%Z store_after_z
  = Some (State.mk 100%Z 50%Z (date_of_column (Some 1700000000%Z)) 7%Z 0%Z).
Proof.
  assert (H3 : NoDup (map legacy_cursor_id
                        [(0%Z, 100%Z, 50%Z, Some 1700000000%Z, 7%Z)]))
    by distinct_keys.
  assert (H4 : migrate_sqlite_to_sqlalchemy env_sample "/data/z.session"
                 None None = (Ok tt, Some store_after_z))
    by (vm_compute; reflexivity).
  assert (H5 : session_name (default_session "z")
               = derive_session_name "/data/z.session" None)
    by (vm_compute; reflexivity).
  assert (H6 : In (0%Z, 100%Z, 50%Z, Some 1700000000%Z, 7%Z)
                 [(0%Z, 100%Z, 50%Z, Some 1700000000%Z, 7%Z)]) by now left.
  split; [reflexivity|]. split; [reflexivity|]. split; [exact H3|].
  split; [exact H4|]. split; [exact H5|]. split; [exact H6|].
  exact (migrate_replays_cursors env_sample "/data/z.session" None None
           legacy_no_files [(0%Z, 100%Z, 50%Z, Some 1700000000%Z, 7%Z)]
           store_after_z (default_session "z")
           0%Z 100%Z 50%Z (Some 1700000000%Z) 7%Z
           eq_refl eq_refl H3 H4 H5 H6).
Defined.

Lemma migrate_replays_session_record_witness :
  open_path env_sample "/data/y.session" = Database legacy_complete /\
  legacy_sessions legacy_complete
  = Some [(Some 2%Z, Some "149.154.167.51", Some 443%Z, Some [x01; x02], None)] /\
  (let sn := derive_session_name "/data/y.session" None in
   reopen
     (store_of (snd (migrate_sqlite_to_sqlalchemy env_sample "/data/y.session"
                       None (Some store_shared)))) sn
   = mkSession sn true 2%Z (Some "149.154.167.51") (Some 443%Z)
       (match nonempty_bytes (Some [x01; x02]) with
        | Some k => Some k
        | None => _auth_key (fst (__init__ (Some store_shared) sn))
        end) None).
Proof.
  split; [reflexivity|]. split; [reflexivity|].
  exact (migrate_replays_session_record env_sample "/data/y.session" None
           (Some store_shared) legacy_complete
           (Some 2%Z) (Some "149.154.167.51") (Some 443%Z) (Some [x01; x02])
           None [] eq_refl eq_refl).
Defined.
